(** * Numeric literal scanning of the meriyah lexer (src/lexer/numeric.ts)

    A shallow embedding of [scanNumber] and [scanDecimalDigitsOrSeparator]
    together with the part of the JavaScript runtime they rely on
    (Number arithmetic on integer values, Number-to-String and
    String-to-Number conversion), followed by the properties of the
    specification that concern them.  The grammar engine is not among the
    sources; the rule for the placement of function declarations is
    modelled from the specification on a fragment of the statement
    grammar. *)

From stdpp Require Import base list strings numbers.
From Stdlib Require Import Zbitwise.

Local Open Scope Z_scope.

(** ** JavaScript strings and numbers *)

(** A JavaScript string is a sequence of UTF-16 code units. *)
Definition jsstring := list Z.

Definition lit (s : string) : jsstring :=
  (λ a, Z.of_N (Ascii.N_of_ascii a)) <$> String.list_ascii_of_string s.

(** [String.prototype.slice(a, b)] and [String.prototype.substring(a, b)]
    for non-negative integer arguments: both clamp to the length, [slice]
    gives the empty string when [b <= a], [substring] swaps its arguments. *)
Definition slice (s : jsstring) (a b : nat) : jsstring := take (b - a) (drop a s).
Definition substring (s : jsstring) (a b : nat) : jsstring :=
  slice s (Nat.min a b) (Nat.max a b).

(** [String.prototype.charCodeAt(i)]: [None] stands for NaN (index out of
    range). *)
Definition charCodeAt (s : jsstring) (i : nat) : option Z := s !! i.

(** Numbers.  Every Number the scanner computes with is a non-negative
    integer-valued double or +Infinity ([whole]); text conversion can also
    yield NaN or a finite non-integer double, kept as [Frac m e] for the
    value [m * 2^e] with [m] odd and [e < 0]. *)
Inductive whole := Fin (z : Z) | PosInf.
Inductive number := Whole (w : whole) | NaN | Frac (m e : Z).

(** Local [value: any] of the scanner is a Number or a String; so is
    [parser.tokenValue]. *)
Inductive acc := AccNum (w : whole) | AccStr (s : jsstring).
Inductive any := ANum (n : number) | AStr (s : jsstring).

Definition any_of_acc (v : acc) : any :=
  match v with AccNum w => ANum (Whole w) | AccStr s => AStr s end.

(** The Number with integer value [z]. *)
Definition num (z : Z) : any := ANum (Whole (Fin z)).

Definition whole_eqb (a b : whole) : bool :=
  match a, b with
  | Fin x, Fin y => x =? y
  | PosInf, PosInf => true
  | _, _ => false
  end.

(** Round-to-nearest, ties-to-even, of a non-negative integer to a double
    (53 significant bits, overflow to +Infinity at 2^1024). *)
Definition roundInt (z : Z) : whole :=
  if z <? 2 ^ 53 then Fin z
  else
    let sh := Z.log2 z - 52 in
    let q := Z.shiftr z sh in
    let r := z - Z.shiftl q sh in
    let half := Z.shiftl 1 (sh - 1) in
    let q' := if (half <? r) || ((r =? half) && Z.odd q) then q + 1 else q in
    let v := Z.shiftl q' sh in
    if 2 ^ 1024 <=? v then PosInf else Fin v.

(** Number multiplication and addition of a whole Number with a small
    non-negative integer constant. *)
Definition mul (v : whole) (k : Z) : whole :=
  match v with Fin z => roundInt (z * k) | PosInf => PosInf end.
Definition add (v : whole) (d : Z) : whole :=
  match v with Fin z => roundInt (z + d) | PosInf => PosInf end.

(** Nearest double to the positive rational [N / D]. *)
Definition roundRatio (N D : Z) : number :=
  let e0 := Z.log2 N - Z.log2 D in
  let ge := if 0 <=? e0 then D * 2 ^ e0 <=? N else D <=? N * 2 ^ (- e0) in
  let e1 := if ge then e0 else e0 - 1 in
  let sh := Z.max (e1 - 52) (-1074) in
  let n' := if 0 <=? sh then N else N * 2 ^ (- sh) in
  let d' := if 0 <=? sh then D * 2 ^ sh else D in
  let q := n' / d' in
  let r := n' mod d' in
  let q' := if (d' <? 2 * r) || ((2 * r =? d') && Z.odd q) then q + 1 else q in
  if q' =? 0 then Whole (Fin 0)
  else if 0 <=? sh then
    let v := q' * 2 ^ sh in
    Whole (if 2 ^ 1024 <=? v then PosInf else Fin v)
  else
    let k := Z.min (Z.log2 (Z.land q' (- q'))) (- sh) in
    if sh + k =? 0 then Whole (Fin (q' / 2 ^ k)) else Frac (q' / 2 ^ k) (sh + k).

(** The Number for the decimal value [m * 10^e]. *)
Definition decimalToNumber (m e : Z) : number :=
  if m =? 0 then Whole (Fin 0)
  else if 0 <=? e then Whole (roundInt (m * 10 ^ e))
  else if m mod 10 ^ (- e) =? 0 then Whole (roundInt (m / 10 ^ (- e)))
  else roundRatio m (10 ^ (- e)).

(** Decimal digits. *)
Definition isDigit (c : Z) : bool := (48 <=? c) && (c <=? 57).

Fixpoint digitsAux (fuel : nat) (z : Z) (tl : jsstring) : jsstring :=
  match fuel with
  | O => tl
  | S fuel =>
      if z <? 10 then (48 + z) :: tl
      else digitsAux fuel (z / 10) ((48 + z mod 10) :: tl)
  end.

Definition decimalDigits (z : Z) : jsstring :=
  digitsAux (S (Z.to_nat (Z.log2 z))) z [].

Definition digitsValue (ds : jsstring) : Z :=
  foldl (λ a c, 10 * a + (c - 48)) 0 ds.

Fixpoint takeDigits (s : jsstring) : jsstring * jsstring :=
  match s with
  | c :: r => if isDigit c then let '(ds, r') := takeDigits r in (c :: ds, r')
              else ([], s)
  | [] => ([], [])
  end.

(** [Number::toString] for whole Numbers.  Below 10^21 the decimal digits;
    from 10^21 on the shortest digit string that converts back to the same
    double, in exponent notation. *)
Definition shortestCandidate (z : Z) (k : nat) : option Z :=
  let p := 10 ^ (Z.of_nat (length (decimalDigits z)) - Z.of_nat k) in
  let lo := z / p * p in
  let hi := lo + p in
  match whole_eqb (roundInt lo) (Fin z), whole_eqb (roundInt hi) (Fin z) with
  | true, true =>
      Some (if z - lo <? hi - z then lo
            else if hi - z <? z - lo then hi
            else if Z.even (lo / p) then lo else hi)
  | true, false => Some lo
  | false, true => Some hi
  | false, false => None
  end.

Fixpoint shortest (fuel : nat) (z : Z) (k : nat) : Z :=
  match fuel with
  | O => z
  | S fuel =>
      match shortestCandidate z k with
      | Some v => v
      | None => shortest fuel z (S k)
      end
  end.

Fixpoint stripZeros (rev_ds : jsstring) : jsstring :=
  match rev_ds with
  | c :: r => if c =? 48 then stripZeros r else rev_ds
  | [] => []
  end.

Definition numberToString (w : whole) : jsstring :=
  match w with
  | PosInf => lit "Infinity"
  | Fin z =>
      if z <? 10 ^ 21 then decimalDigits z
      else
        let v := shortest (length (decimalDigits z)) z 1 in
        let e := decimalDigits (Z.of_nat (length (decimalDigits v)) - 1) in
        match reverse (stripZeros (reverse (decimalDigits v))) with
        | [] => []
        | [d] => d :: lit "e+" ++ e
        | d :: ds => d :: lit "." ++ ds ++ lit "e+" ++ e
        end
  end.

(** [ToString(value)] as done by [value + string] and by [parseInt]. *)
Definition toString (v : acc) : jsstring :=
  match v with AccNum w => numberToString w | AccStr s => s end.

(** [value += s] with a String right operand. *)
Definition addString (v : acc) (s : jsstring) : acc := AccStr (toString v ++ s).

(** Longest prefix of [s] that is an unsigned decimal literal
    (digits, optional fraction, optional exponent): its mantissa, its
    decimal exponent and the text left over. *)
Definition parseDecimalPrefix (s : jsstring) : option (Z * Z * jsstring) :=
  let '(ip, r1) := takeDigits s in
  let '(fp, r2) :=
    match r1 with
    | 46 :: r => takeDigits r
    | _ => ([], r1)
    end in
  match ip, fp with
  | [], [] => None
  | _, _ =>
      let m := digitsValue (ip ++ fp) in
      let noexp := Some (m, - Z.of_nat (length fp), r2) in
      match r2 with
      | c :: r =>
          if Z.lor c 32 =? 101 then
            let '(neg, r') :=
              match r with
              | 43 :: t => (false, t)
              | 45 :: t => (true, t)
              | _ => (false, r)
              end in
            match takeDigits r' with
            | ([], _) => noexp
            | (ex, r'') =>
                let x := digitsValue ex in
                Some (m, (if neg then - x else x) - Z.of_nat (length fp), r'')
            end
          else noexp
      | [] => noexp
      end
  end.

Definition infinityText : jsstring := lit "Infinity".

(** Unary [+] on a String that starts with a digit, a period or the text
    of a Number (white space, signs and radix prefixes do not occur in
    such text and are not covered). *)
Definition stringToNumber (s : jsstring) : number :=
  if decide (s = []) then Whole (Fin 0)
  else if decide (s = infinityText) then Whole PosInf
  else match parseDecimalPrefix s with
       | Some (m, e, []) => decimalToNumber m e
       | _ => NaN
       end.

(** [parseFloat] on such text: the longest numeric prefix counts. *)
Definition parseFloat (s : jsstring) : number :=
  if decide (take 8 s = infinityText) then Whole PosInf
  else match parseDecimalPrefix s with
       | Some (m, e, _) => decimalToNumber m e
       | None => NaN
       end.

(** [parseInt(text, 10)] on such text. *)
Definition parseInt (s : jsstring) : number :=
  match takeDigits s with
  | ([], _) => NaN
  | (ds, _) => Whole (roundInt (digitsValue ds))
  end.

(** Unary [+] on the scanner's [value]. *)
Definition toNumber (v : acc) : number :=
  match v with AccNum w => Whole w | AccStr s => stringToNumber s end.

(** ** Constants of the lexer *)

(** Modelled from the spec: the enumerations [Chars], [CharFlags],
    [NumberKind], [Context], [Flags], [Token] and [Errors] live in modules
    that are not among the sources ([../chars], [./], [../common],
    [../token], [../errors]).  [Chars] members are the code points their
    names say; the bit masks are distinct single bits; [DecimalNumberKind]
    collects the two decimal forms.  [ValidBigIntKind] is the mask of the
    package's enumeration, 62: the binary, [0o] octal, hex and decimal
    forms and also the decimal form with a leading zero, which section 4.2
    step 6 of the spec leaves out of the forms that may carry the BigInt
    suffix. *)
Module Chars.
Definition Zero := 48.
Definition Period := 46.
Definition UpperA := 65.
Definition Underscore := 95.
Definition LowerB := 98.
Definition LowerE := 101.
Definition LowerN := 110.
Definition LowerO := 111.
Definition LowerX := 120.
End Chars.

Module CharFlags.
Definition IdentifierStart := 1.
Definition Decimal := 16.
Definition Octal := 32.
Definition Hex := 64.
Definition Binary := 128.
Definition Exponent := 256.
Definition ImplicitOctalDigits := 512.
Definition Underscore := 4096.
End CharFlags.

Module NumberKind.
Definition ImplicitOctal := 1.
Definition Binary := 2.
Definition Octal := 4.
Definition Hex := 8.
Definition Decimal := 16.
Definition DecimalWithLeadingZero := 32.
Definition Float := 64.
Definition ValidBigIntKind :=
  Z.lor Binary (Z.lor Octal (Z.lor Hex (Z.lor Decimal DecimalWithLeadingZero))).
Definition DecimalNumberKind := Z.lor Decimal DecimalWithLeadingZero.
End NumberKind.

Module Context.
Definition None := 0.
Definition OptionsWebCompat := 256.
Definition OptionsRaw := 512.
Definition Strict := 1024.
End Context.

Module Flags.
Definition None := 0.
Definition Octals := 64.
End Flags.

Inductive Token := NumericLiteral | BigIntLiteral.

Inductive Errors :=
  | MissingHexDigits
  | TrailingNumericSeparator
  | ContinuousNumericSeparator
  | StrictOctalEscape
  | InvalidBigInt
  | MissingExponent
  | IDStartAfterNumber
  | Unexpected.

(** [x & mask] used as a condition. *)
Definition test (x mask : Z) : bool := negb (Z.land x mask =? 0).

(** Modelled from the spec: the table [CharTypes] (section 4.1: a code
    point's bitset of lexical categories, a digit being decimal and hex at
    once).  Only the categories that [scanNumber] reads are kept; the table
    covers the ASCII range and has no entry elsewhere. *)
Definition CharTypes (c : Z) : Z :=
  if (48 <=? c) && (c <=? 49) then
    Z.lor CharFlags.Decimal (Z.lor CharFlags.Binary (Z.lor CharFlags.Octal CharFlags.Hex))
  else if (50 <=? c) && (c <=? 55) then
    Z.lor CharFlags.Decimal (Z.lor CharFlags.Octal CharFlags.Hex)
  else if (56 <=? c) && (c <=? 57) then
    Z.lor CharFlags.Decimal (Z.lor CharFlags.ImplicitOctalDigits CharFlags.Hex)
  else if ((65 <=? c) && (c <=? 70)) || ((97 <=? c) && (c <=? 102)) then
    Z.lor CharFlags.IdentifierStart CharFlags.Hex
  else if ((71 <=? c) && (c <=? 90)) || ((103 <=? c) && (c <=? 122)) || (c =? 36) then
    CharFlags.IdentifierStart
  else if c =? 95 then Z.lor CharFlags.IdentifierStart CharFlags.Underscore
  else if (c =? 43) || (c =? 45) then CharFlags.Exponent
  else 0.

(** [CharTypes[char] & mask] as a condition; the lookup is [undefined]
    for NaN, and [undefined & mask] is 0.  Gives the code point back when
    the condition holds. *)
Definition classify (char : option Z) (mask : Z) : option Z :=
  match char with
  | Some c => if test (CharTypes c) mask then Some c else None
  | None => None
  end.

(** [char | 32]: NaN converts to 0. *)
Definition lower (char : option Z) : Z :=
  match char with Some c => Z.lor c 32 | None => 32 end.

(** Modelled from the spec: [toHex] is imported from [./]; the value of a
    hexadecimal digit. *)
Definition toHex (code : Z) : Z :=
  if code <? Chars.UpperA then code - Chars.Zero
  else Z.land (code - Chars.UpperA + 10) 15.

(** ** Parser state *)

Record ParserState := mkParser {
  source : jsstring;
  index : nat;
  end_ : nat;
  column : nat;
  nextCP_ : option Z;      (* the field [parser.nextCP] *)
  tokenIndex : nat;
  tokenValue : any;
  tokenRaw : jsstring;
  flags : Z;
}.

Definition set_cursor (parser : ParserState) (i col : nat) (c : option Z) :=
  mkParser (source parser) i (end_ parser) col c (tokenIndex parser)
           (tokenValue parser) (tokenRaw parser) (flags parser).
Definition set_tokenValue (parser : ParserState) (v : any) :=
  mkParser (source parser) (index parser) (end_ parser) (column parser)
           (nextCP_ parser) (tokenIndex parser) v (tokenRaw parser) (flags parser).
Definition set_tokenRaw (parser : ParserState) (r : jsstring) :=
  mkParser (source parser) (index parser) (end_ parser) (column parser)
           (nextCP_ parser) (tokenIndex parser) (tokenValue parser) r (flags parser).
Definition set_flags (parser : ParserState) (f : Z) :=
  mkParser (source parser) (index parser) (end_ parser) (column parser)
           (nextCP_ parser) (tokenIndex parser) (tokenValue parser)
           (tokenRaw parser) f.

(** Modelled from the spec: [nextCP] is imported from [./]; it advances
    the cursor by one code unit and loads the code point found there. *)
Definition nextCP (parser : ParserState) : ParserState * option Z :=
  let i := S (index parser) in
  let c := charCodeAt (source parser) i in
  (set_cursor parser i (S (column parser)) c, c).

(** ** Outcomes

    [report] throws; a scan either returns or throws one error.  The loops
    are written with a step budget, [OutOfFuel] tells that it ran out. *)
Inductive outcome (A : Type) :=
  | Return (a : A)
  | Throw (e : Errors)
  | OutOfFuel.
Arguments Return {A} a.
Arguments Throw {A} e.
Arguments OutOfFuel {A}.

Global Instance outcome_bind : MBind outcome := λ A B f m,
  match m with
  | Return a => f a
  | Throw e => Throw e
  | OutOfFuel => OutOfFuel
  end.
Global Instance outcome_ret : MRet outcome := λ A a, Return a.

(** ** The scanner *)

Section Scanner.

(** The Unicode ID_Start lookup behind [isIdentifierStart] for code points
    above 0x7F is a generated table that is not among the sources. *)
Variable unicodeIDStart : Z → bool.

(** Modelled from the spec: [isIdentifierStart] is imported from [./];
    ASCII code points are classified by [CharTypes], the others by the
    Unicode table; NaN (end of input) starts no identifier. *)
Definition isIdentifierStart (char : option Z) : bool :=
  match char with
  | Some c =>
      if c <=? 127 then test (CharTypes c) CharFlags.IdentifierStart
      else unicodeIDStart c
  | None => false
  end.

(** Lines 214-235. *)
Fixpoint scanDigitsLoop (fuel : nat) (parser : ParserState) (char : option Z)
    (allowSeparator : bool) (start : nat) (ret : jsstring)
  : outcome (ParserState * bool * nat * jsstring) :=
  match classify char (Z.lor CharFlags.Decimal CharFlags.Underscore) with
  | None => Return (parser, allowSeparator, start, ret)
  | Some c =>
      match fuel with
      | O => OutOfFuel
      | S fuel =>
          if c =? Chars.Underscore then
            let index0 := index parser in
            let '(parser, char) := nextCP parser in
            if decide (char = Some Chars.Underscore)
            then Throw ContinuousNumericSeparator
            else
              let ret := ret ++ substring (source parser) start index0 in
              let start := index parser in
              scanDigitsLoop fuel parser char true start ret
          else
            let '(parser, char) := nextCP parser in
            scanDigitsLoop fuel parser char false start ret
      end
  end.

Definition scanDecimalDigitsOrSeparator (fuel : nat) (parser : ParserState)
    (char : option Z) : outcome (ParserState * jsstring) :=
  '(parser, allowSeparator, start, ret) ←
    scanDigitsLoop fuel parser char false (index parser) [];
  if allowSeparator : bool then Throw TrailingNumericSeparator
  else Return (parser, ret ++ substring (source parser) start (index parser)).

(** Lines 38-49, 58-71 and 78-91: the digit loops of the three radix
    prefixes, which differ in the digit class [flag], the [radix] and the
    digit value [toDigit] only. *)
Fixpoint scanRadixDigits (fuel : nat) (flag radix : Z) (toDigit : Z → Z)
    (parser : ParserState) (char : option Z) (value : whole) (digits : nat)
    (allowSeparator : bool)
  : outcome (ParserState * option Z * whole * nat * bool) :=
  match classify char (Z.lor flag CharFlags.Underscore) with
  | None => Return (parser, char, value, digits, allowSeparator)
  | Some c =>
      match fuel with
      | O => OutOfFuel
      | S fuel =>
          if c =? Chars.Underscore then
            if negb allowSeparator then Throw ContinuousNumericSeparator
            else
              let '(parser, char) := nextCP parser in
              scanRadixDigits fuel flag radix toDigit parser char value digits false
          else
            let value := add (mul value radix) (toDigit c) in
            let '(parser, char) := nextCP parser in
            scanRadixDigits fuel flag radix toDigit parser char value (S digits) true
      end
  end.

(** Lines 36-53, 56-74 and 76-94 without the assignment to [kind]. *)
Definition scanRadix (fuel : nat) (flag radix : Z) (toDigit : Z → Z)
    (parser : ParserState) (value : whole) (digits : nat) (allowSeparator : bool)
  : outcome (ParserState * option Z * whole * bool) :=
  let '(parser, char) := nextCP parser in
  '(parser, char, value, digits, allowSeparator) ←
    scanRadixDigits fuel flag radix toDigit parser char value digits allowSeparator;
  if (digits <? 1)%nat || negb allowSeparator
  then Throw (if (digits <? 1)%nat then MissingHexDigits
              else TrailingNumericSeparator)
  else Return (parser, char, value, allowSeparator).

(** Lines 99-107; gives back [kind] and [atStart] as the loop leaves them. *)
Fixpoint scanImplicitOctal (fuel : nat) (parser : ParserState) (char : option Z)
    (value : whole) (kind : Z) (atStart : bool)
  : outcome (ParserState * option Z * whole * Z * bool) :=
  match classify char CharFlags.Decimal with
  | None => Return (parser, char, value, kind, atStart)
  | Some c =>
      match fuel with
      | O => OutOfFuel
      | S fuel =>
          if test (CharTypes c) CharFlags.ImplicitOctalDigits
          then Return (parser, char, value, NumberKind.DecimalWithLeadingZero, false)
          else
            let value := add (mul value 8) (c - Chars.Zero) in
            let '(parser, char) := nextCP parser in
            scanImplicitOctal fuel parser char value kind atStart
      end
  end.

(** Lines 32-114: what follows a leading [0]. *)
Definition scanLeadingZero (fuel : nat) (parser : ParserState) (context kind : Z)
    (value : whole) (atStart : bool) (allowSeparator : bool)
  : outcome (ParserState * option Z * whole * Z * bool * bool) :=
  let '(parser, char) := nextCP parser in
  if lower char =? Chars.LowerX then
    '(parser, char, value, allowSeparator) ←
      scanRadix fuel CharFlags.Hex 16 toHex parser value 0%nat allowSeparator;
    Return (parser, char, value, NumberKind.Hex, atStart, allowSeparator)
  else if lower char =? Chars.LowerO then
    '(parser, char, value, allowSeparator) ←
      scanRadix fuel CharFlags.Octal 8 (λ c, c - Chars.Zero) parser value 0%nat
        allowSeparator;
    Return (parser, char, value, NumberKind.Octal, atStart, allowSeparator)
  else if lower char =? Chars.LowerB then
    '(parser, char, value, allowSeparator) ←
      scanRadix fuel CharFlags.Binary 2 (λ c, c - Chars.Zero) parser value 0%nat
        allowSeparator;
    Return (parser, char, value, NumberKind.Binary, atStart, allowSeparator)
  else if classify char CharFlags.Octal is Some _ then
    if test context Context.Strict then Throw StrictOctalEscape
    else
      '(parser, char, value, kind, atStart) ←
        scanImplicitOctal fuel parser char value NumberKind.ImplicitOctal atStart;
      Return (parser, char, value, kind, atStart, allowSeparator)
  else if classify char CharFlags.ImplicitOctalDigits is Some _ then
    if test context Context.Strict then Throw StrictOctalEscape
    else Return (set_flags parser Flags.Octals, char, value,
                 NumberKind.DecimalWithLeadingZero, atStart, allowSeparator)
  else if decide (char = Some Chars.Underscore) then Throw Unexpected
  else Return (parser, char, value, kind, atStart, allowSeparator).

(** Lines 120-131. *)
Fixpoint scanFastDigits (fuel : nat) (parser : ParserState) (char : option Z)
    (value : whole) (digit : Z) (allowSeparator : bool)
  : outcome (ParserState * option Z * whole * Z * bool) :=
  match (if 0 <=? digit
         then classify char (Z.lor CharFlags.Decimal CharFlags.Underscore)
         else None) with
  | None => Return (parser, char, value, digit, allowSeparator)
  | Some c =>
      match fuel with
      | O => OutOfFuel
      | S fuel =>
          if c =? Chars.Underscore then
            let '(parser, char) := nextCP parser in
            if decide (char = Some Chars.Underscore)
            then Throw ContinuousNumericSeparator
            else scanFastDigits fuel parser char value digit true
          else
            let value := add (mul value 10) (c - Chars.Zero) in
            let '(parser, char) := nextCP parser in
            scanFastDigits fuel parser char value (digit - 1) false
      end
  end.

(** Lines 119-142: the fast path.  [inl] is its [return] at line 140,
    [inr] falls through to line 144. *)
Definition scanFastPath (fuel : nat) (parser : ParserState) (context : Z)
    (char : option Z) (value : whole) (allowSeparator : bool)
  : outcome (ParserState * Token + ParserState * option Z * whole) :=
  '(parser, char, value, digit, allowSeparator) ←
    scanFastDigits fuel parser char value 9 allowSeparator;
  if allowSeparator : bool then Throw TrailingNumericSeparator
  else if (0 <=? digit) && negb (isIdentifierStart char)
          && negb (bool_decide (char = Some Chars.Period)) then
    let parser := set_tokenValue parser (ANum (Whole value)) in
    let parser :=
      if test context Context.OptionsRaw
      then set_tokenRaw parser
             (slice (source parser) (tokenIndex parser) (index parser))
      else parser in
    Return (inl (parser, NumericLiteral))
  else Return (inr (parser, char, value)).

(** Lines 144-154: the digits, then an optional fraction. *)
Definition scanDecimalTail (fuel : nat) (parser : ParserState) (kind : Z)
    (char : option Z) (value : whole)
  : outcome (ParserState * option Z * acc * Z) :=
  '(parser, s) ← scanDecimalDigitsOrSeparator fuel parser char;
  let value := addString (AccNum value) s in
  let char := nextCP_ parser in
  if decide (char = Some Chars.Period) then
    let '(parser, char) := nextCP parser in
    if decide (char = Some Chars.Underscore) then Throw Unexpected
    else
      '(parser, s) ← scanDecimalDigitsOrSeparator fuel parser (nextCP_ parser);
      Return (parser, nextCP_ parser, addString value (lit "." ++ s), NumberKind.Float)
  else Return (parser, char, value, kind).

(** Lines 157-182: the BigInt suffix or the exponent. *)
Definition scanSuffix (fuel : nat) (parser : ParserState) (kind : Z)
    (char : option Z) (value : acc)
  : outcome (ParserState * option Z * acc * bool) :=
  let end' := index parser in
  if bool_decide (char = Some Chars.LowerN) && test kind NumberKind.ValidBigIntKind
  then
    let '(parser, char) := nextCP parser in
    Return (parser, char, value, true)
  else if lower char =? Chars.LowerE then
    let '(parser, char) := nextCP parser in
    let '(parser, char) :=
      if classify char CharFlags.Exponent is Some _ then nextCP parser
      else (parser, char) in
    let index0 := index parser in
    if classify char CharFlags.Decimal is Some _ then
      '(parser, s) ← scanDecimalDigitsOrSeparator fuel parser char;
      Return (parser, nextCP_ parser,
              addString value (substring (source parser) end' index0 ++ s), false)
    else Throw MissingExponent
  else Return (parser, char, value, false).

(** Lines 184-205. *)
Definition finishNumber (parser : ParserState) (context kind : Z)
    (char : option Z) (value : acc) (isBigInt : bool)
  : outcome (ParserState * Token) :=
  if ((index parser <? end_ parser)%nat
      && (if classify char CharFlags.Decimal is Some _ then true else false))
     || isIdentifierStart char
  then Throw IDStartAfterNumber
  else if isBigInt then
    let parser :=
      set_tokenRaw parser
        (slice (source parser) (tokenIndex parser) (index parser)) in
    let parser := set_tokenValue parser (ANum (parseInt (toString value))) in
    Return (parser, BigIntLiteral)
  else
    let parser :=
      set_tokenValue parser
        (if test kind (Z.lor NumberKind.ImplicitOctal
                         (Z.lor NumberKind.Binary
                            (Z.lor NumberKind.Hex NumberKind.Octal)))
         then any_of_acc value
         else if test kind NumberKind.DecimalWithLeadingZero
         then ANum (parseFloat
                      (substring (source parser) (tokenIndex parser)
                         (index parser)))
         else ANum (toNumber value)) in
    let parser :=
      if test context Context.OptionsRaw
      then set_tokenRaw parser
             (slice (source parser) (tokenIndex parser) (index parser))
      else parser in
    Return (parser, NumericLiteral).

(** Lines 118-155: the decimal digits and the fraction, through the fast
    path when [atStart] is set.  [inl] is the [return] of line 140. *)
Definition scanDecimalPart (fuel : nat) (parser : ParserState)
    (context kind : Z) (char : option Z) (value : whole)
    (atStart allowSeparator : bool)
  : outcome (ParserState * Token + ParserState * option Z * acc * Z) :=
  if test kind NumberKind.DecimalNumberKind then
    r ← (if atStart
         then scanFastPath fuel parser context char value allowSeparator
         else Return (inr (parser, char, value)));
    match r with
    | inl done => Return (inl done)
    | inr (parser, char, value) =>
        r ← scanDecimalTail fuel parser kind char value;
        Return (inr r)
    end
  else Return (inr (parser, char, AccNum value, kind)).

(** Lines 157-205, entered with the locals as line 157 finds them. *)
Definition scanSuffixAndFinish (fuel : nat) (parser : ParserState)
    (context kind : Z) (char : option Z) (value : acc)
  : outcome (ParserState * Token) :=
  '(parser, char, value, isBigInt) ← scanSuffix fuel parser kind char value;
  finishNumber parser context kind char value isBigInt.

(** Lines 118-205, entered with the locals as line 118 finds them. *)
Definition scanFromDecimal (fuel : nat) (parser : ParserState)
    (context kind : Z) (char : option Z) (value : whole)
    (atStart allowSeparator : bool) : outcome (ParserState * Token) :=
  r ← scanDecimalPart fuel parser context kind char value atStart allowSeparator;
  match r with
  | inl done => Return done
  | inr (parser, char, value, kind) =>
      scanSuffixAndFinish fuel parser context kind char value
  end.

(** Lines 18-156: the numeral up to the BigInt suffix or exponent. *)
Definition scanMantissa (fuel : nat) (parser : ParserState) (context kind : Z)
  : outcome (ParserState * Token + ParserState * option Z * acc * Z) :=
  let char := nextCP_ parser in
  let value := Fin 0 in
  let atStart := test kind NumberKind.Float in
  let allowSeparator := false in
  if test kind NumberKind.Float then
    '(parser, s) ← scanDecimalDigitsOrSeparator fuel parser char;
    let value := AccStr (lit "." ++ s) in
    let char := nextCP_ parser in
    if decide (char = Some Chars.LowerN) then Throw InvalidBigInt
    else Return (inr (parser, char, value, kind))
  else
    '(parser, char, value, kind, atStart, allowSeparator) ←
      (if decide (char = Some Chars.Zero)
       then scanLeadingZero fuel parser context kind value atStart allowSeparator
       else Return (parser, char, value, kind, atStart, allowSeparator));
    scanDecimalPart fuel parser context kind char value atStart allowSeparator.

(** Lines 14-206 with the step budget [fuel] given to every loop. *)
Definition scanNumberFuel (fuel : nat) (parser : ParserState)
    (context kind : Z) : outcome (ParserState * Token) :=
  r ← scanMantissa fuel parser context kind;
  match r with
  | inl done => Return done
  | inr (parser, char, value, kind) =>
      scanSuffixAndFinish fuel parser context kind char value
  end.

(** [scanNumber]: every loop consumes one code unit per step, so the
    length of the source (plus two) bounds the steps of each. *)
Definition scanNumber (parser : ParserState) (context kind : Z)
  : outcome (ParserState * Token) :=
  scanNumberFuel (length (source parser) + 2) parser context kind.

End Scanner.

(** ** Vocabulary of the properties *)

(** The digit classes of the character table, as ranges of code points. *)
Definition isHexDigit (c : Z) : bool :=
  isDigit c || ((65 <=? c) && (c <=? 70)) || ((97 <=? c) && (c <=? 102)).
Definition isOctalDigit (c : Z) : bool := (48 <=? c) && (c <=? 55).
Definition isBinaryDigit (c : Z) : bool := (48 <=? c) && (c <=? 49).
Definition is89 (c : Z) : bool := (56 <=? c) && (c <=? 57).

(** [hasFlag flag char]: the code point [char] is in the class [flag]. *)
Definition hasFlag (flag : Z) (char : option Z) : Prop :=
  ∃ c, char = Some c ∧ test (CharTypes c) flag = true.

(** What the loops of a scan leave untouched: they move the cursor forward
    and change nothing else of the token under construction. *)
Record sameToken (p p' : ParserState) : Prop := {
  st_source : source p' = source p;
  st_end : end_ p' = end_ p;
  st_tokenIndex : tokenIndex p' = tokenIndex p;
  st_tokenValue : tokenValue p' = tokenValue p;
  st_tokenRaw : tokenRaw p' = tokenRaw p;
  st_index : (index p ≤ index p')%nat;
}.

(** The local [char] is the code unit under the cursor. *)
Definition at_ (p : ParserState) (char : option Z) : Prop :=
  nextCP_ p = char ∧ char = source p !! index p.

(** Every [_] between [lo] and [hi] comes after the start [s] and stands
    between two code points of class [flag]. *)
Definition sepsOK (flag : Z) (src : jsstring) (s lo hi : nat) : Prop :=
  ∀ i, (lo ≤ i < hi)%nat → src !! i = Some 95 →
    (s < i)%nat ∧ hasFlag flag (src !! (i - 1)%nat) ∧ hasFlag flag (src !! (i + 1)%nat).

(** The class of the digits next to a separator: hexadecimal digits in a
    [0x] literal, decimal digits otherwise. *)
Definition sepFlag (p : ParserState) : Z :=
  if lower (source p !! S (index p)) =? Chars.LowerX
  then CharFlags.Hex else CharFlags.Decimal.

(** A step budget that covers the rest of the source. *)
Definition fuelOK (fuel : nat) (p : ParserState) : Prop :=
  (length (source p) - index p < fuel)%nat.

(** A parser state on the source [s] with the token starting at
    [tokenStart] and the cursor at [i]; [startOf s] is the state at the
    start of [s]. *)
Definition parserAt (s : string) (tokenStart i : nat) : ParserState :=
  mkParser (lit s) i (length (lit s)) i (charCodeAt (lit s) i) tokenStart
           (AStr []) [] Flags.None.
Definition startOf (s : string) : ParserState := parserAt s 0 0.

(** The context with the given [Strict] and [OptionsRaw] bits. *)
Definition contextOf (strict raw : bool) : Z :=
  Z.lor (if strict then Context.Strict else 0) (if raw then Context.OptionsRaw else 0).

(** The ID_Start table with no entry: the instance used for sources that
    are ASCII throughout, where the table is never consulted with effect. *)
Definition asciiOnly : Z → bool := λ _, false.

(** The mathematical value of a digit sequence: the value of one digit,
    the digits of a radix, the radix a prefix letter stands for, and the
    value of a body in which every [_] is skipped.  [validBody isDig false
    body] says that [body] consists of digits and of [_], each [_] standing
    between two digits. *)
Definition digitValue (c : Z) : Z :=
  if isDigit c then c - 48
  else if (65 <=? c) && (c <=? 70) then c - 55
  else c - 87.

Definition isDigitOf (radix : Z) (c : Z) : bool :=
  if radix =? 16 then isHexDigit c
  else if radix =? 8 then isOctalDigit c
  else isBinaryDigit c.

Definition radixOfPrefix (x : Z) : option Z :=
  if Z.lor x 32 =? 120 then Some 16
  else if Z.lor x 32 =? 111 then Some 8
  else if Z.lor x 32 =? 98 then Some 2
  else None.

Fixpoint validBody (isDig : Z → bool) (allow : bool) (body : jsstring) : bool :=
  match body with
  | [] => allow
  | c :: r =>
      if c =? 95 then allow && validBody isDig false r
      else isDig c && validBody isDig true r
  end.

Definition mathStep (radix : Z) (a c : Z) : Z :=
  if c =? 95 then a else a * radix + digitValue c.
Definition mathValue (radix : Z) (body : jsstring) : Z :=
  foldl (mathStep radix) 0 body.

(** The value of a sequence of octal digits read in base 8. *)
Definition octalValue (ds : jsstring) : Z := foldl (λ a c, a * 8 + (c - 48)) 0 ds.

(** What may follow a numeral: the end of the input ([rest] empty) or a
    code point that is neither an identifier start nor a decimal digit. *)
Definition endsNumeral (unicodeIDStart : Z → bool) (rest : jsstring) : Prop :=
  isIdentifierStart unicodeIDStart (rest !! 0%nat) = false ∧
  classify (rest !! 0%nat) CharFlags.Decimal = None.

(** ** The general path *)

Section GeneralPath.
Variable unicodeIDStart : Z → bool.



End GeneralPath.

(** ** Statements: the placement of function declarations *)

(** Modelled from the spec: the tokenizer for other lexemes and the grammar
    engine (sections 4.3 and 4.4) are not among the sources; the test file
    test/parser/declarations/functions.ts only calls [parseSource].  What
    follows is the fragment of the grammar that the placement rule of
    section 4.4 speaks about: [if] statements, labelled statements, blocks,
    function declarations and expressions with empty parameter lists, calls
    without arguments, identifiers and the literals [true] and [false]. *)
Inductive Lexeme :=
  | IfKeyword
  | ElseKeyword
  | FunctionKeyword
  | TrueKeyword
  | FalseKeyword
  | IdentifierName (name : jsstring)
  | LeftParen
  | RightParen
  | LeftBrace
  | RightBrace
  | Semicolon
  | Colon.

Global Instance Lexeme_eq_dec : EqDecision Lexeme.
Proof. solve_decision. Defined.

(** Modelled from the spec: a parse fails with exactly one error (section
    4.4); the kinds that this fragment can report. *)
Inductive ParseErrors :=
  | UnexpectedToken
  | UnexpectedEnd
  | IllegalCharacter
  | FunctionDeclarationPlacement.

(** Modelled from the spec: a parse either succeeds with a complete tree or
    fails; [Unfinished] tells that the step budget ran out. *)
Inductive parse (A : Type) :=
  | Parsed (a : A)
  | Failed (e : ParseErrors)
  | Unfinished.
Arguments Parsed {A} a.
Arguments Failed {A} e.
Arguments Unfinished {A}.

(** Modelled from the spec: the lexemes of the fragment; letters, digits,
    [$] and [_] make identifier names and keywords. *)
Definition isIdentifierPart (c : Z) : bool :=
  ((97 <=? c) && (c <=? 122)) || ((65 <=? c) && (c <=? 90)) || (c =? 36) || (c =? 95)
  || isDigit c.

Definition isWhiteSpace (c : Z) : bool := (c =? 32) || (c =? 9) || (c =? 10) || (c =? 13).

Definition keywordOrName (w : jsstring) : Lexeme :=
  if decide (w = lit "if") then IfKeyword
  else if decide (w = lit "else") then ElseKeyword
  else if decide (w = lit "function") then FunctionKeyword
  else if decide (w = lit "true") then TrueKeyword
  else if decide (w = lit "false") then FalseKeyword
  else IdentifierName w.

Definition punctuator (c : Z) : option Lexeme :=
  if c =? 40 then Some LeftParen
  else if c =? 41 then Some RightParen
  else if c =? 123 then Some LeftBrace
  else if c =? 125 then Some RightBrace
  else if c =? 59 then Some Semicolon
  else if c =? 58 then Some Colon
  else None.

(** Modelled from the spec: the tokenizer of the fragment; [word] is the
    identifier name being read, if any. *)
Fixpoint tokenize (word : jsstring) (s : jsstring) : parse (list Lexeme) :=
  let flush := if decide (word = []) then [] else [keywordOrName word] in
  match s with
  | [] => Parsed flush
  | c :: s =>
      if isIdentifierPart c then tokenize (word ++ [c]) s
      else
        match (if isWhiteSpace c then Some []
               else (λ t, [t]) <$> punctuator c) with
        | None => Failed IllegalCharacter
        | Some here =>
            match tokenize [] s with
            | Parsed rest => Parsed (flush ++ here ++ rest)
            | other => other
            end
        end
  end.

(** Modelled from the spec: the nodes of the tree (section 6, output
    contract), named as in the community AST schema. *)
#[warnings="-register-all"]
Inductive Expression :=
  | Literal (value : bool)
  | Identifier (name : jsstring)
  | FunctionExpression (id : option jsstring) (body : list Statement)
  | CallExpression (callee : Expression)
with Statement :=
  | IfStatement (test : Expression) (consequent : Statement)
      (alternate : option Statement)
  | LabeledStatement (label : jsstring) (body : Statement)
  | FunctionDeclaration (id : jsstring) (body : list Statement)
  | BlockStatement (body : list Statement)
  | EmptyStatement
  | ExpressionStatement (expression : Expression).

Record Program := mkProgram { programBody : list Statement }.

Global Instance parse_bind : MBind parse := λ A B f m,
  match m with
  | Parsed a => f a
  | Failed e => Failed e
  | Unfinished => Unfinished
  end.

Definition expect (t : Lexeme) (ts : list Lexeme) : parse (list Lexeme) :=
  match ts with
  | [] => Failed UnexpectedEnd
  | t' :: ts => if decide (t = t') then Parsed ts else Failed UnexpectedToken
  end.

(** Modelled from the spec: where a statement stands, in a statement list
    or as the single statement that is the body of an [if] or the target of
    a label. *)
Inductive Placement := InStatementList | SingleStatement.

(** Modelled from the spec: section 4.4, function declaration placement;
    in a single-statement position a function declaration is an error,
    unless the web compatibility option is on and the code is not strict. *)
Definition functionDeclarationAllowed (context : Z) (where_ : Placement) : bool :=
  match where_ with
  | InStatementList => true
  | SingleStatement =>
      test context Context.OptionsWebCompat && negb (test context Context.Strict)
  end.

(** Modelled from the spec: calls without arguments after a primary
    expression. *)
Fixpoint parseCalls (fuel : nat) (callee : Expression) (ts : list Lexeme)
    : parse (Expression * list Lexeme) :=
  match fuel with
  | O => Unfinished
  | S fuel =>
      match ts with
      | LeftParen :: RightParen :: ts => parseCalls fuel (CallExpression callee) ts
      | _ => Parsed (callee, ts)
      end
  end.

(** Modelled from the spec: the grammar procedures of the fragment, one per
    production, with the context passed down to every nested statement. *)
Fixpoint parseStatement (fuel : nat) (context : Z) (where_ : Placement)
    (ts : list Lexeme) : parse (Statement * list Lexeme) :=
  match fuel with
  | O => Unfinished
  | S fuel =>
      match ts with
      | [] => Failed UnexpectedEnd
      | IfKeyword :: ts =>
          ts ← expect LeftParen ts;
          '(condition, ts) ← parseExpression fuel context ts;
          ts ← expect RightParen ts;
          '(consequent, ts) ← parseStatement fuel context SingleStatement ts;
          match ts with
          | ElseKeyword :: ts =>
              '(alternate, ts) ← parseStatement fuel context SingleStatement ts;
              Parsed (IfStatement condition consequent (Some alternate), ts)
          | _ => Parsed (IfStatement condition consequent None, ts)
          end
      | FunctionKeyword :: IdentifierName id :: ts =>
          if functionDeclarationAllowed context where_ then
            ts ← expect LeftParen ts;
            ts ← expect RightParen ts;
            ts ← expect LeftBrace ts;
            '(body, ts) ← parseStatementList fuel context ts;
            ts ← expect RightBrace ts;
            Parsed (FunctionDeclaration id body, ts)
          else Failed FunctionDeclarationPlacement
      | IdentifierName label :: Colon :: ts =>
          '(body, ts) ← parseStatement fuel context SingleStatement ts;
          Parsed (LabeledStatement label body, ts)
      | LeftBrace :: ts =>
          '(body, ts) ← parseStatementList fuel context ts;
          ts ← expect RightBrace ts;
          Parsed (BlockStatement body, ts)
      | Semicolon :: ts => Parsed (EmptyStatement, ts)
      | _ =>
          '(expression, ts) ← parseExpression fuel context ts;
          match ts with
          | Semicolon :: ts => Parsed (ExpressionStatement expression, ts)
          | _ => Parsed (ExpressionStatement expression, ts)
          end
      end
  end
with parseStatementList (fuel : nat) (context : Z) (ts : list Lexeme)
    : parse (list Statement * list Lexeme) :=
  match fuel with
  | O => Unfinished
  | S fuel =>
      match ts with
      | [] | RightBrace :: _ => Parsed ([], ts)
      | _ =>
          '(statement, ts) ← parseStatement fuel context InStatementList ts;
          '(rest, ts) ← parseStatementList fuel context ts;
          Parsed (statement :: rest, ts)
      end
  end
with parseExpression (fuel : nat) (context : Z) (ts : list Lexeme)
    : parse (Expression * list Lexeme) :=
  match fuel with
  | O => Unfinished
  | S fuel =>
      '(primary, ts) ←
        match ts with
        | TrueKeyword :: ts => Parsed (Literal true, ts)
        | FalseKeyword :: ts => Parsed (Literal false, ts)
        | IdentifierName name :: ts => Parsed (Identifier name, ts)
        | LeftParen :: ts =>
            '(inner, ts) ← parseExpression fuel context ts;
            ts ← expect RightParen ts;
            Parsed (inner, ts)
        | FunctionKeyword :: ts =>
            let '(id, ts) :=
              match ts with
              | IdentifierName id :: ts => (Some id, ts)
              | _ => (None, ts)
              end in
            ts ← expect LeftParen ts;
            ts ← expect RightParen ts;
            ts ← expect LeftBrace ts;
            '(body, ts) ← parseStatementList fuel context ts;
            ts ← expect RightBrace ts;
            Parsed (FunctionExpression id body, ts)
        | [] => Failed UnexpectedEnd
        | _ => Failed UnexpectedToken
        end;
      parseCalls fuel primary ts
  end.

(** Modelled from the spec: [parseSource(source, options, context)], a
    script parsed to the end of the source. *)
Definition parseSource (source : string) (context : Z) : parse Program :=
  ts ← tokenize [] (lit source);
  '(body, ts) ← parseStatementList (2 * length ts + 2) context ts;
  match ts with
  | [] => Parsed (mkProgram body)
  | _ => Failed UnexpectedToken
  end.

(** Does a tree contain a FunctionDeclaration node? *)
Fixpoint expressionDeclares (e : Expression) : bool :=
  match e with
  | Literal _ | Identifier _ => false
  | FunctionExpression _ body => existsb statementDeclares body
  | CallExpression callee => expressionDeclares callee
  end
with statementDeclares (s : Statement) : bool :=
  match s with
  | IfStatement test consequent alternate =>
      expressionDeclares test || statementDeclares consequent
      || (if alternate is Some a then statementDeclares a else false)
  | LabeledStatement _ body => statementDeclares body
  | FunctionDeclaration _ _ => true
  | BlockStatement body => existsb statementDeclares body
  | EmptyStatement => false
  | ExpressionStatement e => expressionDeclares e
  end.

(** ** Vocabulary of the further properties *)

(** The text [s] with every [_] taken out. *)
Definition withoutSeparators (s : jsstring) : jsstring :=
  List.filter (λ c, negb (c =? 95)) s.

(** A decimal digit or [_]. *)
Definition isDigitOrSeparator (c : Z) : bool := isDigit c || (c =? 95).

(** Two [_] in a row somewhere in [s]. *)
Fixpoint doubled (s : jsstring) : bool :=
  match s with
  | a :: r => (if r is b :: _ then (a =? 95) && (b =? 95) else false) || doubled r
  | [] => false
  end.

(** The last code unit of [s] is a [_]. *)
Fixpoint trailing (s : jsstring) : bool :=
  match s with
  | c :: r => if r is [] then c =? 95 else trailing r
  | [] => false
  end.

(** The parser state after [n] calls of [nextCP]. *)
Definition advance (p : ParserState) (n : nat) : ParserState :=
  Nat.iter n (λ q, (nextCP q).1) p.

(** What may follow a lone [0] for it to be the whole integer part:
    neither a radix prefix letter, nor a decimal digit, nor a [_]. *)
Definition afterZero (char : option Z) : Prop :=
  (lower char =? Chars.LowerX) = false ∧ (lower char =? Chars.LowerO) = false ∧
  (lower char =? Chars.LowerB) = false ∧
  classify char (Z.lor CharFlags.Decimal CharFlags.Underscore) = None.

(** The integer part of a decimal literal, [next] being the code unit
    after it: digits with single [_] between them, not starting with [0]
    unless it is [0] alone. *)
Definition integerPart (body : jsstring) (next : option Z) : Prop :=
  validBody isDigit false body = true ∧
  (body !! 0%nat ≠ Some 48 ∨ body = [48] ∧ afterZero next).

(** The fraction digits of a decimal literal: none, or digits with single
    [_] between them. *)
Definition fractionPart (frac : jsstring) : Prop :=
  frac = [] ∨ validBody isDigit false frac = true.

(** The sign of an exponent: nothing, [+] or [-]. *)
Definition isSign (sign : jsstring) : Prop := sign = [] ∨ sign = [43] ∨ sign = [45].

(** The exponent that the sign [sign] and the digits [ex] stand for. *)
Definition exponentValue (sign ex : jsstring) : Z :=
  if decide (sign = [45]) then - digitsValue ex else digitsValue ex.

(** The code unit [char] ends the digits of a literal in [radix]: it is
    neither a digit of the radix nor a [_]. *)
Definition radixStop (radix : Z) (char : option Z) : Prop :=
  ∀ c, char = Some c → isDigitOf radix c = false ∧ c ≠ 95.

(** The literal under the cursor starts with [0] followed by [8] or [9],
    and the scan is not that of a fraction: the case of line 108. *)
Definition zeroThenNonOctal (p : ParserState) (kind : Z) : bool :=
  negb (test kind NumberKind.Float) && bool_decide (nextCP_ p = Some Chars.Zero)
  && (if classify (source p !! S (index p)) CharFlags.ImplicitOctalDigits is Some _
      then true else false).
(** * Properties *)

Ltac bool_lia :=
  repeat match goal with
  | H : _ && _ = true |- _ => apply andb_true_iff in H; destruct H
  | H : _ || _ = true |- _ => apply orb_true_iff in H; destruct H
  | H : _ && _ = false |- _ => apply andb_false_iff in H; destruct H
  | H : _ || _ = false |- _ => apply orb_false_iff in H; destruct H
  | H : negb _ = true |- _ => apply negb_true_iff in H
  | H : negb _ = false |- _ => apply negb_false_iff in H
  | H : (_ <=? _) = true |- _ => apply Z.leb_le in H
  | H : (_ <=? _) = false |- _ => apply Z.leb_gt in H
  | H : (_ <? _) = true |- _ => apply Z.ltb_lt in H
  | H : (_ <? _) = false |- _ => apply Z.ltb_ge in H
  | H : (_ =? _) = true |- _ => apply Z.eqb_eq in H
  | H : (_ =? _) = false |- _ => apply Z.eqb_neq in H
  end; try lia.

Ltac table :=
  unfold test, CharTypes, isHexDigit, isOctalDigit, isBinaryDigit;
  unfold isDigit;
  repeat case_match;
  match goal with
  | |- ?l = ?r =>
      let v := eval vm_compute in l in
      change l with v; destruct r eqn:?; try reflexivity
  end; bool_lia.

Lemma test_lor x a b : test x (Z.lor a b) = test x a || test x b.
Proof.
  unfold test. rewrite Z.land_lor_distr_r.
  destruct (Z.land x a =? 0) eqn:Ha, (Z.land x b =? 0) eqn:Hb; simpl; bool_lia.
  - rewrite Ha, Hb. reflexivity.
  - apply negb_true_iff, Z.eqb_neq. intros H. apply Z.lor_eq_0_iff in H. lia.
  - apply negb_true_iff, Z.eqb_neq. intros H. apply Z.lor_eq_0_iff in H. lia.
  - apply negb_true_iff, Z.eqb_neq. intros H. apply Z.lor_eq_0_iff in H. lia.
Qed.

Lemma CharTypes_Decimal c : test (CharTypes c) CharFlags.Decimal = isDigit c.
Proof. table. Qed.
Lemma CharTypes_Underscore c : test (CharTypes c) CharFlags.Underscore = (c =? 95).
Proof. table. Qed.
Lemma CharTypes_Hex c : test (CharTypes c) CharFlags.Hex = isHexDigit c.
Proof. table. Qed.
Lemma CharTypes_Octal c : test (CharTypes c) CharFlags.Octal = isOctalDigit c.
Proof. table. Qed.
Lemma CharTypes_Binary c : test (CharTypes c) CharFlags.Binary = isBinaryDigit c.
Proof. table. Qed.
Lemma CharTypes_ImplicitOctalDigits c :
  test (CharTypes c) CharFlags.ImplicitOctalDigits = ((56 <=? c) && (c <=? 57)).
Proof. table. Qed.
Lemma CharTypes_Exponent c :
  test (CharTypes c) CharFlags.Exponent = ((c =? 43) || (c =? 45)).
Proof. table. Qed.
Lemma CharTypes_IdentifierStart c :
  test (CharTypes c) CharFlags.IdentifierStart =
  ((65 <=? c) && (c <=? 90)) || ((97 <=? c) && (c <=? 122)) || (c =? 36) || (c =? 95).
Proof. table. Qed.

Lemma classify_Some char mask c :
  classify char mask = Some c ↔ char = Some c ∧ test (CharTypes c) mask = true.
Proof.
  unfold classify. destruct char as [d|].
  - destruct (test (CharTypes d) mask) eqn:E.
    + split; [intros [= ->]; done | intros [[= ->] _]; done].
    + split; [done | intros [[= ->] H]; congruence].
  - split; [done | intros [? _]; done].
Qed.

Lemma classify_None char mask : classify char mask = None ↔ ¬ hasFlag mask char.
Proof.
  unfold classify, hasFlag. destruct char as [d|].
  - destruct (test (CharTypes d) mask) eqn:E.
    + split; [done | intros H; destruct H; eauto].
    + split; [intros _ (c & [= ->] & H); congruence | done].
  - split; [intros _ (c & ? & _); done | done].
Qed.

Lemma hasFlag_lor a b char : hasFlag (Z.lor a b) char ↔ hasFlag a char ∨ hasFlag b char.
Proof.
  unfold hasFlag. setoid_rewrite test_lor. setoid_rewrite orb_true_iff. split.
  - intros (c & -> & [H|H]); [left|right]; eauto.
  - intros [(c & -> & H)|(c & -> & H)]; eauto.
Qed.

Lemma hasFlag_Underscore char : hasFlag CharFlags.Underscore char ↔ char = Some 95.
Proof.
  unfold hasFlag. setoid_rewrite CharTypes_Underscore. split.
  - intros (c & -> & H). apply Z.eqb_eq in H. by subst.
  - intros ->. by exists 95.
Qed.

Lemma isDigit_spec c : isDigit c = true ↔ 48 ≤ c ≤ 57.
Proof. unfold isDigit. rewrite andb_true_iff, !Z.leb_le. done. Qed.

Lemma hasFlag_Decimal char : hasFlag CharFlags.Decimal char ↔ ∃ c, char = Some c ∧ 48 ≤ c ≤ 57.
Proof.
  unfold hasFlag. setoid_rewrite CharTypes_Decimal. setoid_rewrite isDigit_spec. done.
Qed.

Lemma Octal_Decimal char : hasFlag CharFlags.Octal char → hasFlag CharFlags.Decimal char.
Proof.
  intros (c & -> & H). exists c. split; [done|].
  rewrite CharTypes_Octal in H. rewrite CharTypes_Decimal.
  unfold isOctalDigit in H. apply isDigit_spec. bool_lia.
Qed.
Lemma Binary_Decimal char : hasFlag CharFlags.Binary char → hasFlag CharFlags.Decimal char.
Proof.
  intros (c & -> & H). exists c. split; [done|].
  rewrite CharTypes_Binary in H. rewrite CharTypes_Decimal.
  unfold isBinaryDigit in H. apply isDigit_spec. bool_lia.
Qed.
Lemma Decimal_Hex char : hasFlag CharFlags.Decimal char → hasFlag CharFlags.Hex char.
Proof.
  intros (c & -> & H). exists c. split; [done|].
  rewrite CharTypes_Decimal in H. rewrite CharTypes_Hex.
  unfold isHexDigit. by rewrite H.
Qed.


(** ** Outcomes *)

Lemma bind_Return {A B} (m : outcome A) (f : A → outcome B) b :
  m ≫= f = Return b → ∃ a, m = Return a ∧ f a = Return b.
Proof. destruct m; simpl; [eauto | done | done]. Qed.

Lemma bind_OutOfFuel {A B} (m : outcome A) (f : A → outcome B) :
  m ≫= f = OutOfFuel → m = OutOfFuel ∨ ∃ a, m = Return a ∧ f a = OutOfFuel.
Proof. destruct m; simpl; [eauto | done | eauto]. Qed.

Lemma sameToken_refl p : sameToken p p.
Proof. by split. Qed.

Lemma sameToken_trans p1 p2 p3 : sameToken p1 p2 → sameToken p2 p3 → sameToken p1 p3.
Proof. intros [] []. split; try congruence. lia. Qed.

Lemma sameToken_nextCP p : sameToken p (nextCP p).1.
Proof. split; simpl; try done. lia. Qed.

Lemma sameToken_set_flags p f : sameToken p (set_flags p f).
Proof. by split. Qed.

Lemma at_nextCP p : at_ (nextCP p).1 (nextCP p).2.
Proof. by split. Qed.

Tactic Notation "inv_bind" hyp(H) "as" simple_intropattern(r) ident(H1) :=
  apply bind_Return in H as (r & H1 & H).

Lemma scanDigitsLoop_frame fuel : ∀ p char a start ret p' a' start' ret',
  scanDigitsLoop fuel p char a start ret = Return (p', a', start', ret') →
  sameToken p p'.
Proof.
  induction fuel as [|fuel IH]; intros p char a start ret p' a' start' ret' H; simpl in H.
  - destruct (classify _ _); [done|]. injection H as <- <- <- <-. apply sameToken_refl.
  - destruct (classify _ _) as [c|]; [|injection H as <- <- <- <-; apply sameToken_refl].
    destruct (c =? Chars.Underscore).
    + destruct (decide _); [done|]. apply IH in H.
      eapply sameToken_trans; [apply sameToken_nextCP | done].
    + apply IH in H. eapply sameToken_trans; [apply sameToken_nextCP | done].
Qed.

Lemma scanRadixDigits_frame fuel flag radix toDigit :
  ∀ p char v d a p' char' v' d' a',
  scanRadixDigits fuel flag radix toDigit p char v d a = Return (p', char', v', d', a') →
  sameToken p p'.
Proof.
  induction fuel as [|fuel IH]; intros p char v d a p' char' v' d' a' H; simpl in H.
  - destruct (classify _ _); [done|]. injection H as <- <- <- <- <-. apply sameToken_refl.
  - destruct (classify _ _) as [c|]; [|injection H as <- <- <- <- <-; apply sameToken_refl].
    destruct (c =? Chars.Underscore).
    + destruct (negb a); [done|]. apply IH in H.
      eapply sameToken_trans; [apply sameToken_nextCP | done].
    + apply IH in H. eapply sameToken_trans; [apply sameToken_nextCP | done].
Qed.

Lemma scanImplicitOctal_frame fuel : ∀ p char v k s p' char' v' k' s',
  scanImplicitOctal fuel p char v k s = Return (p', char', v', k', s') →
  sameToken p p'.
Proof.
  induction fuel as [|fuel IH]; intros p char v k s p' char' v' k' s' H; simpl in H.
  - destruct (classify _ _); [done|]. injection H as <- <- <- <- <-. apply sameToken_refl.
  - destruct (classify _ _) as [c|]; [|injection H as <- <- <- <- <-; apply sameToken_refl].
    destruct (test _ _).
    + injection H as <- <- <- <- <-. apply sameToken_refl.
    + apply IH in H. eapply sameToken_trans; [apply sameToken_nextCP | done].
Qed.

Lemma scanFastDigits_frame fuel : ∀ p char v d a p' char' v' d' a',
  scanFastDigits fuel p char v d a = Return (p', char', v', d', a') →
  sameToken p p'.
Proof.
  induction fuel as [|fuel IH]; intros p char v d a p' char' v' d' a' H; simpl in H.
  - destruct (if 0 <=? d then _ else _); [done|].
    injection H as <- <- <- <- <-. apply sameToken_refl.
  - destruct (if 0 <=? d then _ else _) as [c|];
      [|injection H as <- <- <- <- <-; apply sameToken_refl].
    destruct (c =? Chars.Underscore).
    + destruct (decide _); [done|]. apply IH in H.
      eapply sameToken_trans; [apply sameToken_nextCP | done].
    + apply IH in H. eapply sameToken_trans; [apply sameToken_nextCP | done].
Qed.

Lemma scanDecimalDigitsOrSeparator_frame fuel p char p' s :
  scanDecimalDigitsOrSeparator fuel p char = Return (p', s) → sameToken p p'.
Proof.
  unfold scanDecimalDigitsOrSeparator. intros H. inv_bind H as [[[p1 a1] st1] ret1] H0.
  apply scanDigitsLoop_frame in H0.
  destruct a1; [done|]. by injection H as <- <-.
Qed.

Lemma scanRadix_frame fuel flag radix toDigit p v d a p' char' v' a' :
  scanRadix fuel flag radix toDigit p v d a = Return (p', char', v', a') →
  sameToken p p'.
Proof.
  unfold scanRadix. intros H. simpl in H. inv_bind H as [[[[p1 c1] v1] d1] a1] H0.
  apply scanRadixDigits_frame in H0.
  destruct (_ || _); [done|]. injection H as <- <- <- <-.
  eapply sameToken_trans; [apply sameToken_nextCP | done].
Qed.

Lemma scanLeadingZero_frame fuel p ctx k v s a p' char' v' k' s' a' :
  scanLeadingZero fuel p ctx k v s a = Return (p', char', v', k', s', a') →
  sameToken p p'.
Proof.
  unfold scanLeadingZero. intros H. simpl in H.
  eapply sameToken_trans; [apply (sameToken_nextCP p)|]. simpl.
  repeat case_match; try done.
  - inv_bind H as [[[p1 c1] v1] a1] Hr. apply scanRadix_frame in Hr.
    by injection H as <- <- <- <- <- <-.
  - inv_bind H as [[[p1 c1] v1] a1] Hr. apply scanRadix_frame in Hr.
    by injection H as <- <- <- <- <- <-.
  - inv_bind H as [[[p1 c1] v1] a1] Hr. apply scanRadix_frame in Hr.
    by injection H as <- <- <- <- <- <-.
  - inv_bind H as [[[[p1 c1] v1] k1] s1] Hr.
    apply scanImplicitOctal_frame in Hr. by injection H as <- <- <- <- <- <-.
  - injection H as <- <- <- <- <- <-. apply sameToken_set_flags.
  - injection H as <- <- <- <- <- <-. apply sameToken_refl.
Qed.

(** ** Placement of separators *)

Lemma sepsOK_nil flag src s lo hi : (hi ≤ lo)%nat → sepsOK flag src s lo hi.
Proof. intros H i Hi. lia. Qed.

Lemma sepsOK_app flag src s lo mid hi :
  sepsOK flag src s lo mid → sepsOK flag src s mid hi → sepsOK flag src s lo hi.
Proof.
  intros H1 H2 i Hi Hc. destruct (decide (i < mid)%nat); [apply H1 | apply H2]; done || lia.
Qed.

Lemma sepsOK_one flag src s lo :
  src !! lo ≠ Some 95 → sepsOK flag src s lo (S lo).
Proof. intros H i Hi Hc. assert (i = lo) as -> by lia. done. Qed.

Lemma sepsOK_mono f1 f2 src s lo hi :
  (∀ char, hasFlag f1 char → hasFlag f2 char) →
  sepsOK f1 src s lo hi → sepsOK f2 src s lo hi.
Proof. intros Hf H i Hi Hc. destruct (H i Hi Hc) as (? & ? & ?). eauto. Qed.

Lemma hasFlag_lor_Underscore flag c :
  test (CharTypes c) (Z.lor flag CharFlags.Underscore) = true →
  (c =? Chars.Underscore) = false → hasFlag flag (Some c).
Proof.
  rewrite test_lor, CharTypes_Underscore. intros H1 H2.
  change Chars.Underscore with 95 in H2. rewrite H2, orb_false_r in H1.
  by exists c.
Qed.

Lemma scanDigitsLoop_spec fuel : ∀ p char a start ret p' a' start' ret' s,
  scanDigitsLoop fuel p char a start ret = Return (p', a', start', ret') →
  at_ p char → (s ≤ index p)%nat →
  at_ p' (nextCP_ p') ∧
  ¬ hasFlag (Z.lor CharFlags.Decimal CharFlags.Underscore) (nextCP_ p') ∧
  ((char = Some 95 →
    a = false ∧ (s < index p)%nat ∧
    hasFlag CharFlags.Decimal (source p !! (index p - 1)%nat)) →
   a' = false →
   sepsOK CharFlags.Decimal (source p) s (index p) (index p') ∧
   (a = true → hasFlag CharFlags.Decimal char)).
Proof.
  induction fuel as [|fuel IH];
    intros p char a start ret p' a' start' ret' s H Hat Hs; simpl in H.
  - destruct (classify _ _) eqn:Hc; [done|]. injection H as <- <- <- <-.
    apply classify_None in Hc. pose proof Hat as [Hn _]. rewrite Hn.
    split_and!; [done | done |]. intros _ ->. split; [by apply sepsOK_nil | done].
  - destruct (classify _ _) as [c|] eqn:Hc.
    2:{ injection H as <- <- <- <-. apply classify_None in Hc.
        pose proof Hat as [Hn _]. rewrite Hn.
        split_and!; [done | done |]. intros _ ->.
        split; [by apply sepsOK_nil | done]. }
    apply classify_Some in Hc as [-> Hc].
    destruct (c =? Chars.Underscore) eqn:Hu.
    + apply Z.eqb_eq in Hu. subst c.
      destruct (decide _) as [|Hne]; [done|].
      eapply (IH _ _ _ _ _ _ _ _ _ s) in H; [| apply at_nextCP | simpl; lia].
      simpl in H. destruct H as (Hat' & Hex & Hseps).
      split_and!; [done | done |]. intros Hus ->.
      destruct (Hus eq_refl) as (-> & Hlt & Hleft).
      destruct Hseps as [Hseps' Hright]; [done | done |]. split; [|done].
      eapply sepsOK_app; [|exact Hseps'].
      intros i Hi _. assert (i = index p) as -> by lia.
      split_and!; [done | done |]. rewrite Nat.add_1_r. by apply Hright.
    + pose proof (hasFlag_lor_Underscore _ _ Hc Hu) as Hd.
      eapply (IH _ _ _ _ _ _ _ _ _ s) in H; [| apply at_nextCP | simpl; lia].
      simpl in H. destruct H as (Hat' & Hex & Hseps).
      split_and!; [done | done |]. intros _ ->.
      destruct Hseps as [Hseps' _]; [| done |].
      { intros _. split_and!; [done | lia |].
        rewrite Nat.sub_0_r. destruct Hat as [_ <-]. done. }
      split; [|done].
      eapply sepsOK_app; [|exact Hseps'].
      apply sepsOK_one. destruct Hat as [_ <-]. intros [= ->]. done.
Qed.

Lemma scanDecimalDigitsOrSeparator_spec fuel p char p' str s :
  scanDecimalDigitsOrSeparator fuel p char = Return (p', str) →
  at_ p char → (s ≤ index p)%nat →
  at_ p' (nextCP_ p') ∧
  ¬ hasFlag (Z.lor CharFlags.Decimal CharFlags.Underscore) (nextCP_ p') ∧
  (char ≠ Some 95 → sepsOK CharFlags.Decimal (source p) s (index p) (index p')).
Proof.
  unfold scanDecimalDigitsOrSeparator. intros H Hat Hs.
  inv_bind H as [[[p1 a1] st1] ret1] Hl.
  destruct a1; [done|]. injection H as <- <-.
  eapply scanDigitsLoop_spec in Hl as (? & ? & Hseps); [|done|done].
  split_and!; [done | done |]. intros Hne. by apply Hseps.
Qed.

Lemma scanRadixDigits_spec fuel flag radix toDigit :
  ∀ p char v d a p' char' v' d' a' s,
  scanRadixDigits fuel flag radix toDigit p char v d a = Return (p', char', v', d', a') →
  at_ p char → (s ≤ index p)%nat →
  at_ p' char' ∧
  ¬ hasFlag (Z.lor flag CharFlags.Underscore) char' ∧
  ((a = true → (s < index p)%nat ∧ hasFlag flag (source p !! (index p - 1)%nat)) →
   a' = true →
   sepsOK flag (source p) s (index p) (index p') ∧ (a = false → hasFlag flag char)).
Proof.
  induction fuel as [|fuel IH];
    intros p char v d a p' char' v' d' a' s H Hat Hs; simpl in H.
  - destruct (classify _ _) eqn:Hc; [done|]. injection H as <- <- <- <- <-.
    apply classify_None in Hc.
    split_and!; [done | done |]. intros _ ->. split; [by apply sepsOK_nil | done].
  - destruct (classify _ _) as [c|] eqn:Hc.
    2:{ injection H as <- <- <- <- <-. apply classify_None in Hc.
        split_and!; [done | done |]. intros _ ->.
        split; [by apply sepsOK_nil | done]. }
    apply classify_Some in Hc as [-> Hc].
    destruct (c =? Chars.Underscore) eqn:Hu.
    + apply Z.eqb_eq in Hu. subst c. destruct a; [|done]. simpl in H.
      eapply (IH _ _ _ _ _ _ _ _ _ _ s) in H; [| apply at_nextCP | simpl; lia].
      simpl in H. destruct H as (Hat' & Hex & Hseps).
      split_and!; [done | done |]. intros Hus ->.
      destruct (Hus eq_refl) as (Hlt & Hleft).
      destruct Hseps as [Hseps' Hright]; [done | done |]. split; [|done].
      eapply sepsOK_app; [|exact Hseps'].
      intros i Hi _. assert (i = index p) as -> by lia.
      split_and!; [done | done |]. rewrite Nat.add_1_r. by apply Hright.
    + pose proof (hasFlag_lor_Underscore _ _ Hc Hu) as Hd.
      eapply (IH _ _ _ _ _ _ _ _ _ _ s) in H; [| apply at_nextCP | simpl; lia].
      simpl in H. destruct H as (Hat' & Hex & Hseps).
      split_and!; [done | done |]. intros _ ->.
      destruct Hseps as [Hseps' _]; [| done |].
      { intros _. split; [lia|]. rewrite Nat.sub_0_r. destruct Hat as [_ <-]. done. }
      split; [|done].
      eapply sepsOK_app; [|exact Hseps'].
      apply sepsOK_one. destruct Hat as [_ <-]. intros [= ->]. done.
Qed.

Lemma scanRadix_spec fuel flag radix toDigit p char v d p' char' v' a' s :
  scanRadix fuel flag radix toDigit p v d false = Return (p', char', v', a') →
  at_ p char → (s ≤ index p)%nat →
  at_ p' char' ∧ ¬ hasFlag (Z.lor flag CharFlags.Underscore) char' ∧
  (char ≠ Some 95 → sepsOK flag (source p) s (index p) (index p')).
Proof.
  unfold scanRadix. intros H Hat Hs. simpl in H.
  inv_bind H as [[[[p1 c1] v1] d1] a1] Hl.
  destruct (d1 <? 1)%nat eqn:Hd; [done|]. destruct a1; [|done]. simpl in H.
  injection H as <- <- <- <-.
  eapply (scanRadixDigits_spec _ _ _ _ _ _ _ _ _ _ _ _ _ _ s) in Hl
    as (? & ? & Hseps); [| apply at_nextCP | simpl; lia].
  simpl in Hseps. split_and!; [done | done |]. intros Hne.
  eapply sepsOK_app; [| by apply Hseps].
  apply sepsOK_one. destruct Hat as [_ <-]. done.
Qed.

Lemma scanImplicitOctal_spec fuel : ∀ p char v k st p' char' v' k' st' s,
  scanImplicitOctal fuel p char v k st = Return (p', char', v', k', st') →
  at_ p char →
  at_ p' char' ∧ sepsOK CharFlags.Decimal (source p) s (index p) (index p') ∧
  (k' = k ∧ st' = st ∧ ¬ hasFlag CharFlags.Decimal char' ∨
   k' = NumberKind.DecimalWithLeadingZero ∧ st' = false ∧
   hasFlag CharFlags.ImplicitOctalDigits char').
Proof.
  induction fuel as [|fuel IH];
    intros p char v k st p' char' v' k' st' s H Hat; simpl in H.
  - destruct (classify _ _) eqn:Hc; [done|]. injection H as <- <- <- <- <-.
    apply classify_None in Hc.
    split_and!; [done | by apply sepsOK_nil | by left].
  - destruct (classify _ _) as [c|] eqn:Hc.
    2:{ injection H as <- <- <- <- <-. apply classify_None in Hc.
        split_and!; [done | by apply sepsOK_nil | by left]. }
    apply classify_Some in Hc as [-> Hc].
    destruct (test (CharTypes c) CharFlags.ImplicitOctalDigits) eqn:Hi.
    + injection H as <- <- <- <- <-.
      split_and!; [done | by apply sepsOK_nil |]. right. split_and!; [done..|]. by exists c.
    + eapply (IH _ _ _ _ _ _ _ _ _ _ s) in H; [| apply at_nextCP].
      simpl in H. destruct H as (Hat' & Hseps & Hk).
      split_and!; [done | | done].
      eapply sepsOK_app; [| exact Hseps].
      apply sepsOK_one. destruct Hat as [_ <-]. intros [= ->]. done.
Qed.

Lemma lower_not_underscore char k :
  lower char = k → k ≠ 127 → char ≠ Some 95.
Proof. intros <- H ->. by apply H. Qed.

Lemma hasFlag_ImplicitOctalDigits_ne char :
  hasFlag CharFlags.ImplicitOctalDigits char → char ≠ Some 95.
Proof.
  intros (c & -> & H) [= ->]. by rewrite CharTypes_ImplicitOctalDigits in H.
Qed.

Lemma hasFlag_Decimal_ne char : hasFlag CharFlags.Decimal char → char ≠ Some 95.
Proof. intros (c & -> & H) [= ->]. by rewrite CharTypes_Decimal in H. Qed.

Lemma scanLeadingZero_spec fuel p ctx k v st p' char' v' k' st' a' s :
  scanLeadingZero fuel p ctx k v st false = Return (p', char', v', k', st', a') →
  at_ p (Some Chars.Zero) → (s ≤ index p)%nat →
  at_ p' char' ∧ sepsOK (sepFlag p) (source p) s (index p) (index p') ∧
  (st = false → st' = false) ∧
  (test k' NumberKind.DecimalNumberKind = true → char' ≠ Some 95).
Proof.
  unfold scanLeadingZero, sepFlag. intros H Hat Hs. simpl in H.
  assert (Hzero : ∀ f hi, sepsOK f (source p) s (S (index p)) hi →
                          sepsOK f (source p) s (index p) hi).
  { intros f hi. apply sepsOK_app, sepsOK_one. destruct Hat as [_ <-]. done. }
  pose proof (at_nextCP p) as Hat1. simpl in Hat1.
  unfold charCodeAt in *.
  destruct (lower _ =? Chars.LowerX) eqn:Hx.
  { apply Z.eqb_eq in Hx. inv_bind H as [[[p1 c1] v1] a1] Hr.
    injection H as <- <- <- <- <- <-.
    eapply (scanRadix_spec _ _ _ _ _ _ _ _ _ _ _ _ s) in Hr as (? & ? & Hseps);
      [| exact Hat1 | simpl; lia].
    specialize (Hseps (lower_not_underscore _ _ Hx ltac:(done))).
    split_and!; [done | by apply Hzero | done | by vm_compute]. }
  destruct (lower _ =? Chars.LowerO) eqn:Ho.
  { apply Z.eqb_eq in Ho. inv_bind H as [[[p1 c1] v1] a1] Hr.
    injection H as <- <- <- <- <- <-.
    eapply (scanRadix_spec _ _ _ _ _ _ _ _ _ _ _ _ s) in Hr as (? & ? & Hseps);
      [| exact Hat1 | simpl; lia].
    specialize (Hseps (lower_not_underscore _ _ Ho ltac:(done))).
    split_and!; [done | | done | by vm_compute].
    apply Hzero. eapply sepsOK_mono; [apply Octal_Decimal | done]. }
  destruct (lower _ =? Chars.LowerB) eqn:Hb.
  { apply Z.eqb_eq in Hb. inv_bind H as [[[p1 c1] v1] a1] Hr.
    injection H as <- <- <- <- <- <-.
    eapply (scanRadix_spec _ _ _ _ _ _ _ _ _ _ _ _ s) in Hr as (? & ? & Hseps);
      [| exact Hat1 | simpl; lia].
    specialize (Hseps (lower_not_underscore _ _ Hb ltac:(done))).
    split_and!; [done | | done | by vm_compute].
    apply Hzero. eapply sepsOK_mono; [apply Binary_Decimal | done]. }
  destruct (classify _ CharFlags.Octal) eqn:Hoct.
  { destruct (test ctx _); [done|].
    inv_bind H as [[[[p1 c1] v1] k1] st1] Hr. injection H as <- <- <- <- <- <-.
    eapply (scanImplicitOctal_spec _ _ _ _ _ _ _ _ _ _ _ s) in Hr
      as (? & Hseps & Hk); [| exact Hat1].
    split_and!; [done | by apply Hzero | |].
    - intros ->. by destruct Hk as [(_ & -> & _)|(_ & -> & _)].
    - destruct Hk as [(-> & _ & _)|(_ & _ & Hd)]; [by vm_compute|].
      intros _. by apply hasFlag_ImplicitOctalDigits_ne. }
  destruct (classify _ CharFlags.ImplicitOctalDigits) eqn:Himp.
  { destruct (test ctx _); [done|]. injection H as <- <- <- <- <- <-.
    split_and!; [done | by apply Hzero, sepsOK_nil | done |].
    intros _. apply hasFlag_ImplicitOctalDigits_ne.
    apply classify_Some in Himp as [Hc Ht]. rewrite Hc. by eexists. }
  destruct (decide _) as [|Hne]; [done|]. injection H as <- <- <- <- <- <-.
  split_and!; [done | by apply Hzero, sepsOK_nil | done | done].
Qed.

Lemma sepsOK_sepFlag p src s lo hi :
  sepsOK CharFlags.Decimal src s lo hi → sepsOK (sepFlag p) src s lo hi.
Proof.
  unfold sepFlag. destruct (_ =? _); [|done]. apply sepsOK_mono, Decimal_Hex.
Qed.

Lemma scanDecimalTail_frame fuel p k char v p' char' v' k' :
  scanDecimalTail fuel p k char v = Return (p', char', v', k') → sameToken p p'.
Proof.
  unfold scanDecimalTail. intros H. inv_bind H as [p1 s1] H1.
  apply scanDecimalDigitsOrSeparator_frame in H1.
  destruct (decide _).
  - simpl in H. destruct (decide _); [done|]. inv_bind H as [p2 s2] H2.
    apply scanDecimalDigitsOrSeparator_frame in H2. injection H as <- <- <- <-.
    eapply sameToken_trans; [exact H1|].
    eapply sameToken_trans; [apply sameToken_nextCP | exact H2].
  - by injection H as <- <- <- <-.
Qed.

Lemma scanDecimalTail_spec fuel p k char v p' char' v' k' s :
  scanDecimalTail fuel p k char v = Return (p', char', v', k') →
  at_ p char → (s ≤ index p)%nat →
  at_ p' char' ∧
  (char ≠ Some 95 → sepsOK CharFlags.Decimal (source p) s (index p) (index p')).
Proof.
  unfold scanDecimalTail. intros H Hat Hs. inv_bind H as [p1 s1] H1.
  pose proof (scanDecimalDigitsOrSeparator_frame _ _ _ _ _ H1) as F1.
  eapply (scanDecimalDigitsOrSeparator_spec _ _ _ _ _ s) in H1
    as (Hat1 & _ & Hseps1); [|done..].
  destruct (decide _) as [Hdot|].
  - simpl in H. destruct (decide _) as [|Hnu]; [done|]. inv_bind H as [p2 s2] H2.
    injection H as <- <- <- <-.
    pose proof (scanDecimalDigitsOrSeparator_frame _ _ _ _ _ H2) as F2.
    eapply (scanDecimalDigitsOrSeparator_spec _ _ _ _ _ s) in H2
      as (Hat2 & _ & Hseps2); [| apply at_nextCP | simpl; destruct F1; lia].
    simpl in *. split; [done|]. intros Hne.
    destruct F1 as [Hsrc _ _ _ _ _]. rewrite Hsrc in Hseps2.
    eapply sepsOK_app; [by apply Hseps1|].
    eapply sepsOK_app; [|apply Hseps2; rewrite <- Hsrc; exact Hnu].
    apply sepsOK_one. destruct Hat1 as [_ Hc1]. rewrite Hsrc in Hc1.
    rewrite <- Hc1, Hdot. done.
  - by injection H as <- <- <- <-.
Qed.

Lemma scanSuffix_frame fuel p k char v p' char' v' big :
  scanSuffix fuel p k char v = Return (p', char', v', big) → sameToken p p'.
Proof.
  unfold scanSuffix. intros H.
  destruct (_ && _).
  { simpl in H. injection H as <- <- <- <-. apply sameToken_nextCP. }
  destruct (_ =? _); [|injection H as <- <- <- <-; apply sameToken_refl].
  simpl in H. destruct (classify _ CharFlags.Exponent); simpl in H.
  - destruct (classify _ CharFlags.Decimal); [|done].
    inv_bind H as [p2 s2] H2. injection H as <- <- <- <-.
    apply scanDecimalDigitsOrSeparator_frame in H2.
    eapply sameToken_trans; [apply sameToken_nextCP|].
    eapply sameToken_trans; [apply sameToken_nextCP|]. done.
  - destruct (classify _ CharFlags.Decimal); [|done].
    inv_bind H as [p2 s2] H2. injection H as <- <- <- <-.
    apply scanDecimalDigitsOrSeparator_frame in H2.
    eapply sameToken_trans; [apply sameToken_nextCP|]. done.
Qed.

Lemma hasFlag_Exponent_ne char : hasFlag CharFlags.Exponent char → char ≠ Some 95.
Proof. intros (c & -> & H) [= ->]. by rewrite CharTypes_Exponent in H. Qed.

Lemma classify_hasFlag char mask c : classify char mask = Some c → hasFlag mask char.
Proof. intros [-> H]%classify_Some. by exists c. Qed.

Lemma scanSuffix_spec fuel p k char v p' char' v' big s :
  scanSuffix fuel p k char v = Return (p', char', v', big) →
  at_ p char → (s ≤ index p)%nat →
  at_ p' char' ∧ sepsOK CharFlags.Decimal (source p) s (index p) (index p').
Proof.
  unfold scanSuffix. intros H Hat Hs.
  assert (Hfirst : char ≠ Some 95 → ∀ hi,
            sepsOK CharFlags.Decimal (source p) s (S (index p)) hi →
            sepsOK CharFlags.Decimal (source p) s (index p) hi).
  { intros Hne hi. apply sepsOK_app, sepsOK_one. by destruct Hat as [_ <-]. }
  destruct (_ && _) eqn:Hn.
  { simpl in H. injection H as <- <- <- <-. split; [apply at_nextCP|].
    simpl. apply Hfirst; [|by apply sepsOK_nil].
    apply andb_true_iff in Hn as [Hn _]. apply bool_decide_eq_true in Hn. by rewrite Hn. }
  destruct (_ =? _) eqn:He;
    [|injection H as <- <- <- <-; split; [done | by apply sepsOK_nil]].
  apply Z.eqb_eq in He. simpl in H.
  pose proof (lower_not_underscore _ _ He) as Hne.
  unfold charCodeAt in *.
  destruct (classify _ CharFlags.Exponent) eqn:Hsign; simpl in H.
  - destruct (classify _ CharFlags.Decimal) eqn:Hd; [|done].
    inv_bind H as [p2 s2] H2. injection H as <- <- <- <-.
    pose proof (scanDecimalDigitsOrSeparator_frame _ _ _ _ _ H2) as F2.
    eapply (scanDecimalDigitsOrSeparator_spec _ _ _ _ _ s) in H2
      as (Hat2 & _ & Hseps2); [| by split | simpl; lia].
    specialize (Hseps2 (hasFlag_Decimal_ne _ (classify_hasFlag _ _ _ Hd))).
    simpl in *. split; [done|]. apply Hfirst; [by apply Hne|].
    eapply sepsOK_app; [|exact Hseps2]. apply sepsOK_one.
    apply hasFlag_Exponent_ne. by eapply classify_hasFlag.
  - destruct (classify _ CharFlags.Decimal) eqn:Hd; [|done].
    inv_bind H as [p2 s2] H2. injection H as <- <- <- <-.
    pose proof (scanDecimalDigitsOrSeparator_frame _ _ _ _ _ H2) as F2.
    eapply (scanDecimalDigitsOrSeparator_spec _ _ _ _ _ s) in H2
      as (Hat2 & _ & Hseps2); [| by split | simpl; lia].
    specialize (Hseps2 (hasFlag_Decimal_ne _ (classify_hasFlag _ _ _ Hd))).
    simpl in *. split; [done|]. apply Hfirst; [by apply Hne|]. done.
Qed.

Lemma scanImplicitOctal_atStart fuel : ∀ p char v k st p' char' v' k' st',
  scanImplicitOctal fuel p char v k st = Return (p', char', v', k', st') →
  st = false → st' = false.
Proof.
  induction fuel as [|fuel IH]; intros p char v k st p' char' v' k' st' H; simpl in H.
  - destruct (classify _ _); [done|]. by injection H as <- <- <- <- <-.
  - destruct (classify _ _) as [c|]; [|by injection H as <- <- <- <- <-].
    destruct (test _ _); [by injection H as <- <- <- <- <-|].
    exact (IH _ _ _ _ _ _ _ _ _ _ H).
Qed.

Lemma scanLeadingZero_atStart fuel p ctx k v st a p' char' v' k' st' a' :
  scanLeadingZero fuel p ctx k v st a = Return (p', char', v', k', st', a') →
  st = false → st' = false.
Proof.
  unfold scanLeadingZero. intros H. simpl in H.
  repeat case_match; try done.
  - inv_bind H as [[[p1 c1] v1] a1] Hr. by injection H as <- <- <- <- <- <-.
  - inv_bind H as [[[p1 c1] v1] a1] Hr. by injection H as <- <- <- <- <- <-.
  - inv_bind H as [[[p1 c1] v1] a1] Hr. by injection H as <- <- <- <- <- <-.
  - inv_bind H as [[[[p1 c1] v1] k1] s1] Hr.
    injection H as <- <- <- <- <- <-.
    exact (scanImplicitOctal_atStart _ _ _ _ _ _ _ _ _ _ _ Hr).
  - by injection H as <- <- <- <- <- <-.
  - by injection H as <- <- <- <- <- <-.
Qed.

Lemma fuelOK_sameToken fuel p p' : sameToken p p' → fuelOK fuel p → fuelOK fuel p'.
Proof. unfold fuelOK. intros [-> _ _ _ _ ?]. lia. Qed.

Lemma fuelOK_nextCP fuel p : fuelOK fuel p → fuelOK fuel (nextCP p).1.
Proof. apply fuelOK_sameToken, sameToken_nextCP. Qed.

Lemma classify_in_range p char mask c :
  char = source p !! index p → classify char mask = Some c →
  (index p < length (source p))%nat.
Proof.
  intros -> [Hc _]%classify_Some. by apply lookup_lt_Some in Hc.
Qed.

Lemma scanDigitsLoop_total_at fuel : ∀ p char a start ret,
  char = source p !! index p → (length (source p) - index p ≤ fuel)%nat →
  scanDigitsLoop fuel p char a start ret ≠ OutOfFuel.
Proof.
  induction fuel as [|fuel IH]; intros p char a start ret Hat Hf; simpl.
  - destruct (classify _ _) eqn:Hc; [|done].
    pose proof (classify_in_range _ _ _ _ Hat Hc). lia.
  - destruct (classify _ _) eqn:Hc; [|done].
    pose proof (classify_in_range _ _ _ _ Hat Hc).
    destruct (_ =? _); [destruct (decide _); [done|]|]; apply IH; simpl; done || lia.
Qed.

Lemma scanDigitsLoop_total fuel p char a start ret :
  fuelOK fuel p → scanDigitsLoop fuel p char a start ret ≠ OutOfFuel.
Proof.
  unfold fuelOK. intros Hf. destruct fuel as [|fuel]; [lia|]. simpl.
  destruct (classify _ _); [|done].
  destruct (_ =? _); [destruct (decide _); [done|]|];
    apply scanDigitsLoop_total_at; simpl; done || lia.
Qed.

Lemma scanRadixDigits_total_at fuel flag radix toDigit : ∀ p char v d a,
  char = source p !! index p → (length (source p) - index p ≤ fuel)%nat →
  scanRadixDigits fuel flag radix toDigit p char v d a ≠ OutOfFuel.
Proof.
  induction fuel as [|fuel IH]; intros p char v d a Hat Hf; simpl.
  - destruct (classify _ _) eqn:Hc; [|done].
    pose proof (classify_in_range _ _ _ _ Hat Hc). lia.
  - destruct (classify _ _) eqn:Hc; [|done].
    pose proof (classify_in_range _ _ _ _ Hat Hc).
    destruct (_ =? _); [destruct (negb a); [done|]|]; apply IH; simpl; done || lia.
Qed.

Lemma scanRadixDigits_total fuel flag radix toDigit p char v d a :
  fuelOK fuel p → scanRadixDigits fuel flag radix toDigit p char v d a ≠ OutOfFuel.
Proof.
  unfold fuelOK. intros Hf. destruct fuel as [|fuel]; [lia|]. simpl.
  destruct (classify _ _); [|done].
  destruct (_ =? _); [destruct (negb a); [done|]|];
    apply scanRadixDigits_total_at; simpl; done || lia.
Qed.

Lemma scanImplicitOctal_total_at fuel : ∀ p char v k st,
  char = source p !! index p → (length (source p) - index p ≤ fuel)%nat →
  scanImplicitOctal fuel p char v k st ≠ OutOfFuel.
Proof.
  induction fuel as [|fuel IH]; intros p char v k st Hat Hf; simpl.
  - destruct (classify _ _) eqn:Hc; [|done].
    pose proof (classify_in_range _ _ _ _ Hat Hc). lia.
  - destruct (classify _ _) eqn:Hc; [|done].
    pose proof (classify_in_range _ _ _ _ Hat Hc).
    destruct (test _ _); [done|]. apply IH; simpl; done || lia.
Qed.

Lemma scanImplicitOctal_total fuel p char v k st :
  fuelOK fuel p → scanImplicitOctal fuel p char v k st ≠ OutOfFuel.
Proof.
  unfold fuelOK. intros Hf. destruct fuel as [|fuel]; [lia|]. simpl.
  destruct (classify _ _); [|done].
  destruct (test _ _); [done|].
  apply scanImplicitOctal_total_at; simpl; done || lia.
Qed.

Lemma scanFastDigits_total_at fuel : ∀ p char v d a,
  char = source p !! index p → (length (source p) - index p ≤ fuel)%nat →
  scanFastDigits fuel p char v d a ≠ OutOfFuel.
Proof.
  induction fuel as [|fuel IH]; intros p char v d a Hat Hf; simpl.
  - destruct (0 <=? d); [|done]. destruct (classify _ _) eqn:Hc; [|done].
    pose proof (classify_in_range _ _ _ _ Hat Hc). lia.
  - destruct (0 <=? d); [|done]. destruct (classify _ _) eqn:Hc; [|done].
    pose proof (classify_in_range _ _ _ _ Hat Hc).
    destruct (_ =? _); [destruct (decide _); [done|]|]; apply IH; simpl; done || lia.
Qed.

Lemma scanFastDigits_total fuel p char v d a :
  fuelOK fuel p → scanFastDigits fuel p char v d a ≠ OutOfFuel.
Proof.
  unfold fuelOK. intros Hf. destruct fuel as [|fuel]; [lia|]. simpl.
  destruct (0 <=? d); [|done]. destruct (classify _ _); [|done].
  destruct (_ =? _); [destruct (decide _); [done|]|];
    apply scanFastDigits_total_at; simpl; done || lia.
Qed.

Lemma scanDecimalDigitsOrSeparator_total fuel p char :
  fuelOK fuel p → scanDecimalDigitsOrSeparator fuel p char ≠ OutOfFuel.
Proof.
  unfold scanDecimalDigitsOrSeparator. intros Hf H.
  apply bind_OutOfFuel in H as [H|([[[p1 a1] st1] ret1] & _ & H)].
  - by eapply scanDigitsLoop_total.
  - by destruct a1.
Qed.

Lemma scanRadix_total fuel flag radix toDigit p v d a :
  fuelOK fuel p → scanRadix fuel flag radix toDigit p v d a ≠ OutOfFuel.
Proof.
  unfold scanRadix. intros Hf H. simpl in H.
  apply bind_OutOfFuel in H as [H|([[[[p1 c1] v1] d1] a1] & _ & H)].
  - eapply scanRadixDigits_total; [|done]. by apply (fuelOK_nextCP _ p).
  - by destruct (_ || _).
Qed.

Lemma scanLeadingZero_total fuel p ctx k v st a :
  fuelOK fuel p → scanLeadingZero fuel p ctx k v st a ≠ OutOfFuel.
Proof.
  unfold scanLeadingZero. intros Hf H. simpl in H.
  pose proof (fuelOK_nextCP _ _ Hf) as Hf1. simpl in Hf1.
  repeat case_match; try done.
  - apply bind_OutOfFuel in H as [H|([[[p1 c1] v1] a1] & _ & H)]; [|done].
    by eapply scanRadix_total.
  - apply bind_OutOfFuel in H as [H|([[[p1 c1] v1] a1] & _ & H)]; [|done].
    by eapply scanRadix_total.
  - apply bind_OutOfFuel in H as [H|([[[p1 c1] v1] a1] & _ & H)]; [|done].
    by eapply scanRadix_total.
  - apply bind_OutOfFuel in H as [H|([[[[p1 c1] v1] k1] s1] & _ & H)]; [|done].
    by eapply scanImplicitOctal_total.
Qed.

Lemma scanDecimalTail_total fuel p k char v :
  fuelOK fuel p → scanDecimalTail fuel p k char v ≠ OutOfFuel.
Proof.
  unfold scanDecimalTail. intros Hf H.
  apply bind_OutOfFuel in H as [H|([p1 s1] & H1 & H)].
  - by eapply scanDecimalDigitsOrSeparator_total.
  - apply scanDecimalDigitsOrSeparator_frame in H1.
    destruct (decide _); [|done]. simpl in H. destruct (decide _); [done|].
    apply bind_OutOfFuel in H as [H|([p2 s2] & _ & H)]; [|done].
    eapply scanDecimalDigitsOrSeparator_total; [|done].
    apply (fuelOK_nextCP _ p1). by eapply fuelOK_sameToken.
Qed.

Lemma scanSuffix_total fuel p k char v :
  fuelOK fuel p → scanSuffix fuel p k char v ≠ OutOfFuel.
Proof.
  unfold scanSuffix. intros Hf H.
  destruct (_ && _); [done|]. destruct (_ =? _); [|done]. simpl in H.
  pose proof (fuelOK_nextCP _ _ Hf) as Hf1.
  pose proof (fuelOK_nextCP _ _ Hf1) as Hf2.
  destruct (classify _ CharFlags.Exponent); simpl in H;
    (destruct (classify _ CharFlags.Decimal); [|done]);
    (apply bind_OutOfFuel in H as [H|([p2 s2] & _ & H)]; [|done]);
    (eapply scanDecimalDigitsOrSeparator_total; [|exact H]);
    first [exact Hf1 | exact Hf2].
Qed.

Section ScannerProperties.

Variable unicodeIDStart : Z → bool.

Lemma scanDecimalPart_general fuel p ctx k char v a r :
  scanDecimalPart unicodeIDStart fuel p ctx k char v false a = Return r →
  ∃ p' char' v' k', r = inr (p', char', v', k') ∧ sameToken p p' ∧
    ∀ s, at_ p char → (s ≤ index p)%nat →
         at_ p' char' ∧
         ((test k NumberKind.DecimalNumberKind = true → char ≠ Some 95) →
          sepsOK CharFlags.Decimal (source p) s (index p) (index p')).
Proof.
  unfold scanDecimalPart. intros H.
  destruct (test k _).
  - simpl in H. inv_bind H as [[[p1 c1] v1] k1] H1. injection H as <-.
    exists p1, c1, v1, k1. split; [done|].
    split; [by eapply scanDecimalTail_frame|].
    intros s Hat Hs. eapply scanDecimalTail_spec in H1 as [? Hseps]; [|done..].
    split; [done|]. intros Hne. by apply Hseps, Hne.
  - injection H as <-. exists p, char, (AccNum v), k.
    split_and!; [done | apply sameToken_refl |].
    intros s Hat _. split; [done | intros _; by apply sepsOK_nil].
Qed.

(** The fast path is never entered: [atStart] is set for [Float] only,
    and a [Float] numeral does not reach line 118. *)
Lemma scanMantissa_general fuel p ctx kind r :
  scanMantissa unicodeIDStart fuel p ctx kind = Return r →
  ∃ p' char' v' k', r = inr (p', char', v', k') ∧ sameToken p p' ∧
    (nextCP_ p = source p !! index p →
     at_ p' char' ∧
     (hasFlag CharFlags.Decimal (nextCP_ p) →
      sepsOK (sepFlag p) (source p) (index p) (index p) (index p'))).
Proof.
  unfold scanMantissa. intros H.
  destruct (test kind NumberKind.Float) eqn:Hf.
  - inv_bind H as [p1 s1] H1. destruct (decide _); [done|]. injection H as <-.
    eexists _, _, _, _. split; [done|].
    split; [by eapply scanDecimalDigitsOrSeparator_frame|].
    intros Hsync.
    eapply (scanDecimalDigitsOrSeparator_spec _ _ _ _ _ (index p)) in H1
      as (? & _ & Hseps); [| by split | lia].
    split; [done |]. intros Hd. by apply sepsOK_sepFlag, Hseps, hasFlag_Decimal_ne.
  - inv_bind H as [[[[[p1 c1] v1] k1] st1] a1] H1.
    destruct (decide _) as [Hz|].
    + pose proof (scanLeadingZero_frame _ _ _ _ _ _ _ _ _ _ _ _ _ H1) as F1.
      pose proof (scanLeadingZero_atStart _ _ _ _ _ _ _ _ _ _ _ _ _ H1 eq_refl) as ->.
      apply scanDecimalPart_general in H as (p' & char' & v' & k' & -> & F2 & Hspec).
      eexists _, _, _, _. split; [done|].
      split; [by eapply sameToken_trans|].
      intros Hsync.
      eapply (scanLeadingZero_spec _ _ _ _ _ _ _ _ _ _ _ _ (index p)) in H1
        as (Hat1 & Hseps1 & _ & Hne);
        [| by unfold at_; rewrite <- Hsync, Hz | lia].
      destruct (Hspec (index p) Hat1) as [Hat2 Hseps2]; [by destruct F1|].
      split; [done|]. intros _. eapply sepsOK_app; [exact Hseps1|].
      apply sepsOK_sepFlag. destruct F1 as [<- _ _ _ _ _]. by apply Hseps2.
    + injection H1 as <- <- <- <- <- <-.
      apply scanDecimalPart_general in H as (p' & char' & v' & k' & -> & F2 & Hspec).
      eexists _, _, _, _. split; [done|]. split; [done|].
      intros Hsync.
      destruct (Hspec (index p)) as [Hat2 Hseps2]; [by split | lia |].
      split; [done |]. intros Hd. apply sepsOK_sepFlag, Hseps2.
      intros _. by apply hasFlag_Decimal_ne.
Qed.

Lemma scanFastPath_total fuel p ctx char v a :
  fuelOK fuel p → scanFastPath unicodeIDStart fuel p ctx char v a ≠ OutOfFuel.
Proof.
  unfold scanFastPath. intros Hf H.
  apply bind_OutOfFuel in H as [H|([[[[p1 c1] v1] d1] a1] & _ & H)].
  - by eapply scanFastDigits_total.
  - destruct a1; [done|]. by destruct (_ && _).
Qed.

Lemma scanFastPath_frame fuel p ctx char v a p' char' v' :
  scanFastPath unicodeIDStart fuel p ctx char v a = Return (inr (p', char', v')) →
  sameToken p p'.
Proof.
  unfold scanFastPath. intros H. inv_bind H as [[[[p1 c1] v1] d1] a1] H1.
  apply scanFastDigits_frame in H1. destruct a1; [done|].
  destruct (_ && _); [done|]. by injection H as <- <- <-.
Qed.

Lemma scanDecimalPart_total fuel p ctx k char v st a :
  fuelOK fuel p →
  scanDecimalPart unicodeIDStart fuel p ctx k char v st a ≠ OutOfFuel.
Proof.
  unfold scanDecimalPart. intros Hf H. destruct (test k _); [|done].
  apply bind_OutOfFuel in H as [H|(r & H1 & H)].
  - destruct st; [|done]. by eapply scanFastPath_total.
  - destruct r as [|[[p1 c1] v1]]; [done|].
    apply bind_OutOfFuel in H as [H|(r & _ & H)]; [|done].
    eapply scanDecimalTail_total; [|exact H].
    destruct st; [|by injection H1 as <- <- <-].
    apply scanFastPath_frame in H1. by eapply fuelOK_sameToken.
Qed.

Lemma scanMantissa_total fuel p ctx kind :
  fuelOK fuel p → scanMantissa unicodeIDStart fuel p ctx kind ≠ OutOfFuel.
Proof.
  unfold scanMantissa. intros Hf H. destruct (test kind _).
  - apply bind_OutOfFuel in H as [H|([p1 s1] & _ & H)].
    + by eapply scanDecimalDigitsOrSeparator_total.
    + by destruct (decide _).
  - apply bind_OutOfFuel in H as [H|([[[[[p1 c1] v1] k1] st1] a1] & H1 & H)].
    + destruct (decide _); [|done]. by eapply scanLeadingZero_total.
    + eapply scanDecimalPart_total; [|exact H].
      destruct (decide _); [|by injection H1 as <- <- <- <- <- <-].
      apply scanLeadingZero_frame in H1. by eapply fuelOK_sameToken.
Qed.

Lemma finishNumber_total p ctx k char v big :
  finishNumber unicodeIDStart p ctx k char v big ≠ OutOfFuel.
Proof. unfold finishNumber. by repeat case_match. Qed.

Lemma scanNumberFuel_total fuel p ctx kind :
  fuelOK fuel p → scanNumberFuel unicodeIDStart fuel p ctx kind ≠ OutOfFuel.
Proof.
  unfold scanNumberFuel. intros Hf H.
  apply bind_OutOfFuel in H as [H|(r & H1 & H)]; [by eapply scanMantissa_total|].
  apply scanMantissa_general in H1 as (p1 & c1 & v1 & k1 & -> & F1 & _).
  unfold scanSuffixAndFinish in H.
  apply bind_OutOfFuel in H as [H|([[[p2 c2] v2] big] & _ & H)].
  - eapply scanSuffix_total; [|exact H]. by eapply fuelOK_sameToken.
  - by eapply finishNumber_total.
Qed.

(** [scanNumber] always returns or throws. *)
Lemma scanNumber_total p ctx kind :
  scanNumber unicodeIDStart p ctx kind ≠ OutOfFuel.
Proof. apply scanNumberFuel_total. unfold fuelOK. lia. Qed.

(** What the last lines of [scanNumber] do. *)
Lemma finishNumber_inv p ctx k char v big p' tok :
  finishNumber unicodeIDStart p ctx k char v big = Return (p', tok) →
  source p' = source p ∧ index p' = index p ∧ end_ p' = end_ p ∧
  tokenIndex p' = tokenIndex p ∧ flags p' = flags p ∧
  tok = (if big then BigIntLiteral else NumericLiteral) ∧
  tokenRaw p' =
    (if big || test ctx Context.OptionsRaw
     then slice (source p) (tokenIndex p) (index p) else tokenRaw p) ∧
  isIdentifierStart unicodeIDStart char = false ∧
  ((index p < end_ p)%nat → ¬ hasFlag CharFlags.Decimal char) ∧
  tokenValue p' =
    (if big then ANum (parseInt (toString v))
     else if test k (Z.lor NumberKind.ImplicitOctal
                       (Z.lor NumberKind.Binary
                          (Z.lor NumberKind.Hex NumberKind.Octal)))
     then any_of_acc v
     else if test k NumberKind.DecimalWithLeadingZero
     then ANum (parseFloat (substring (source p) (tokenIndex p) (index p)))
     else ANum (toNumber v)).
Proof.
  unfold finishNumber. intros H.
  destruct (_ || _) eqn:Hg; [done|].
  apply orb_false_iff in Hg as [Hd Hid].
  assert (Hdec : (index p < end_ p)%nat → ¬ hasFlag CharFlags.Decimal char).
  { intros Hlt Hf. apply Nat.ltb_lt in Hlt. rewrite Hlt in Hd. simpl in Hd.
    apply classify_None in Hf; [done|]. by destruct (classify _ _). }
  destruct big.
  - injection H as <- <-. simpl. done.
  - injection H as <- <-. simpl. destruct (test ctx _); simpl; done.
Qed.

Lemma scanNumber_general p ctx kind p' tok :
  scanNumber unicodeIDStart p ctx kind = Return (p', tok) →
  ∃ p2 char k v big,
    sameToken p p2 ∧
    finishNumber unicodeIDStart p2 ctx k char v big = Return (p', tok) ∧
    (nextCP_ p = source p !! index p →
     at_ p2 char ∧
     (hasFlag CharFlags.Decimal (nextCP_ p) →
      sepsOK (sepFlag p) (source p) (index p) (index p) (index p2))).
Proof.
  unfold scanNumber, scanNumberFuel. intros H. inv_bind H as r H1.
  apply scanMantissa_general in H1 as (p1 & c1 & v1 & k1 & -> & F1 & Hspec).
  unfold scanSuffixAndFinish in H. inv_bind H as [[[p2 c2] v2] big] H2.
  pose proof (scanSuffix_frame _ _ _ _ _ _ _ _ _ H2) as F2.
  exists p2, c2, k1, v2, big. split_and!; [by eapply sameToken_trans | done |].
  intros Hsync. destruct (Hspec Hsync) as [Hat1 Hseps1].
  eapply (scanSuffix_spec _ _ _ _ _ _ _ _ _ (index p)) in H2 as [Hat2 Hseps2];
    [| done | by destruct F1].
  split; [done|]. intros Hd. eapply sepsOK_app; [by apply Hseps1|].
  apply sepsOK_sepFlag. destruct F1 as [<- _ _ _ _ _]. done.
Qed.

(** The context matters through its [Strict] and [OptionsRaw] bits only. *)
Lemma scanNumber_context p ctx ctx' kind :
  test ctx Context.Strict = test ctx' Context.Strict →
  test ctx Context.OptionsRaw = test ctx' Context.OptionsRaw →
  scanNumber unicodeIDStart p ctx kind = scanNumber unicodeIDStart p ctx' kind.
Proof.
  intros Hs Hr.
  assert (Hfin : ∀ p k c v b, finishNumber unicodeIDStart p ctx k c v b
                              = finishNumber unicodeIDStart p ctx' k c v b).
  { intros. unfold finishNumber. by rewrite Hr. }
  assert (Hsf : ∀ f p k c v, scanSuffixAndFinish unicodeIDStart f p ctx k c v
                             = scanSuffixAndFinish unicodeIDStart f p ctx' k c v).
  { intros. unfold scanSuffixAndFinish.
    destruct (scanSuffix _ _ _ _ _) as [[[[? ?] ?] ?]| |]; simpl; auto. }
  assert (Hfp : ∀ f p c v a, scanFastPath unicodeIDStart f p ctx c v a
                             = scanFastPath unicodeIDStart f p ctx' c v a).
  { intros. unfold scanFastPath.
    destruct (scanFastDigits _ _ _ _ _ _) as [[[[[? ?] ?] ?] ?]| |]; simpl; auto.
    by rewrite Hr. }
  assert (Hdp : ∀ f p k c v s a, scanDecimalPart unicodeIDStart f p ctx k c v s a
                                 = scanDecimalPart unicodeIDStart f p ctx' k c v s a).
  { intros. unfold scanDecimalPart. by rewrite Hfp. }
  assert (Hlz : ∀ f p k v s a, scanLeadingZero f p ctx k v s a
                               = scanLeadingZero f p ctx' k v s a).
  { intros. unfold scanLeadingZero. by rewrite Hs. }
  unfold scanNumber, scanNumberFuel, scanMantissa.
  rewrite Hlz.
  destruct (test kind NumberKind.Float).
  - destruct (scanDecimalDigitsOrSeparator _ _ _) as [[? ?]| |]; simpl; auto.
    destruct (decide _); simpl; auto.
  - destruct (if decide _ then _ else _) as [[[[[[? ?] ?] ?] ?] ?]| |]; simpl; auto.
    rewrite Hdp. destruct (scanDecimalPart _ _ _ _ _ _ _ _ _) as [[?|[[[? ?] ?] ?]]| |];
      simpl; auto.
Qed.

Lemma scanNumber_contextOf p ctx kind :
  scanNumber unicodeIDStart p ctx kind =
  scanNumber unicodeIDStart p
    (contextOf (test ctx Context.Strict) (test ctx Context.OptionsRaw)) kind.
Proof.
  apply scanNumber_context;
    destruct (test ctx Context.Strict), (test ctx Context.OptionsRaw); reflexivity.
Qed.

Ltac each_context ctx :=
  rewrite !(scanNumber_contextOf _ ctx);
  destruct (test ctx Context.Strict), (test ctx Context.OptionsRaw).

(** C3 (amended): a successful scan stores the raw source slice of the
    literal in [parser.tokenRaw] when it returns a BigIntLiteral (whatever
    the context) or when the OptionsRaw bit is set; a NumericLiteral scanned
    without OptionsRaw leaves [parser.tokenRaw] unchanged. *)
Theorem tokenRaw_stored p ctx kind p' tok :
  scanNumber unicodeIDStart p ctx kind = Return (p', tok) →
  (tok = BigIntLiteral ∨ test ctx Context.OptionsRaw = true →
   tokenRaw p' = slice (source p) (tokenIndex p) (index p')) ∧
  (tok = NumericLiteral → test ctx Context.OptionsRaw = false →
   tokenRaw p' = tokenRaw p).
Proof.
  intros H. apply scanNumber_general in H as (p2 & char & k & v & big & F & H & _).
  apply finishNumber_inv in H as (_ & Hi & _ & _ & _ & -> & Hraw & _).
  destruct F as [Hsrc _ Hti _ Hr _]. rewrite Hraw, Hsrc, Hti, Hr, Hi. split.
  - intros [Hb|Ho].
    + by destruct big.
    + rewrite Ho. by destruct big.
  - intros Hb Ho. rewrite Ho. by destruct big.
Qed.

(** C7: when the numeral is complete (mantissa, then BigInt suffix or
    exponent) and the code point that follows it is an identifier start or
    a decimal digit, [scanNumber] throws IDStartAfterNumber; accordingly it
    never returns a token with the cursor left on such a code point; so for
    [3in], [1.5x] and [0b12]. *)
Theorem follower_rejected p ctx kind :
  end_ p = length (source p) → nextCP_ p = source p !! index p →
  (∀ p1 char v k p2 char2 v2 big,
     scanMantissa unicodeIDStart (length (source p) + 2) p ctx kind
       = Return (inr (p1, char, v, k)) →
     scanSuffix (length (source p) + 2) p1 k char v = Return (p2, char2, v2, big) →
     isIdentifierStart unicodeIDStart char2 = true ∨ hasFlag CharFlags.Decimal char2 →
     scanNumber unicodeIDStart p ctx kind = Throw IDStartAfterNumber) ∧
  (∀ p' tok,
     scanNumber unicodeIDStart p ctx kind = Return (p', tok) →
     isIdentifierStart unicodeIDStart (source p !! index p') = false ∧
     ¬ hasFlag CharFlags.Decimal (source p !! index p')) ∧
  scanNumber unicodeIDStart (startOf "3in") ctx NumberKind.Decimal
    = Throw IDStartAfterNumber ∧
  scanNumber unicodeIDStart (startOf "1.5x") ctx NumberKind.Decimal
    = Throw IDStartAfterNumber ∧
  scanNumber unicodeIDStart (startOf "0b12") ctx NumberKind.Decimal
    = Throw IDStartAfterNumber.
Proof.
  intros Hend Hsync. split_and!; [| | each_context ctx; by vm_compute..].
  - intros p1 char v k p2 char2 v2 big H1 H2 Hbad.
    unfold scanNumber, scanNumberFuel. rewrite H1. simpl.
    unfold scanSuffixAndFinish. rewrite H2. simpl.
    apply scanMantissa_general in H1 as (? & ? & ? & ? & [= <- <- <- <-] & F1 & Hspec).
    destruct (Hspec Hsync) as [Hat1 _].
    pose proof (scanSuffix_frame _ _ _ _ _ _ _ _ _ H2) as F2.
    eapply (scanSuffix_spec _ _ _ _ _ _ _ _ _ 0%nat) in H2 as [[_ Hat2] _];
      [| done | lia].
    unfold finishNumber. destruct Hbad as [->|Hd].
    + by rewrite orb_true_r.
    + destruct Hd as (c & -> & Hc). unfold classify. rewrite Hc.
      symmetry in Hat2. apply lookup_lt_Some in Hat2.
      destruct F1 as [Hs1 He1 _ _ _ _], F2 as [Hs2 He2 _ _ _ _].
      rewrite Hs2, Hs1 in Hat2. rewrite He2, He1, Hend.
      apply Nat.ltb_lt in Hat2. rewrite Hat2. done.
  - intros p' tok H.
    apply scanNumber_general in H as (p2 & char & k & v & big & F & H & Hspec).
    destruct (Hspec Hsync) as [[_ Hat2] _].
    apply finishNumber_inv in H as (_ & Hi & _ & _ & _ & _ & _ & Hid & Hdec & _).
    destruct F as [Hs He _ _ _ _]. rewrite Hi, <- Hs, <- Hat2. split; [done|].
    intros Hd. apply Hdec; [|done]. destruct Hd as (c & -> & _).
    symmetry in Hat2. apply lookup_lt_Some in Hat2. rewrite He, Hend, <- Hs. done.
Qed.

Lemma isIdentifierStart_Underscore : isIdentifierStart unicodeIDStart (Some 95) = true.
Proof. reflexivity. Qed.

(** C5: entered on a decimal digit, [scanNumber] returns or throws, and
    when it returns every [_] of the scanned literal stands between two
    digits of the literal (hexadecimal digits in a [0x] literal, decimal
    digits otherwise) and no [_] follows the literal: a leading, trailing or
    doubled separator, in the integer part, after a radix prefix, in the
    fraction or in the exponent, makes it throw.  [1_000_000] scans to
    1000000. *)
Theorem separators_rejected p ctx kind :
  nextCP_ p = source p !! index p → hasFlag CharFlags.Decimal (nextCP_ p) →
  match scanNumber unicodeIDStart p ctx kind with
  | Return (p', tok) =>
      sepsOK (sepFlag p) (source p) (index p) (index p) (index p') ∧
      source p !! index p' ≠ Some 95
  | Throw _ => True
  | OutOfFuel => False
  end ∧
  (∃ p', scanNumber unicodeIDStart (startOf "1_000_000") ctx NumberKind.Decimal
           = Return (p', NumericLiteral) ∧ tokenValue p' = num 1000000) ∧
  scanNumber unicodeIDStart (startOf "1__0") ctx NumberKind.Decimal
    = Throw ContinuousNumericSeparator ∧
  scanNumber unicodeIDStart (startOf "1_") ctx NumberKind.Decimal
    = Throw TrailingNumericSeparator ∧
  scanNumber unicodeIDStart (startOf "0x_1") ctx NumberKind.Decimal
    = Throw ContinuousNumericSeparator ∧
  scanNumber unicodeIDStart (startOf "0b1_") ctx NumberKind.Decimal
    = Throw TrailingNumericSeparator ∧
  scanNumber unicodeIDStart (startOf "0o1__7") ctx NumberKind.Decimal
    = Throw ContinuousNumericSeparator ∧
  scanNumber unicodeIDStart (startOf "0_1") ctx NumberKind.Decimal
    = Throw Unexpected ∧
  scanNumber unicodeIDStart (startOf "1._5") ctx NumberKind.Decimal
    = Throw Unexpected ∧
  scanNumber unicodeIDStart (startOf "1.5_") ctx NumberKind.Decimal
    = Throw TrailingNumericSeparator ∧
  scanNumber unicodeIDStart (startOf "1e_5") ctx NumberKind.Decimal
    = Throw MissingExponent ∧
  scanNumber unicodeIDStart (startOf "1e5__0") ctx NumberKind.Decimal
    = Throw ContinuousNumericSeparator.
Proof.
  intros Hsync Hd. split.
  2:{ each_context ctx;
        (split; [eexists; split; vm_compute; reflexivity | by vm_compute]). }
  destruct (scanNumber unicodeIDStart p ctx kind) as [[p' tok]|e|] eqn:H; [|done|].
  - apply scanNumber_general in H as (p2 & char & k & v & big & F & H & Hspec).
    destruct (Hspec Hsync) as [[_ Hat2] Hseps].
    apply finishNumber_inv in H as (_ & Hi & _ & _ & _ & _ & _ & Hid & _).
    destruct F as [Hs _ _ _ _ _]. rewrite Hi. split; [by apply Hseps|].
    rewrite <- Hs, <- Hat2. intros ->. by rewrite isIdentifierStart_Underscore in Hid.
  - by apply scanNumber_total in H.
Qed.

End ScannerProperties.

Ltac each_context ctx :=
  rewrite !(scanNumber_contextOf _ _ ctx);
  destruct (test ctx Context.Strict), (test ctx Context.OptionsRaw).


Lemma land_32 c : Z.land c 32 = if Z.testbit c 5 then 32 else 0.
Proof.
  apply Z.bits_inj'. intros n Hn. rewrite Z.land_spec.
  change 32 with (2 ^ 5). rewrite Z.pow2_bits_eqb by lia.
  destruct (Z.eqb_spec 5 n) as [<-|Hne].
  - destruct (Z.testbit c 5); reflexivity.
  - rewrite andb_false_r. destruct (Z.testbit c 5); [|by rewrite Z.bits_0].
    symmetry. apply Z.pow2_bits_false. lia.
Qed.
Lemma lor_32 c : Z.lor c 32 = c ∨ Z.lor c 32 = c + 32.
Proof.
  pose proof (Z.add_lor_land c 32) as H. rewrite land_32 in H.
  destruct (Z.testbit c 5); lia.
Qed.

Lemma roundInt_small z : z < 9007199254740992 → roundInt z = Fin z.
Proof.
  intros H. unfold roundInt. change (2 ^ 53) with 9007199254740992.
  by apply Z.ltb_lt in H as ->.
Qed.

Lemma mul_add_small v k d :
  0 ≤ v → 0 < k → 0 ≤ d → v * k + d < 9007199254740992 →
  add (mul (Fin v) k) d = Fin (v * k + d).
Proof.
  intros Hv Hk Hd H. unfold mul. rewrite roundInt_small by nia.
  unfold add. by rewrite roundInt_small.
Qed.

Lemma lookup_drop_0 (src : jsstring) i l : drop i src = l → src !! i = l !! 0%nat.
Proof. intros <-. rewrite lookup_drop. f_equal. lia. Qed.

Lemma drop_step (src : jsstring) i c l : drop i src = c :: l → drop (S i) src = l.
Proof.
  intros H. pose proof (lookup_drop_0 _ _ _ H) as Hc. simpl in Hc.
  rewrite (drop_S _ _ _ Hc) in H. by injection H.
Qed.

Lemma foldl_mathStep_ge radix isDig :
  0 < radix → (∀ c, isDig c = true → 0 ≤ digitValue c) →
  ∀ body a v, validBody isDig a body = true → 0 ≤ v →
  v ≤ foldl (mathStep radix) v body.
Proof.
  intros Hr Hd. induction body as [|c body IH]; intros a v Hv H0; simpl in *; [lia|].
  unfold mathStep at 2. destruct (c =? 95).
  - apply andb_true_iff in Hv as [_ Hv]. eauto.
  - apply andb_true_iff in Hv as [Hc Hv]. specialize (Hd _ Hc).
    etrans; [|eapply IH; [done | nia]]. nia.
Qed.

Lemma scanRadixDigits_run flag radix toDigit isDig :
  0 < radix →
  (∀ c, isDig c = true →
        test (CharTypes c) flag = true ∧ c ≠ 95 ∧ 0 ≤ digitValue c ∧
        toDigit c = digitValue c) →
  ∀ body p v d a fuel rest,
    drop (index p) (source p) = body ++ rest →
    validBody isDig a body = true →
    classify (rest !! 0%nat) (Z.lor flag CharFlags.Underscore) = None →
    (length body < fuel)%nat →
    0 ≤ v → foldl (mathStep radix) v body < 9007199254740992 →
    ∃ p' d',
      scanRadixDigits fuel flag radix toDigit p (source p !! index p) (Fin v) d a
        = Return (p', rest !! 0%nat, Fin (foldl (mathStep radix) v body), d', true) ∧
      index p' = (index p + length body)%nat ∧ (d ≤ d')%nat ∧
      (a = false → (d < d')%nat).
Proof.
  intros Hr Hdig. induction body as [|c body IH];
    intros p v d a fuel rest Hsrc Hv Hrest Hfuel H0 Hb.
  - simpl in *. subst a. rewrite (lookup_drop_0 _ _ _ Hsrc).
    exists p, d. destruct fuel; simpl; rewrite Hrest; (split_and!; [done | lia | lia | done]).
  - destruct fuel as [|fuel]; [simpl in Hfuel; lia|].
    pose proof (lookup_drop_0 _ _ _ Hsrc) as Hc. simpl in Hc.
    pose proof (drop_step _ _ _ _ Hsrc) as Hsrc'.
    simpl in Hfuel. cbn [scanRadixDigits]. rewrite Hc.
    cbn [validBody] in Hv. cbn [foldl] in Hb |- *. unfold mathStep in Hb at 2.
    unfold mathStep at 2.
    destruct (c =? 95) eqn:Hu.
    + apply Z.eqb_eq in Hu as ->. apply andb_true_iff in Hv as [-> Hv].
      change (classify (Some 95) _) with
        (if test (CharTypes 95) (Z.lor flag CharFlags.Underscore) then Some 95 else None).
      rewrite test_lor, CharTypes_Underscore, orb_true_r.
      edestruct (IH (nextCP p).1 v d false fuel rest) as (p' & d' & Hrun & Hi & Hd & _);
        [done.. | lia | done | done |].
      unfold nextCP, charCodeAt in *. cbn in Hrun, Hi |- *. rewrite Hrun.
      exists p', d'. split_and!; [done | lia | done | done].
    + apply andb_true_iff in Hv as [Hc' Hv].
      destruct (Hdig _ Hc') as (Hfl & Hne & Hpos & Hto).
      unfold classify. rewrite test_lor, Hfl. cbn [orb].
      change Chars.Underscore with 95. rewrite Hu.
      assert (Hle := foldl_mathStep_ge radix isDig Hr
                       (λ c H, proj1 (proj2 (proj2 (Hdig c H)))) body true
                       (v * radix + digitValue c) Hv ltac:(nia)).
      rewrite Hto, mul_add_small by (lia || nia).
      edestruct (IH (nextCP p).1 (v * radix + digitValue c) (S d) true fuel rest)
        as (p' & d' & Hrun & Hi & Hd & _);
        [done.. | lia | nia | done |].
      unfold nextCP, charCodeAt in *. cbn in Hrun, Hi |- *. rewrite Hrun.
      exists p', d'. split_and!; [done | lia | lia | lia].
Qed.

Lemma toHex_digitValue c : isHexDigit c = true → toHex c = digitValue c.
Proof.
  unfold isHexDigit, isDigit, toHex, digitValue, isDigit. intros H.
  change Chars.UpperA with 65. change Chars.Zero with 48.
  destruct ((48 <=? c) && (c <=? 57)) eqn:Hd; simpl in H.
  - bool_lia. destruct (c <? 65) eqn:E; bool_lia.
  - destruct ((65 <=? c) && (c <=? 70)) eqn:Hu; simpl in H.
    + assert (c = 65 ∨ c = 66 ∨ c = 67 ∨ c = 68 ∨ c = 69 ∨ c = 70) as Hc by bool_lia.
      destruct Hc as [->|[->|[->|[->|[->| ->]]]]]; reflexivity.
    + assert (c = 97 ∨ c = 98 ∨ c = 99 ∨ c = 100 ∨ c = 101 ∨ c = 102) as Hc by bool_lia.
      destruct Hc as [->|[->|[->|[->|[->| ->]]]]]; reflexivity.
Qed.

Lemma isDigitOf_spec radix c :
  isDigitOf radix c = true → c ≠ 95 ∧ 0 ≤ digitValue c.
Proof.
  unfold isDigitOf, isHexDigit, isOctalDigit, isBinaryDigit, digitValue, isDigit.
  intros H. repeat case_match; bool_lia.
Qed.

Section RunProperties.
Variable unicodeIDStart : Z → bool.

Lemma not_IDStart_suffix char :
  isIdentifierStart unicodeIDStart char = false →
  bool_decide (char = Some Chars.LowerN) = false ∧
  (lower char =? Chars.LowerE) = false.
Proof.
  intros H. split.
  - apply bool_decide_eq_false. intros ->. done.
  - apply Z.eqb_neq. intros He. destruct char as [c|]; [|done]. simpl in He.
    change Chars.LowerE with 101 in He.
    destruct (lor_32 c) as [E|E]; rewrite E in He.
    + subst c. done.
    + assert (c = 69) as -> by lia. done.
Qed.

Lemma suffix_finish_plain fuel p ctx k char v :
  isIdentifierStart unicodeIDStart char = false →
  classify char CharFlags.Decimal = None →
  ∃ p', scanSuffixAndFinish unicodeIDStart fuel p ctx k char v
          = Return (p', NumericLiteral) ∧
        finishNumber unicodeIDStart p ctx k char v false = Return (p', NumericLiteral).
Proof.
  intros Hid Hd. unfold scanSuffixAndFinish, scanSuffix.
  destruct (not_IDStart_suffix _ Hid) as [-> ->]. simpl.
  unfold finishNumber. rewrite Hd, Hid, andb_false_r. simpl. eauto.
Qed.

Lemma scanRadix_run flag radix toDigit isDig p body rest fuel :
  0 < radix →
  (∀ c, isDig c = true →
        test (CharTypes c) flag = true ∧ c ≠ 95 ∧ 0 ≤ digitValue c ∧
        toDigit c = digitValue c) →
  drop (S (index p)) (source p) = body ++ rest →
  validBody isDig false body = true →
  classify (rest !! 0%nat) (Z.lor flag CharFlags.Underscore) = None →
  (length body < fuel)%nat →
  mathValue radix body < 9007199254740992 →
  ∃ p', scanRadix fuel flag radix toDigit p (Fin 0) 0 false
          = Return (p', rest !! 0%nat, Fin (mathValue radix body), true) ∧
        index p' = (S (index p) + length body)%nat.
Proof.
  intros Hr Hdig Hsrc Hv Hrest Hfuel Hb. unfold scanRadix.
  edestruct (scanRadixDigits_run flag radix toDigit isDig Hr Hdig body (nextCP p).1
               0 0%nat false fuel rest) as (p' & d' & Hrun & Hi & _ & Hd);
    [done.. | lia | done |].
  unfold nextCP, charCodeAt in *. cbn in Hrun, Hi |- *. rewrite Hrun.
  specialize (Hd eq_refl). destruct d' as [|d']; [lia|]. simpl. eauto.
Qed.

Lemma plain_char c :
  isDigit c = false → isIdentifierStart unicodeIDStart (Some c) = false →
  isHexDigit c = false ∧ (c =? 95) = false.
Proof.
  unfold isIdentifierStart, isHexDigit. intros Hd Hid. rewrite Hd. simpl.
  destruct (c <=? 127) eqn:Hle.
  - rewrite CharTypes_IdentifierStart in Hid.
    split; [apply orb_false_iff; split; apply andb_false_iff|apply Z.eqb_neq]; bool_lia.
  - split; [apply orb_false_iff; split; apply andb_false_iff|apply Z.eqb_neq]; bool_lia.
Qed.

Lemma plain_char_classify flag char :
  flag = CharFlags.Hex ∨ flag = CharFlags.Octal ∨ flag = CharFlags.Binary ∨
  flag = CharFlags.Decimal →
  classify char CharFlags.Decimal = None →
  isIdentifierStart unicodeIDStart char = false →
  classify char (Z.lor flag CharFlags.Underscore) = None.
Proof.
  intros Hflag Hd Hid. destruct char as [c|]; [|done]. unfold classify in *.
  destruct (test (CharTypes c) CharFlags.Decimal) eqn:Hdec; [done|].
  rewrite CharTypes_Decimal in Hdec.
  destruct (plain_char c Hdec Hid) as [Hh Hu].
  rewrite test_lor, CharTypes_Underscore, Hu, orb_false_r.
  destruct Hflag as [->|[->|[->| ->]]].
  - by rewrite CharTypes_Hex, Hh.
  - rewrite CharTypes_Octal. unfold isOctalDigit, isDigit in *.
    destruct ((48 <=? c) && (c <=? 55)) eqn:E; [|done]. bool_lia.
  - rewrite CharTypes_Binary. unfold isBinaryDigit, isDigit in *.
    destruct ((48 <=? c) && (c <=? 49)) eqn:E; [|done]. bool_lia.
  - by rewrite CharTypes_Decimal, Hdec.
Qed.

Lemma radix_classes radix :
  radix = 16 ∨ radix = 8 ∨ radix = 2 →
  ∃ flag toDigit,
    (radix = 16 ∧ flag = CharFlags.Hex ∧ toDigit = toHex ∨
     radix = 8 ∧ flag = CharFlags.Octal ∧ toDigit = (λ c, c - Chars.Zero) ∨
     radix = 2 ∧ flag = CharFlags.Binary ∧ toDigit = (λ c, c - Chars.Zero)) ∧
    (∀ c, isDigitOf radix c = true →
          test (CharTypes c) flag = true ∧ c ≠ 95 ∧ 0 ≤ digitValue c ∧
          toDigit c = digitValue c).
Proof.
  intros [->|[->| ->]].
  - exists CharFlags.Hex, toHex. split; [by left |].
    intros c Hc. pose proof (isDigitOf_spec 16 c Hc) as [? ?].
    change (isHexDigit c = true) in Hc.
    split_and!; [by rewrite CharTypes_Hex | done | done |].
    by apply toHex_digitValue.
  - exists CharFlags.Octal, (λ c, c - Chars.Zero). split; [right; left; done |].
    intros c Hc. pose proof (isDigitOf_spec 8 c Hc) as [? ?].
    change (isOctalDigit c = true) in Hc.
    split_and!; [by rewrite CharTypes_Octal | done | done |].
    unfold digitValue, isDigit. unfold isOctalDigit in Hc.
    destruct ((48 <=? c) && (c <=? 57)) eqn:E; [done|]. bool_lia.
  - exists CharFlags.Binary, (λ c, c - Chars.Zero). split; [right; right; done |].
    intros c Hc. pose proof (isDigitOf_spec 2 c Hc) as [? ?].
    change (isBinaryDigit c = true) in Hc.
    split_and!; [by rewrite CharTypes_Binary | done | done |].
    unfold digitValue, isDigit. unfold isBinaryDigit in Hc.
    destruct ((48 <=? c) && (c <=? 57)) eqn:E; [done|]. bool_lia.
Qed.

Lemma radixOfPrefix_spec x radix :
  radixOfPrefix x = Some radix →
  Z.lor x 32 = 120 ∧ radix = 16 ∨ Z.lor x 32 = 111 ∧ radix = 8 ∨
  Z.lor x 32 = 98 ∧ radix = 2.
Proof.
  unfold radixOfPrefix. intros H. repeat case_match; simplify_eq; bool_lia.
Qed.

Lemma scanLeadingZero_radix_run fuel p ctx kind x body rest radix st :
  drop (index p) (source p) = 48 :: x :: body ++ rest →
  radixOfPrefix x = Some radix →
  validBody (isDigitOf radix) false body = true →
  endsNumeral unicodeIDStart rest →
  mathValue radix body < 9007199254740992 →
  (length body < fuel)%nat →
  ∃ p1 K,
    scanLeadingZero fuel p ctx kind (Fin 0) st false
      = Return (p1, rest !! 0%nat, Fin (mathValue radix body), K, st, true) ∧
    index p1 = (index p + 2 + length body)%nat ∧
    (K = NumberKind.Hex ∨ K = NumberKind.Octal ∨ K = NumberKind.Binary).
Proof.
  intros Hsrc Hx Hv [Hid Hdec] Hb Hfuel.
  pose proof (drop_step _ _ _ _ Hsrc) as Hsrc1.
  pose proof (drop_step _ _ _ _ Hsrc1) as Hsrc2.
  pose proof (lookup_drop_0 _ _ _ Hsrc1) as Hc1. simpl in Hc1.
  unfold scanLeadingZero. unfold nextCP at 1. cbn [fst snd index source].
  unfold charCodeAt at 1 2 3 4 5 6 7. rewrite Hc1. cbn [lower].
  apply radixOfPrefix_spec in Hx.
  assert (Hradix : radix = 16 ∨ radix = 8 ∨ radix = 2)
    by (destruct Hx as [[_ ->]|[[_ ->]|[_ ->]]]; auto).
  destruct (radix_classes radix Hradix) as (flag & toDigit & Hcase & Hdig).
  assert (Hr : 0 < radix) by lia.
  assert (Hex : classify (rest !! 0%nat) (Z.lor flag CharFlags.Underscore) = None).
  { apply plain_char_classify; [|done|done].
    destruct Hcase as [(_ & -> & _)|[(_ & -> & _)|(_ & -> & _)]]; auto. }
  edestruct (scanRadix_run flag radix toDigit (isDigitOf radix)
               (set_cursor p (S (index p)) (S (column p)) (Some x)) body rest fuel)
    as (p1 & Hrun & Hi); [done.. |].
  simpl in Hi.
  destruct Hx as [[Hl ->]|[[Hl ->]|[Hl ->]]]; rewrite Hl;
    destruct Hcase as [(? & -> & ->)|[(? & -> & ->)|(? & -> & ->)]]; try lia;
    cbn [Z.eqb Pos.eqb Chars.LowerX Chars.LowerO Chars.LowerB];
    rewrite Hrun; simpl; exists p1; eexists; (split_and!; [done | lia | eauto]).
Qed.

(** C1 (amended): a literal [0x...], [0o...] or [0b...] with at least one
    digit and no leading, trailing or doubled [_], followed by the end of
    the input or by a code point that neither starts an identifier nor is a
    decimal digit, scans to a NumericLiteral whose value is the value of the
    digits in the radix, separators ignored, provided that value is below
    2^53. *)
Theorem radix_literal_value p ctx kind x body rest radix :
  drop (index p) (source p) = 48 :: x :: body ++ rest →
  nextCP_ p = Some 48 →
  test kind NumberKind.Float = false →
  radixOfPrefix x = Some radix →
  validBody (isDigitOf radix) false body = true →
  endsNumeral unicodeIDStart rest →
  mathValue radix body < 9007199254740992 →
  ∃ p', scanNumber unicodeIDStart p ctx kind = Return (p', NumericLiteral) ∧
        tokenValue p' = num (mathValue radix body) ∧
        index p' = (index p + 2 + length body)%nat.
Proof.
  intros Hsrc Hn Hfloat Hx Hv Hends Hb.
  assert (Hfuel : (length body < length (source p) + 2)%nat).
  { apply (f_equal length) in Hsrc. rewrite length_drop in Hsrc. simpl in Hsrc.
    rewrite length_app in Hsrc. lia. }
  destruct (scanLeadingZero_radix_run _ p ctx kind x body rest radix false
              Hsrc Hx Hv Hends Hb Hfuel) as (p1 & K & Hrun & Hi & HK).
  destruct Hends as [Hid Hdec].
  destruct (suffix_finish_plain (length (source p) + 2) p1 ctx K (rest !! 0%nat)
              (AccNum (Fin (mathValue radix body))) Hid Hdec) as (p' & Hfin & Hinv).
  exists p'. unfold scanNumber, scanNumberFuel, scanMantissa.
  rewrite Hfloat, Hn. destruct (decide _) as [_|]; [|done].
  rewrite Hrun. cbn [mbind outcome_bind].
  assert (Hk : test K NumberKind.DecimalNumberKind = false)
    by (destruct HK as [->|[->| ->]]; reflexivity).
  unfold scanDecimalPart. rewrite Hk. cbn [mbind outcome_bind].
  split; [done|].
  apply finishNumber_inv in Hinv as (_ & -> & _ & _ & _ & _ & _ & _ & _ & ->).
  split; [|done]. destruct HK as [->|[->| ->]]; reflexivity.
Qed.

End RunProperties.

(** ** The exponent *)

Lemma bind_Throw {A B} (m : outcome A) (f : A → outcome B) e :
  m ≫= f = Throw e → m = Throw e ∨ ∃ a, m = Return a ∧ f a = Throw e.
Proof. destruct m; simpl; [eauto | intros [= ->]; eauto | done]. Qed.

Lemma scanDigitsLoop_throw fuel : ∀ p char a start ret e,
  scanDigitsLoop fuel p char a start ret = Throw e → e = ContinuousNumericSeparator.
Proof.
  induction fuel as [|fuel IH]; intros p char a start ret e H; simpl in H.
  - by destruct (classify _ _).
  - destruct (classify _ _) as [c|]; [|done].
    destruct (c =? Chars.Underscore).
    + destruct (decide _); [by injection H | by eapply IH].
    + by eapply IH.
Qed.

Lemma scanDecimalDigitsOrSeparator_throw fuel p char e :
  scanDecimalDigitsOrSeparator fuel p char = Throw e →
  e = ContinuousNumericSeparator ∨ e = TrailingNumericSeparator.
Proof.
  unfold scanDecimalDigitsOrSeparator. intros H.
  apply bind_Throw in H as [H|([[[p1 a1] st1] ret1] & _ & H)].
  - left. by eapply scanDigitsLoop_throw.
  - destruct a1; [|done]. right. by injection H.
Qed.

Section ExponentProperties.
Variable unicodeIDStart : Z → bool.

Lemma finishNumber_throw p ctx k char v big e :
  finishNumber unicodeIDStart p ctx k char v big = Throw e → e = IDStartAfterNumber.
Proof.
  unfold finishNumber. intros H. destruct (_ || _); [by injection H|].
  by destruct big.
Qed.

(** C8: once the mantissa is scanned and an exponent marker [e] or [E]
    follows it, [scanNumber] throws MissingExponent when the code point
    after the marker and its optional sign is not a decimal digit, and does
    not throw that error when it is one; so [1e], [1e+], [1E-] and [.5e]
    throw it, [1e5] and [1e+5] scan to 100000. *)
Theorem exponent_needs_digit p ctx kind p1 char v k :
  scanMantissa unicodeIDStart (length (source p) + 2) p ctx kind
    = Return (inr (p1, char, v, k)) →
  lower char = Chars.LowerE →
  let after := source p !! S (index p1) in
  let first := if classify after CharFlags.Exponent is Some _
               then source p !! S (S (index p1)) else after in
  (classify first CharFlags.Decimal = None →
   scanNumber unicodeIDStart p ctx kind = Throw MissingExponent) ∧
  (classify first CharFlags.Decimal ≠ None →
   scanNumber unicodeIDStart p ctx kind ≠ Throw MissingExponent) ∧
  scanNumber unicodeIDStart (startOf "1e") ctx NumberKind.Decimal
    = Throw MissingExponent ∧
  scanNumber unicodeIDStart (startOf "1e+") ctx NumberKind.Decimal
    = Throw MissingExponent ∧
  scanNumber unicodeIDStart (startOf "1E-") ctx NumberKind.Decimal
    = Throw MissingExponent ∧
  scanNumber unicodeIDStart (startOf "0.5ex") ctx NumberKind.Decimal
    = Throw MissingExponent ∧
  scanNumber unicodeIDStart (parserAt ".5e" 0 1) ctx NumberKind.Float
    = Throw MissingExponent ∧
  (∃ p', scanNumber unicodeIDStart (startOf "1e5") ctx NumberKind.Decimal
           = Return (p', NumericLiteral) ∧ tokenValue p' = num 100000) ∧
  (∃ p', scanNumber unicodeIDStart (startOf "1e+5") ctx NumberKind.Decimal
           = Return (p', NumericLiteral) ∧ tokenValue p' = num 100000).
Proof.
  intros Hm He after first.
  assert (Hsrc : source p1 = source p).
  { apply scanMantissa_general in Hm as (? & ? & ? & ? & [= <- <- <- <-] & [] & _). done. }
  assert (Hn : bool_decide (char = Some Chars.LowerN) = false).
  { apply bool_decide_eq_false. intros ->. done. }
  assert (Hrun : scanNumber unicodeIDStart p ctx kind =
                 '(p2, c2, v2, big) ← scanSuffix (length (source p) + 2) p1 k char v;
                 finishNumber unicodeIDStart p2 ctx k c2 v2 big).
  { unfold scanNumber, scanNumberFuel. by rewrite Hm. }
  rewrite Hrun. unfold scanSuffix. rewrite Hn, He.
  unfold nextCP, charCodeAt.
  cbn -[scanDecimalDigitsOrSeparator finishNumber classify substring].
  rewrite !Hsrc. fold after.
  split_and!.
  - subst first. destruct (classify after CharFlags.Exponent); simpl; intros ->; done.
  - subst first. destruct (classify after CharFlags.Exponent); simpl;
      (destruct (classify _ CharFlags.Decimal); [|done]); intros _ H;
      (apply bind_Throw in H as [H|([[[p2 c2] v2] big] & _ & H)];
       [|by apply finishNumber_throw in H]);
      (apply bind_Throw in H as [H|([p2 s2] & _ & H)]; [|done]);
      by apply scanDecimalDigitsOrSeparator_throw in H as [?|?].
  - each_context ctx; by vm_compute.
  - each_context ctx; by vm_compute.
  - each_context ctx; by vm_compute.
  - each_context ctx; by vm_compute.
  - each_context ctx; by vm_compute.
  - each_context ctx; eexists; split; vm_compute; reflexivity.
  - each_context ctx; eexists; split; vm_compute; reflexivity.
Qed.
End ExponentProperties.

(** ** Decimal digits and the leading zero *)

Lemma scanDigitsLoop_digits : ∀ ds p a start ret fuel rest,
  drop (index p) (source p) = ds ++ rest →
  forallb isDigit ds = true →
  classify (rest !! 0%nat) (Z.lor CharFlags.Decimal CharFlags.Underscore) = None →
  (length ds < fuel)%nat →
  ∃ p', scanDigitsLoop fuel p (source p !! index p) a start ret
          = Return (p', if ds is [] then a else false, start, ret) ∧
        index p' = (index p + length ds)%nat ∧
        nextCP_ p' = (if ds is [] then nextCP_ p else rest !! 0%nat).
Proof.
  induction ds as [|c ds IH]; intros p a start ret fuel rest Hsrc Hds Hrest Hfuel.
  - simpl in *. rewrite (lookup_drop_0 _ _ _ Hsrc).
    exists p. destruct fuel; simpl; rewrite Hrest; (split_and!; [done | lia | done]).
  - destruct fuel as [|fuel]; [simpl in Hfuel; lia|].
    pose proof (lookup_drop_0 _ _ _ Hsrc) as Hc. simpl in Hc.
    pose proof (drop_step _ _ _ _ Hsrc) as Hsrc'.
    simpl in Hfuel, Hds. apply andb_true_iff in Hds as [Hd Hds].
    cbn [scanDigitsLoop]. rewrite Hc. unfold classify.
    rewrite test_lor, CharTypes_Decimal, Hd. cbn [orb].
    assert (Hu : (c =? Chars.Underscore) = false).
    { apply Z.eqb_neq. intros ->. done. }
    rewrite Hu.
    edestruct (IH (nextCP p).1 false start ret fuel rest) as (p' & Hrun & Hi & Hn);
      [done.. | lia |].
    pose proof (lookup_drop_0 _ _ _ Hsrc') as Hc'.
    unfold nextCP, charCodeAt in *. cbn in Hrun, Hi, Hn |- *. rewrite Hrun.
    exists p'. split_and!; [by destruct ds | lia |].
    rewrite Hn. destruct ds; [by rewrite Hc'|done].
Qed.

Lemma scanDecimalDigitsOrSeparator_digits ds p fuel rest :
  drop (index p) (source p) = ds ++ rest →
  forallb isDigit ds = true → ds ≠ [] →
  classify (rest !! 0%nat) (Z.lor CharFlags.Decimal CharFlags.Underscore) = None →
  (length ds < fuel)%nat →
  ∃ p', scanDecimalDigitsOrSeparator fuel p (source p !! index p)
          = Return (p', ds) ∧
        index p' = (index p + length ds)%nat ∧ nextCP_ p' = rest !! 0%nat.
Proof.
  intros Hsrc Hds Hne Hrest Hfuel. unfold scanDecimalDigitsOrSeparator.
  destruct (scanDigitsLoop_digits ds p false (index p) [] fuel rest)
    as (p' & Hrun & Hi & Hn); [done..|].
  rewrite Hrun. simpl. exists p'. destruct ds as [|c ds]; [done|].
  split_and!; [|done|done]. do 2 f_equal.
  pose proof (scanDigitsLoop_frame _ _ _ _ _ _ _ _ _ _ Hrun) as [-> _ _ _ _ _].
  unfold substring, slice. rewrite Hi, Nat.min_l, Nat.max_r by lia.
  rewrite Hsrc. replace (index p + length (c :: ds) - index p)%nat
    with (length (c :: ds)) by lia.
  by rewrite take_app_length.
Qed.

Lemma scanImplicitOctal_run : ∀ ds p v k st fuel rest,
  drop (index p) (source p) = ds ++ rest →
  forallb isDigit ds = true → existsb is89 ds = true →
  (length ds < fuel)%nat →
  ∃ p' c v' ds2,
    scanImplicitOctal fuel p (source p !! index p) v k st
      = Return (p', Some c, v', NumberKind.DecimalWithLeadingZero, false) ∧
    source p !! index p' = Some c ∧
    drop (index p') (source p) = ds2 ++ rest ∧
    forallb isDigit ds2 = true ∧ ds2 ≠ [] ∧
    (index p' + length ds2 = index p + length ds)%nat ∧
    flags p' = flags p.
Proof.
  induction ds as [|c ds IH]; intros p v k st fuel rest Hsrc Hds H89 Hfuel; [done|].
  destruct fuel as [|fuel]; [simpl in Hfuel; lia|].
  pose proof (lookup_drop_0 _ _ _ Hsrc) as Hc. simpl in Hc.
  pose proof (drop_step _ _ _ _ Hsrc) as Hsrc'.
  simpl in Hfuel, Hds, H89. apply andb_true_iff in Hds as [Hd Hds].
  cbn [scanImplicitOctal]. rewrite Hc. unfold classify.
  rewrite CharTypes_Decimal, Hd, CharTypes_ImplicitOctalDigits.
  fold (is89 c). destruct (is89 c) eqn:Hc89.
  - exists p, c, v, (c :: ds). split_and!; try done. simpl. by rewrite Hd.
  - simpl in H89.
    edestruct (IH (nextCP p).1 (add (mul v 8) (c - Chars.Zero)) k st fuel rest)
      as (p' & c' & v' & ds2 & Hrun & Hc' & Hsrc2 & Hds2 & Hne & Hi & Hfl); [done.. | lia |].
    unfold nextCP, charCodeAt in *. cbn in Hrun, Hi, Hc', Hsrc2, Hfl |- *. rewrite Hrun.
    exists p', c', v', ds2. split_and!; try done. lia.
Qed.

Lemma digitsValue_zero ds : digitsValue (48 :: ds) = digitsValue ds.
Proof. reflexivity. Qed.

Lemma takeDigits_all ds : forallb isDigit ds = true → takeDigits ds = (ds, []).
Proof.
  induction ds as [|c ds IH]; [done|]. simpl. intros [Hc Hds]%andb_true_iff.
  by rewrite Hc, IH.
Qed.

Lemma parseDecimalPrefix_digits ds :
  forallb isDigit ds = true → ds ≠ [] →
  parseDecimalPrefix ds = Some (digitsValue ds, 0, []).
Proof.
  intros Hds Hne. unfold parseDecimalPrefix. rewrite (takeDigits_all _ Hds).
  destruct ds as [|c ds]; [done|]. by rewrite app_nil_r.
Qed.

Lemma decimalToNumber_int m : decimalToNumber m 0 = Whole (roundInt m).
Proof.
  unfold decimalToNumber. destruct (m =? 0) eqn:E.
  - by apply Z.eqb_eq in E as ->.
  - simpl. by rewrite Z.mul_1_r.
Qed.

Lemma parseFloat_digits ds :
  forallb isDigit ds = true → ds ≠ [] →
  parseFloat ds = Whole (roundInt (digitsValue ds)).
Proof.
  intros Hds Hne. unfold parseFloat. rewrite (parseDecimalPrefix_digits _ Hds Hne).
  case_decide as E; [|apply decimalToNumber_int].
  destruct ds as [|c ds]; [done|]. simpl in Hds. apply andb_true_iff in Hds as [Hc _].
  change infinityText with (73 :: lit "nfinity") in E. simpl in E.
  injection E as -> _. done.
Qed.

Lemma stringToNumber_digits ds :
  forallb isDigit ds = true → ds ≠ [] →
  stringToNumber ds = Whole (roundInt (digitsValue ds)).
Proof.
  intros Hds Hne. unfold stringToNumber. rewrite (parseDecimalPrefix_digits _ Hds Hne).
  case_decide; [done|]. case_decide as E; [|apply decimalToNumber_int].
  subst ds. done.
Qed.

Lemma lower_digit c k : isDigit c = true → 90 ≤ k → (Z.lor c 32 =? k) = false.
Proof.
  intros [? ?]%isDigit_spec Hk. apply Z.eqb_neq. destruct (lor_32 c); lia.
Qed.

Section LeadingZero.
Variable unicodeIDStart : Z → bool.

Lemma scanDecimalTail_digits ds p k v fuel rest :
  drop (index p) (source p) = ds ++ rest →
  forallb isDigit ds = true → ds ≠ [] →
  endsNumeral unicodeIDStart rest → rest !! 0%nat ≠ Some Chars.Period →
  (length ds < fuel)%nat →
  ∃ p', scanDecimalTail fuel p k (source p !! index p) v
          = Return (p', rest !! 0%nat, addString (AccNum v) ds, k) ∧
        index p' = (index p + length ds)%nat.
Proof.
  intros Hsrc Hds Hne [Hid Hdec] Hdot Hfuel. unfold scanDecimalTail.
  destruct (scanDecimalDigitsOrSeparator_digits ds p fuel rest)
    as (p' & Hrun & Hi & Hn); [done.. | | done |].
  { apply (plain_char_classify unicodeIDStart); auto. }
  rewrite Hrun. simpl. rewrite Hn. destruct (decide _); [done|]. eauto.
Qed.

Lemma leading_zero_tail fuel q ctx c v ds rest :
  source q !! index q = Some c →
  drop (index q) (source q) = ds ++ rest →
  forallb isDigit ds = true → ds ≠ [] →
  endsNumeral unicodeIDStart rest → rest !! 0%nat ≠ Some Chars.Period →
  (length ds < fuel)%nat →
  ∃ q',
    (r ← scanDecimalPart unicodeIDStart fuel q ctx
           NumberKind.DecimalWithLeadingZero (Some c) v false false;
     match r with
     | inl done => Return done
     | inr (parser, char, value, kind) =>
         scanSuffixAndFinish unicodeIDStart fuel parser ctx kind char value
     end) = Return (q', NumericLiteral) ∧
    tokenValue q' =
      ANum (parseFloat (substring (source q) (tokenIndex q) (index q + length ds))) ∧
    index q' = (index q + length ds)%nat.
Proof.
  intros Hc Hsrc Hds Hne Hends Hdot Hfuel.
  destruct (scanDecimalTail_digits ds q NumberKind.DecimalWithLeadingZero v fuel rest)
    as (q1 & Hrun & Hi); [done..|].
  rewrite Hc in Hrun.
  pose proof (scanDecimalTail_frame _ _ _ _ _ _ _ _ _ Hrun) as [Hs _ Ht _ _ _].
  destruct Hends as [Hid Hdec].
  destruct (suffix_finish_plain unicodeIDStart fuel q1 ctx
              NumberKind.DecimalWithLeadingZero (rest !! 0%nat)
              (addString (AccNum v) ds) Hid Hdec) as (q' & Hfin & Hinv).
  exists q'. unfold scanDecimalPart.
  change (test NumberKind.DecimalWithLeadingZero NumberKind.DecimalNumberKind) with true.
  cbn [mbind outcome_bind]. rewrite Hrun. cbn [mbind outcome_bind]. split; [done|].
  apply finishNumber_inv in Hinv as (_ & -> & _ & _ & _ & _ & _ & _ & _ & ->).
  simpl. by rewrite Hs, Ht, Hi.
Qed.

Lemma substring_token (src : jsstring) i l rest n :
  drop i src = l ++ rest → n = (i + length l)%nat → substring src i n = l.
Proof.
  intros Hsrc ->. unfold substring, slice. rewrite Nat.min_l, Nat.max_r by lia.
  rewrite Hsrc. replace (i + length l - i)%nat with (length l) by lia.
  by rewrite take_app_length.
Qed.

(** C6: a literal [0] followed by decimal digits of which one is [8] or
    [9], ended by the end of the input or by a code point that is neither
    an identifier start, a decimal digit nor a period, throws
    StrictOctalEscape in strict mode; outside strict mode it scans to a
    NumericLiteral whose value is [parseFloat] of the literal's source
    text, the decimal value of the digits; so [078] gives 78 and [08]
    gives 8. *)
Theorem leading_zero_decimal p ctx kind ds rest :
  drop (index p) (source p) = 48 :: ds ++ rest →
  nextCP_ p = Some 48 → tokenIndex p = index p →
  test kind NumberKind.Float = false →
  forallb isDigit ds = true → existsb is89 ds = true →
  endsNumeral unicodeIDStart rest → rest !! 0%nat ≠ Some Chars.Period →
  (test ctx Context.Strict = true →
   scanNumber unicodeIDStart p ctx kind = Throw StrictOctalEscape) ∧
  (test ctx Context.Strict = false →
   ∃ p', scanNumber unicodeIDStart p ctx kind = Return (p', NumericLiteral) ∧
         tokenValue p' = ANum (parseFloat (48 :: ds)) ∧
         parseFloat (48 :: ds) = Whole (roundInt (digitsValue ds)) ∧
         index p' = (index p + 1 + length ds)%nat) ∧
  (∃ p', scanNumber unicodeIDStart (startOf "078") Context.None NumberKind.Decimal
           = Return (p', NumericLiteral) ∧ tokenValue p' = num 78) ∧
  (∃ p', scanNumber unicodeIDStart (startOf "08") Context.None NumberKind.Decimal
           = Return (p', NumericLiteral) ∧ tokenValue p' = num 8).
Proof.
  intros Hsrc Hn Htok Hfloat Hds H89 Hends Hdot.
  split_and!; [| | eexists; split; vm_compute; reflexivity..].
  all: destruct ds as [|d0 ds']; [done|].
  all: pose proof (drop_step _ _ _ _ Hsrc) as Hsrc1.
  all: pose proof (lookup_drop_0 _ _ _ Hsrc1) as Hc1; simpl in Hc1.
  all: pose proof Hds as [Hd0 _]%andb_true_iff.
  all: unfold scanNumber, scanNumberFuel, scanMantissa.
  all: rewrite Hfloat, Hn; destruct (decide _) as [_|]; [|done].
  all: unfold scanLeadingZero, nextCP, charCodeAt.
  all: cbn [fst snd index source set_cursor]; rewrite !Hc1; cbn [lower].
  all: change Chars.LowerX with 120; change Chars.LowerO with 111;
       change Chars.LowerB with 98.
  all: rewrite !(lower_digit d0) by (done || lia).
  all: unfold classify; rewrite CharTypes_Octal, CharTypes_ImplicitOctalDigits.
  all: fold (is89 d0).
  - intros ->. destruct (isOctalDigit d0) eqn:Ho; [done|].
    assert (is89 d0 = true) as ->; [|done].
    unfold is89, isOctalDigit in *. apply isDigit_spec in Hd0.
    apply andb_true_iff. split; bool_lia; apply Z.leb_le; lia.
  - intros ->.
    assert (Hfuel : (length (d0 :: ds') < length (source p) + 2)%nat).
    { apply (f_equal length) in Hsrc. rewrite length_drop in Hsrc. simpl in *.
      rewrite length_app in Hsrc. lia. }
    assert (Htail : ∀ q c v ds2,
              source q = source p → tokenIndex q = tokenIndex p →
              source q !! index q = Some c →
              drop (index q) (source q) = ds2 ++ rest →
              forallb isDigit ds2 = true → ds2 ≠ [] →
              (index q + length ds2 = index p + 1 + length (d0 :: ds'))%nat →
              ∃ p',
                (r ← scanDecimalPart unicodeIDStart (length (source p) + 2) q ctx
                       NumberKind.DecimalWithLeadingZero (Some c) v false false;
                 match r with
                 | inl done => Return done
                 | inr (parser, char, value, kind) =>
                     scanSuffixAndFinish unicodeIDStart (length (source p) + 2)
                       parser ctx kind char value
                 end) = Return (p', NumericLiteral) ∧
                tokenValue p' = ANum (parseFloat (48 :: d0 :: ds')) ∧
                parseFloat (48 :: d0 :: ds') =
                  Whole (roundInt (digitsValue (d0 :: ds'))) ∧
                index p' = (index p + 1 + length (d0 :: ds'))%nat).
    { intros q c v ds2 Hsq Htq Hcq Hdq Hds2 Hne2 Hiq.
      assert (length ds2 < length (source p) + 2)%nat.
      { pose proof (f_equal length Hdq) as Hl.
        rewrite length_drop, length_app, Hsq in Hl. lia. }
      destruct (leading_zero_tail (length (source p) + 2) q ctx c v ds2 rest)
        as (p' & Hrun & Hval & Hi); [done.. |].
      exists p'. split_and!; [done | | | lia].
      - rewrite Hval, Hsq, Htq, Htok. do 2 f_equal.
        eapply (substring_token _ _ (48 :: d0 :: ds') rest); [done | simpl in *; lia].
      - rewrite parseFloat_digits; [by rewrite digitsValue_zero | exact Hds | done]. }
    destruct (isOctalDigit d0) eqn:Ho.
    + edestruct (scanImplicitOctal_run (d0 :: ds')
                   (set_cursor p (S (index p)) (S (column p)) (Some d0))
                   (Fin 0) NumberKind.ImplicitOctal false
                   (length (source p) + 2) rest)
        as (q & c & v' & ds2 & Hrun & Hc & Hsrc2 & Hds2 & Hne2 & Hi & _); [done..|].
      cbn [source index set_cursor] in Hrun, Hc, Hsrc2, Hi. rewrite Hc1 in Hrun.
      unfold charCodeAt in Hrun. rewrite Hrun. cbn [mbind outcome_bind].
      pose proof (scanImplicitOctal_frame _ _ _ _ _ _ _ _ _ _ _ Hrun) as [Hs _ Ht _ _ _].
      cbn [source tokenIndex set_cursor] in Hs, Ht.
      apply Htail with ds2; try done; try lia; by rewrite Hs.
    + assert (is89 d0 = true) as ->.
      { unfold is89, isOctalDigit in *. apply isDigit_spec in Hd0.
        apply andb_true_iff. split; bool_lia; apply Z.leb_le; lia. }
      cbn [mbind outcome_bind].
      apply Htail with (d0 :: ds'); try done; simpl; lia.
Qed.

End LeadingZero.

(** ** The fast path *)

Lemma substring_nil (src : jsstring) n : substring src n n = [].
Proof. unfold substring, slice. by rewrite Nat.min_id, Nat.max_id, Nat.sub_diag. Qed.

Lemma substring_snoc (src : jsstring) a n c :
  (a ≤ n)%nat → src !! n = Some c →
  substring src a (S n) = substring src a n ++ [c].
Proof.
  intros Ha Hc. unfold substring, slice.
  rewrite !Nat.min_l, !Nat.max_r by lia.
  replace (S n - a)%nat with (S (n - a)) by lia.
  apply take_S_r. rewrite lookup_drop. by replace (a + (n - a))%nat with n by lia.
Qed.

Lemma digitsValue_snoc ds c : digitsValue (ds ++ [c]) = 10 * digitsValue ds + (c - 48).
Proof. unfold digitsValue. by rewrite foldl_app. Qed.

Lemma digitsValue_bound ds :
  forallb isDigit ds = true → 0 ≤ digitsValue ds < 10 ^ Z.of_nat (length ds).
Proof.
  induction ds as [|c ds IH] using rev_ind; [done|].
  rewrite forallb_app, andb_true_iff. intros [Hds Hc]. simpl in Hc.
  rewrite andb_true_r in Hc. apply isDigit_spec in Hc.
  specialize (IH Hds). rewrite digitsValue_snoc, length_app. simpl.
  replace (Z.of_nat (length ds + 1)) with (Z.succ (Z.of_nat (length ds))) by lia.
  rewrite Z.pow_succ_r by lia. lia.
Qed.

Lemma digitsValue_small ds :
  forallb isDigit ds = true → (length ds ≤ 9)%nat →
  0 ≤ digitsValue ds < 1000000000.
Proof.
  intros Hds Hl. pose proof (digitsValue_bound ds Hds) as [? Hb]. split; [done|].
  eapply Z.lt_le_trans; [exact Hb|].
  change 1000000000 with (10 ^ 9). apply Z.pow_le_mono_r; lia.
Qed.

Lemma classify_Decimal_of_lor char :
  classify char (Z.lor CharFlags.Decimal CharFlags.Underscore) = None →
  classify char CharFlags.Decimal = None.
Proof.
  rewrite !classify_None, hasFlag_lor. tauto.
Qed.

(** The digit loop of the fast path and the loop of
    [scanDecimalDigitsOrSeparator] run in step: as long as the countdown
    [digit] has not run out they read the same digits, one into a Number,
    the other into text. *)
Lemma fast_lockstep fuel : ∀ p char v digit a start ret p' char' w' digit' a',
  scanFastDigits fuel p char (Fin v) digit a = Return (p', char', w', digit', a') →
  0 ≤ digit' →
  char = source p !! index p →
  (start ≤ index p)%nat →
  forallb isDigit (ret ++ substring (source p) start (index p)) = true →
  v = digitsValue (ret ++ substring (source p) start (index p)) →
  Z.of_nat (length (ret ++ substring (source p) start (index p))) + digit = 9 →
  ∃ start' ret',
    scanDigitsLoop fuel p char a start ret = Return (p', a', start', ret') ∧
    (start' ≤ index p')%nat ∧
    forallb isDigit (ret' ++ substring (source p) start' (index p')) = true ∧
    w' = Fin (digitsValue (ret' ++ substring (source p) start' (index p'))) ∧
    (length (ret' ++ substring (source p) start' (index p')) ≤ 9)%nat ∧
    char' = source p !! index p' ∧
    classify char' (Z.lor CharFlags.Decimal CharFlags.Underscore) = None ∧
    ((∀ i, (index p ≤ i < index p')%nat → source p !! i ≠ Some 95) →
     start' = start ∧ ret' = ret).
Proof.
  induction fuel as [|fuel IH];
    intros p char v digit a start ret p' char' w' digit' a' H Hd' Hc Hst Hds Hv Hlen;
    simpl in H.
  - destruct (0 <=? digit) eqn:Hd.
    2:{ injection H as <- <- <- <- <-. bool_lia. }
    destruct (classify _ _) eqn:Hcl; [done|]. injection H as <- <- <- <- <-.
    exists start, ret. simpl. rewrite Hcl. split_and!; try done; try lia. by subst.
  - destruct (0 <=? digit) eqn:Hd.
    2:{ injection H as <- <- <- <- <-. bool_lia. }
    destruct (classify _ _) as [c|] eqn:Hcl.
    2:{ injection H as <- <- <- <- <-.
        exists start, ret. simpl. rewrite Hcl. split_and!; try done; try lia. by subst. }
    simpl. rewrite Hcl. apply classify_Some in Hcl as [-> Hcl].
    destruct (c =? Chars.Underscore) eqn:Hu.
    + destruct (decide _) as [|Hne]; [done|].
      apply Z.eqb_eq in Hu. subst c.
      eapply (IH _ _ _ _ _ (index (nextCP p).1)
                (ret ++ substring (source (nextCP p).1) start (index p))) in H;
        [| done | done | done | | |].
      * destruct H as (start' & ret' & Hrun & Hst' & Hds' & Hw & Hl' & Hc' & Hex & _).
        exists start', ret'. simpl in *. split_and!; try done.
        intros Hno. exfalso. apply (Hno (index p)); [|done].
        pose proof (scanDigitsLoop_frame _ _ _ _ _ _ _ _ _ _ Hrun) as [_ _ _ _ _ Hi].
        simpl in Hi. lia.
      * simpl. by rewrite substring_nil, app_nil_r.
      * simpl. by rewrite substring_nil, app_nil_r.
      * simpl. by rewrite substring_nil, app_nil_r.
    + pose proof (hasFlag_lor_Underscore _ _ Hcl Hu) as (c0 & [= <-] & Hdc).
      rewrite CharTypes_Decimal in Hdc. pose proof Hdc as Hdc'%isDigit_spec.
      symmetry in Hc.
      assert (Hcur : ret ++ substring (source p) start (S (index p)) =
                     (ret ++ substring (source p) start (index p)) ++ [c]).
      { by rewrite (substring_snoc _ _ _ c), app_assoc. }
      assert (Hlen9 : (length (ret ++ substring (source p) start (index p)) ≤ 9)%nat)
        by bool_lia.
      pose proof (digitsValue_small _ Hds Hlen9) as Hsmall.
      change Chars.Zero with 48 in H. change (roundInt (v * 10)) with (mul (Fin v) 10) in H.
      rewrite mul_add_small in H by lia.
      eapply (IH _ _ _ _ _ start ret) in H; [| done | done | simpl; lia | | |].
      * destruct H as (start' & ret' & Hrun & Hst' & Hds' & Hw & Hl' & Hc' & Hex & Hno).
        exists start', ret'. simpl in *. split_and!; try done.
        intros Hno'. apply Hno. intros i Hi. apply Hno'. lia.
      * simpl. rewrite Hcur, forallb_app, Hds. simpl. by rewrite Hdc.
      * simpl. rewrite Hcur, digitsValue_snoc. lia.
      * simpl. rewrite Hcur, length_app. simpl. lia.
Qed.

Lemma substring_cons (src : jsstring) i n c :
  src !! i = Some c → (i < n)%nat →
  substring src i n = c :: substring src (S i) n.
Proof.
  intros Hc Hn. unfold substring, slice. rewrite !Nat.min_l, !Nat.max_r by lia.
  rewrite (drop_S _ _ _ Hc). replace (n - i)%nat with (S (n - S i)) by lia. done.
Qed.

Section FastPath.
Variable unicodeIDStart : Z → bool.

(** The two blocks compared on their own, from one and the same state:
    when the fast path of lines 119-141, entered with [value = 0] at the
    first digit, returns at line 140, the general path of lines 144-205
    started from that state returns the same token and leaves the same
    parser state, [tokenValue] included, provided the literal is a plain
    decimal one ([NumberKind.Decimal]) or, with a leading zero
    ([NumberKind.DecimalWithLeadingZero], one code unit after the token
    start), has no [_] among the code units read. *)
Lemma fast_block_agrees fuel p ctx kind char p1 tok :
  at_ p char →
  kind = NumberKind.Decimal ∨
  (kind = NumberKind.DecimalWithLeadingZero ∧
   index p = S (tokenIndex p) ∧ source p !! tokenIndex p = Some Chars.Zero ∧
   ∀ i, (index p ≤ i < index p1)%nat → source p !! i ≠ Some Chars.Underscore) →
  scanFastPath unicodeIDStart fuel p ctx char (Fin 0) false = Return (inl (p1, tok)) →
  scanFromDecimal unicodeIDStart fuel p ctx kind char (Fin 0) true false
    = Return (p1, tok) ∧
  scanFromDecimal unicodeIDStart fuel p ctx kind char (Fin 0) false false
    = Return (p1, tok).
Proof.
  intros Hat Hkind Hfast.
  assert (Hk : test kind NumberKind.DecimalNumberKind = true)
    by (destruct Hkind as [-> | [-> _]]; reflexivity).
  split.
  { unfold scanFromDecimal, scanDecimalPart. rewrite Hk, Hfast. done. }
  unfold scanFastPath in Hfast.
  inv_bind Hfast as [[[[q char'] w'] digit'] a'] Hloop.
  destruct a'; [done|].
  destruct (_ && _) eqn:Hq in Hfast; [|done].
  apply andb_true_iff in Hq as [[Hd' Hid]%andb_true_iff Hper].
  apply negb_true_iff in Hid. apply negb_true_iff, bool_decide_eq_false in Hper.
  assert (Hp1 : index p1 = index q)
    by (injection Hfast as <- _; by destruct (test ctx Context.OptionsRaw)).
  rewrite Hp1 in Hkind.
  injection Hfast as <- <-.
  destruct Hat as [Hn Hc].
  eapply (fast_lockstep _ _ _ _ _ _ (index p) []) in Hloop;
    [| bool_lia | done | done | | |]; try by rewrite substring_nil.
  destruct Hloop as (start' & ret' & Hrun & Hst' & Hds & -> & Hl9 & Hc' & Hcl & Hno).
  pose proof (scanDigitsLoop_frame _ _ _ _ _ _ _ _ _ _ Hrun) as [Hsrc _ Hti _ _ Hi].
  pose proof (scanDigitsLoop_spec _ _ _ _ _ _ _ _ _ _ (index p) Hrun
                (conj Hn Hc) (le_n _)) as ([_ Hn'] & _).
  rewrite Hsrc, <- Hc' in Hn'.
  set (cur := ret' ++ substring (source p) start' (index q)) in *.
  pose proof (digitsValue_small _ Hds Hl9) as Hsmall.
  unfold scanFromDecimal, scanDecimalPart. rewrite Hk. simpl.
  unfold scanDecimalTail, scanDecimalDigitsOrSeparator. rewrite Hrun. simpl.
  rewrite Hsrc. fold cur. rewrite Hn'.
  destruct (decide _) as [|_]; [done|]. cbn [mbind outcome_bind].
  destruct (suffix_finish_plain unicodeIDStart fuel q ctx kind char'
              (addString (AccNum (Fin 0)) cur) Hid (classify_Decimal_of_lor _ Hcl))
    as (p2 & -> & Hfin).
  assert (Hval : Whole (roundInt (digitsValue (48 :: cur))) = Whole (Fin (digitsValue cur))).
  { change (digitsValue (48 :: cur)) with (digitsValue cur).
    rewrite roundInt_small by lia. done. }
  assert (Hall : forallb isDigit (48 :: cur) = true) by (simpl; by rewrite Hds).
  assert (Htv :
    (if test kind (Z.lor NumberKind.ImplicitOctal
                     (Z.lor NumberKind.Binary
                        (Z.lor NumberKind.Hex NumberKind.Octal)))
     then any_of_acc (addString (AccNum (Fin 0)) cur)
     else if test kind NumberKind.DecimalWithLeadingZero
     then ANum (parseFloat (substring (source p) (tokenIndex p) (index q)))
     else ANum (toNumber (addString (AccNum (Fin 0)) cur)))
    = ANum (Whole (Fin (digitsValue cur)))).
  { destruct Hkind as [-> | (-> & Hidx & Hzero & Hnous)].
    - change (ANum (stringToNumber (48 :: cur)) = ANum (Whole (Fin (digitsValue cur)))).
      by rewrite stringToNumber_digits, Hval.
    - destruct (Hno Hnous) as [-> ->]. change Chars.Zero with 48 in Hzero.
      change (ANum (parseFloat (substring (source p) (tokenIndex p) (index q)))
              = ANum (Whole (Fin (digitsValue cur)))).
      rewrite (substring_cons _ _ _ _ Hzero) by lia.
      rewrite <- Hidx. change (substring _ _ _) with cur.
      by rewrite parseFloat_digits, Hval. }
  unfold finishNumber in Hfin.
  rewrite Hid, (classify_Decimal_of_lor _ Hcl), andb_false_r, Hsrc, Hti, Htv in Hfin.
  simpl in Hfin. rewrite Hsrc in Hfin. by injection Hfin as <-.
Qed.

End FastPath.

(** ** Legacy octal literals *)

Lemma foldl_octal_ge ds : ∀ v,
  forallb isOctalDigit ds = true → 0 ≤ v →
  v ≤ foldl (λ a c, a * 8 + (c - 48)) v ds.
Proof.
  induction ds as [|c ds IH]; intros v Hds Hv; simpl in *; [lia|].
  apply andb_true_iff in Hds as [Hc Hds]. unfold isOctalDigit in Hc.
  etrans; [|apply IH; [done|]]; bool_lia.
Qed.

Lemma scanImplicitOctal_octal : ∀ ds p v k st fuel rest,
  drop (index p) (source p) = ds ++ rest →
  forallb isOctalDigit ds = true →
  classify (rest !! 0%nat) CharFlags.Decimal = None →
  (length ds < fuel)%nat → 0 ≤ v →
  foldl (λ a c, a * 8 + (c - 48)) v ds < 9007199254740992 →
  ∃ p',
    scanImplicitOctal fuel p (source p !! index p) (Fin v) k st
      = Return (p', rest !! 0%nat, Fin (foldl (λ a c, a * 8 + (c - 48)) v ds), k, st) ∧
    index p' = (index p + length ds)%nat ∧ flags p' = flags p.
Proof.
  induction ds as [|c ds IH]; intros p v k st fuel rest Hsrc Hds Hrest Hfuel Hv Hlt.
  - pose proof (lookup_drop_0 _ _ _ Hsrc) as Hc. simpl in Hc.
    exists p. destruct fuel; simpl; rewrite Hc, Hrest; split_and!; try done; lia.
  - destruct fuel as [|fuel]; [simpl in Hfuel; lia|].
    pose proof (lookup_drop_0 _ _ _ Hsrc) as Hc. simpl in Hc.
    pose proof (drop_step _ _ _ _ Hsrc) as Hsrc'.
    simpl in Hfuel, Hds, Hlt. apply andb_true_iff in Hds as [Hd Hds].
    pose proof (foldl_octal_ge ds (v * 8 + (c - 48)) Hds) as Hge.
    assert (Hc07 : 48 ≤ c ≤ 55) by (unfold isOctalDigit in Hd; bool_lia).
    cbn [scanImplicitOctal]. rewrite Hc. unfold classify.
    assert (Hdig : isDigit c = true)
      by (unfold isDigit; apply andb_true_iff; split; apply Z.leb_le; lia).
    rewrite CharTypes_Decimal, Hdig, CharTypes_ImplicitOctalDigits.
    assert ((56 <=? c) && (c <=? 57) = false) as ->
      by (apply andb_false_iff; left; apply Z.leb_gt; lia).
    change Chars.Zero with 48. rewrite mul_add_small by lia.
    edestruct (IH (nextCP p).1 (v * 8 + (c - 48)) k st fuel rest)
      as (p' & Hrun & Hi & Hfl); [done.. | lia | lia | done |].
    unfold nextCP, charCodeAt in *. cbn in Hrun, Hi, Hfl |- *. rewrite Hrun.
    exists p'. split_and!; try done. lia.
Qed.

Section LegacyOctal.
Variable unicodeIDStart : Z → bool.

(** C2, as the code behaves: a literal [0] followed by octal digits, ended
    by the end of the input or by a code point that is neither an
    identifier start nor a decimal digit, throws StrictOctalEscape in
    strict mode; outside strict mode it scans to a NumericLiteral with the
    base-8 value of the digits (below 2^53) and leaves [parser.flags] as
    it was: [Flags.Octals] is not set. *)
Theorem legacy_octal p ctx kind ds rest :
  drop (index p) (source p) = 48 :: ds ++ rest →
  nextCP_ p = Some 48 →
  test kind NumberKind.Float = false →
  ds ≠ [] → forallb isOctalDigit ds = true →
  endsNumeral unicodeIDStart rest →
  octalValue ds < 9007199254740992 →
  (test ctx Context.Strict = true →
   scanNumber unicodeIDStart p ctx kind = Throw StrictOctalEscape) ∧
  (test ctx Context.Strict = false →
   ∃ p', scanNumber unicodeIDStart p ctx kind = Return (p', NumericLiteral) ∧
         tokenValue p' = num (octalValue ds) ∧
         flags p' = flags p ∧
         index p' = (index p + 1 + length ds)%nat).
Proof.
  intros Hsrc Hn Hfloat Hne Hds [Hid Hdec] Hlt.
  destruct ds as [|d0 ds']; [done|].
  pose proof (drop_step _ _ _ _ Hsrc) as Hsrc1.
  pose proof (lookup_drop_0 _ _ _ Hsrc1) as Hc1; simpl in Hc1.
  pose proof Hds as [Hd0 _]%andb_true_iff.
  assert (Hc07 : 48 ≤ d0 ≤ 55) by (unfold isOctalDigit in Hd0; bool_lia).
  assert (Hdig : isDigit d0 = true)
    by (unfold isDigit; apply andb_true_iff; split; apply Z.leb_le; lia).
  split; intros Hstrict.
  all: unfold scanNumber, scanNumberFuel, scanMantissa.
  all: rewrite Hfloat, Hn; destruct (decide _) as [_|]; [|done].
  all: unfold scanLeadingZero, nextCP, charCodeAt.
  all: cbn [fst snd index source set_cursor]; rewrite !Hc1; cbn [lower].
  all: change Chars.LowerX with 120; change Chars.LowerO with 111;
       change Chars.LowerB with 98.
  all: rewrite !(lower_digit d0) by (done || lia).
  all: unfold classify; rewrite CharTypes_Octal, Hd0, Hstrict; try done.
  assert (Hfuel : (length (d0 :: ds') < length (source p) + 2)%nat).
  { apply (f_equal length) in Hsrc. rewrite length_drop in Hsrc. simpl in *.
    rewrite length_app in Hsrc. lia. }
  edestruct (scanImplicitOctal_octal (d0 :: ds')
               (set_cursor p (S (index p)) (S (column p)) (Some d0))
               0 NumberKind.ImplicitOctal false
               (length (source p) + 2) rest)
    as (q & Hrun & Hi & Hfl); [done.. | lia | done |].
  cbn [source index flags set_cursor] in Hrun, Hi, Hfl. rewrite Hc1 in Hrun.
  rewrite Hrun. cbn [mbind outcome_bind].
  unfold scanDecimalPart.
  change (test NumberKind.ImplicitOctal NumberKind.DecimalNumberKind) with false.
  cbn [mbind outcome_bind].
  destruct (suffix_finish_plain unicodeIDStart (length (source p) + 2) q ctx
              NumberKind.ImplicitOctal _
              (AccNum (Fin (octalValue (d0 :: ds')))) Hid Hdec) as (p' & Hfin & Hinv).
  exists p'. split; [exact Hfin|].
  unfold finishNumber in Hinv. rewrite Hid, Hdec, andb_false_r in Hinv.
  simpl in Hinv. injection Hinv as <-.
  destruct (test ctx Context.OptionsRaw); simpl; split_and!; try done; simpl in *; lia.
Qed.

End LegacyOctal.

(** ** Function declarations as the body of an [if] *)

Lemma functionDeclarationAllowed_single ctx :
  functionDeclarationAllowed ctx SingleStatement
  = test ctx Context.OptionsWebCompat && negb (test ctx Context.Strict).
Proof. reflexivity. Qed.

Ltac parse_step IH1 IH2 IH3 :=
  match goal with
  | |- ?x = ?x => reflexivity
  | |- context [match ?x with _ => _ end] => is_var x; destruct x; cbv beta iota
  | |- context [parseStatement _ _ _ _] => rewrite IH1
  | |- context [parseStatementList _ _ _] => rewrite IH2
  | |- context [parseExpression _ _ _] => rewrite IH3
  | |- context [match ?x with _ => _ end] =>
      lazymatch x with
      | context [match _ with _ => _ end] => fail
      | _ => destruct x; cbv beta iota
      end
  end.

(** The context reaches the grammar through the placement rule only. *)
Lemma parse_context ctx ctx' :
  functionDeclarationAllowed ctx SingleStatement
    = functionDeclarationAllowed ctx' SingleStatement →
  ∀ fuel,
    (∀ w ts, parseStatement fuel ctx w ts = parseStatement fuel ctx' w ts) ∧
    (∀ ts, parseStatementList fuel ctx ts = parseStatementList fuel ctx' ts) ∧
    (∀ ts, parseExpression fuel ctx ts = parseExpression fuel ctx' ts).
Proof.
  intros Hsame. induction fuel as [|fuel (IH1 & IH2 & IH3)]; [done|].
  split_and!.
  - intros w ts. cbn [parseStatement].
    assert (Hw : functionDeclarationAllowed ctx w = functionDeclarationAllowed ctx' w)
      by (by destruct w).
    rewrite Hw. clear Hw Hsame.
    unfold mbind, parse_bind. repeat parse_step IH1 IH2 IH3.
  - intros ts. cbn [parseStatementList]. unfold mbind, parse_bind.
    repeat parse_step IH1 IH2 IH3.
  - intros ts. cbn [parseExpression]. unfold mbind, parse_bind.
    repeat parse_step IH1 IH2 IH3.
Qed.

Lemma parseSource_context ctx ctx' source :
  functionDeclarationAllowed ctx SingleStatement
    = functionDeclarationAllowed ctx' SingleStatement →
  parseSource source ctx = parseSource source ctx'.
Proof.
  intros Hsame. unfold parseSource. destruct (tokenize _ _) as [ts| |]; [|done..].
  cbn [mbind parse_bind].
  by rewrite (proj1 (proj2 (parse_context ctx ctx' Hsame _))).
Qed.

(** C9: [if (true) function foo() {}] is rejected when the web
    compatibility option is off, and so under the default configuration;
    with the option on, in sloppy mode, it parses to an IfStatement whose
    consequent is the FunctionDeclaration [foo].  The same holds inside the
    wrapper [(function() { ... })()] that the test suite puts around it. *)
Theorem function_declaration_in_if (ctx : Z) :
  (test ctx Context.OptionsWebCompat = false ∨ test ctx Context.Strict = true →
   parseSource "if (true) function foo() {}" ctx
     = Failed FunctionDeclarationPlacement) ∧
  (test ctx Context.OptionsWebCompat = true → test ctx Context.Strict = false →
   parseSource "if (true) function foo() {}" ctx
     = Parsed (mkProgram [IfStatement (Literal true)
                            (FunctionDeclaration (lit "foo") []) None])) ∧
  parseSource "if (true) function foo() {}" Context.None
    = Failed FunctionDeclarationPlacement ∧
  (∃ tree, parseSource "if (true) function foo() {}" Context.OptionsWebCompat
             = Parsed tree ∧
           existsb statementDeclares (programBody tree) = true) ∧
  parseSource "(function() {if (true) function foo() {}})()" Context.None
    = Failed FunctionDeclarationPlacement ∧
  (∃ tree, parseSource "(function() {if (true) function foo() {}})()"
             Context.OptionsWebCompat = Parsed tree ∧
           existsb statementDeclares (programBody tree) = true).
Proof.
  split_and!.
  - intros H.
    rewrite (parseSource_context ctx Context.None); [by vm_compute|].
    rewrite functionDeclarationAllowed_single.
    destruct H as [-> | ->]; [done | by rewrite andb_false_r].
  - intros Hw Hs.
    rewrite (parseSource_context ctx Context.OptionsWebCompat); [by vm_compute|].
    by rewrite functionDeclarationAllowed_single, Hw, Hs.
  - by vm_compute.
  - eexists. split; vm_compute; reflexivity.
  - by vm_compute.
  - eexists. split; vm_compute; reflexivity.
Qed.

(** ** Instances and counterexamples *)

(** C4, as the code behaves: [3n], [0x1Fn], [0b11n] and [0o17n] scan to
    BigIntLiteral tokens with the values 3, 31, 3 and 15; [1.5n] throws, and
    so does [.5n] entered after its period.  [0008n] throws in strict mode
    only, and there for its leading zero (StrictOctalEscape): outside strict
    mode it is not rejected but scans to a BigIntLiteral of value 8, all five
    code units consumed, because [NumberKind.ValidBigIntKind] includes
    [DecimalWithLeadingZero] (line 161). *)
Theorem bigint_literals (unicodeIDStart : Z → bool) (ctx : Z) :
  (∃ p, scanNumber unicodeIDStart (startOf "3n") ctx NumberKind.Decimal
          = Return (p, BigIntLiteral) ∧ tokenValue p = num 3) ∧
  (∃ p, scanNumber unicodeIDStart (startOf "0x1Fn") ctx NumberKind.Decimal
          = Return (p, BigIntLiteral) ∧ tokenValue p = num 31) ∧
  (∃ p, scanNumber unicodeIDStart (startOf "0b11n") ctx NumberKind.Decimal
          = Return (p, BigIntLiteral) ∧ tokenValue p = num 3) ∧
  (∃ p, scanNumber unicodeIDStart (startOf "0o17n") ctx NumberKind.Decimal
          = Return (p, BigIntLiteral) ∧ tokenValue p = num 15) ∧
  scanNumber unicodeIDStart (startOf "1.5n") ctx NumberKind.Decimal
    = Throw IDStartAfterNumber ∧
  (test ctx Context.Strict = true →
   scanNumber unicodeIDStart (startOf "0008n") ctx NumberKind.Decimal
     = Throw StrictOctalEscape) ∧
  (test ctx Context.Strict = false →
   ∃ p, scanNumber unicodeIDStart (startOf "0008n") ctx NumberKind.Decimal
          = Return (p, BigIntLiteral) ∧
        tokenValue p = num 8 ∧ index p = 5%nat) ∧
  scanNumber unicodeIDStart (parserAt ".5n" 0 1) ctx NumberKind.Float
    = Throw InvalidBigInt.
Proof.
  each_context ctx;
    (split_and!; try (eexists; split; vm_compute; reflexivity);
     try (by vm_compute);
     try (intros _; eexists; split_and!; vm_compute; reflexivity)).
Qed.

(** [0008n] outside strict mode: a BigIntLiteral of value 8. *)
Lemma bigint_leading_zero :
  ∃ p, scanNumber asciiOnly (startOf "0008n") Context.None NumberKind.Decimal
         = Return (p, BigIntLiteral) ∧
       tokenValue p = num 8 ∧ index p = 5%nat ∧ tokenRaw p = lit "0008n".
Proof. eexists. split_and!; vm_compute; reflexivity. Qed.

(** [0755] throws StrictOctalEscape in strict mode; outside strict mode it
    scans to 493 and leaves [parser.flags] as it was, while [08] sets
    [Flags.Octals]. *)
Lemma legacy_octal_flag (unicodeIDStart : Z → bool) :
  scanNumber unicodeIDStart (startOf "0755") Context.Strict NumberKind.Decimal
    = Throw StrictOctalEscape ∧
  (∃ p, scanNumber unicodeIDStart (startOf "0755") Context.None NumberKind.Decimal
          = Return (p, NumericLiteral) ∧
        tokenValue p = num 493 ∧ flags p = flags (startOf "0755") ∧
        flags p = Flags.None) ∧
  (∃ p, scanNumber unicodeIDStart (startOf "08") Context.None NumberKind.Decimal
          = Return (p, NumericLiteral) ∧ flags p = Flags.Octals).
Proof.
  split_and!; [by vm_compute | |]; eexists; split_and!; vm_compute; reflexivity.
Qed.

(** C1, as stated, fails: [0x20000000000001] is a valid literal of value
    2^53 + 1, and its token value is 2^53. *)
Lemma radix_value_rounded :
  ∃ p, scanNumber asciiOnly (startOf "0x20000000000001") Context.None
         NumberKind.Decimal = Return (p, NumericLiteral) ∧
       validBody (isDigitOf 16) false (lit "20000000000001") = true ∧
       mathValue 16 (lit "20000000000001") = 9007199254740993 ∧
       tokenValue p = num 9007199254740992 ∧
       tokenValue p ≠ num (mathValue 16 (lit "20000000000001")).
Proof. eexists. split_and!; [vm_compute; reflexivity..|]. by vm_compute. Qed.

Lemma radix_literal_value_witness :
  ∃ p, scanNumber asciiOnly (startOf "0x1_0") Context.None NumberKind.Decimal
         = Return (p, NumericLiteral) ∧
       tokenValue p = num (mathValue 16 (lit "1_0")) ∧
       index p = (index (startOf "0x1_0") + 2 + length (lit "1_0"))%nat.
Proof.
  apply (radix_literal_value asciiOnly (startOf "0x1_0") Context.None
           NumberKind.Decimal 120 (lit "1_0") [] 16);
    try reflexivity; split; reflexivity.
Defined.

(** C3, as stated, fails: without OptionsRaw, [3n] stores its raw text. *)
Lemma bigint_raw_stored :
  ∃ p, scanNumber asciiOnly (startOf "3n") Context.None NumberKind.Decimal
         = Return (p, BigIntLiteral) ∧
       test Context.None Context.OptionsRaw = false ∧
       tokenRaw p = lit "3n" ∧ tokenRaw p ≠ tokenRaw (startOf "3n").
Proof. eexists. split_and!; [vm_compute; reflexivity..|]. by vm_compute. Qed.

Lemma tokenRaw_stored_witness :
  ∃ p, scanNumber asciiOnly (startOf "3n") Context.None NumberKind.Decimal
         = Return (p, BigIntLiteral) ∧
       (BigIntLiteral = BigIntLiteral ∨
        test Context.None Context.OptionsRaw = true →
        tokenRaw p = slice (source (startOf "3n")) (tokenIndex (startOf "3n"))
                       (index p)) ∧
       (BigIntLiteral = NumericLiteral →
        test Context.None Context.OptionsRaw = false →
        tokenRaw p = tokenRaw (startOf "3n")).
Proof.
  eexists. split; [vm_compute; reflexivity|].
  apply (tokenRaw_stored asciiOnly (startOf "3n") Context.None NumberKind.Decimal).
  vm_compute. reflexivity.
Defined.

(** Run on its own, the fast path returns with nine digits read and falls
    through to the general path with ten. *)
Lemma fast_path_digit_limit :
  (∃ p1, scanFastPath asciiOnly 11 (startOf "123456789") Context.None (Some 49)
           (Fin 0) false = Return (inl (p1, NumericLiteral)) ∧
         tokenValue p1 = num 123456789) ∧
  (∃ p1 char v, scanFastPath asciiOnly 12 (startOf "1234567890") Context.None
                  (Some 49) (Fin 0) false = Return (inr (p1, char, v))).
Proof.
  split; [eexists; split; vm_compute; reflexivity|].
  eexists _, _, _. vm_compute. reflexivity.
Qed.

(** [separators_rejected] at [1_000]. *)
Lemma separators_rejected_witness :
  sepsOK (sepFlag (startOf "1_000")) (source (startOf "1_000"))
    (index (startOf "1_000")) (index (startOf "1_000"))
    (index (set_tokenValue (parserAt "1_000" 0 5) (num 1000))) ∧
  source (startOf "1_000")
    !! index (set_tokenValue (parserAt "1_000" 0 5) (num 1000)) ≠ Some 95.
Proof.
  assert (Hs : nextCP_ (startOf "1_000")
               = source (startOf "1_000") !! index (startOf "1_000"))
    by (vm_compute; reflexivity).
  assert (Hd : hasFlag CharFlags.Decimal (nextCP_ (startOf "1_000")))
    by (exists 49; split; vm_compute; reflexivity).
  assert (Hrun : scanNumber asciiOnly (startOf "1_000") Context.None NumberKind.Decimal
                 = Return (set_tokenValue (parserAt "1_000" 0 5) (num 1000),
                           NumericLiteral))
    by (vm_compute; reflexivity).
  generalize (separators_rejected asciiOnly (startOf "1_000") Context.None
                NumberKind.Decimal Hs Hd).
  rewrite Hrun. intros [H _]. exact H.
Defined.

(** [follower_rejected] at [42] followed by a space. *)
Lemma follower_rejected_witness :
  isIdentifierStart asciiOnly (source (startOf "42 ") !! 2%nat) = false ∧
  ¬ hasFlag CharFlags.Decimal (source (startOf "42 ") !! 2%nat).
Proof.
  pose proof (proj1 (proj2 (follower_rejected asciiOnly (startOf "42 ") Context.None
                              NumberKind.Decimal eq_refl eq_refl))) as H.
  edestruct H as [H1 H2]; [vm_compute; reflexivity|].
  split; [exact H1 | exact H2].
Defined.

(** [exponent_needs_digit] at [1e]. *)
Lemma exponent_needs_digit_witness :
  scanNumber asciiOnly (startOf "1e") Context.None NumberKind.Decimal
    = Throw MissingExponent.
Proof.
  refine (proj1 (exponent_needs_digit asciiOnly (startOf "1e") Context.None
                   NumberKind.Decimal _ _ _ _ _ _) _).
  - vm_compute. reflexivity.
  - reflexivity.
  - vm_compute. reflexivity.
Defined.

(** [leading_zero_decimal] at [08] in strict mode. *)
Lemma leading_zero_decimal_witness :
  scanNumber asciiOnly (startOf "08") Context.Strict NumberKind.Decimal
    = Throw StrictOctalEscape.
Proof.
  refine (proj1 (leading_zero_decimal asciiOnly (startOf "08") Context.Strict
                   NumberKind.Decimal (lit "8") [] _ _ _ _ _ _ _ _) _);
    try reflexivity; [split; reflexivity | discriminate].
Defined.

(** [legacy_octal] at [0755] in strict mode. *)
Lemma legacy_octal_witness :
  scanNumber asciiOnly (startOf "0755") Context.Strict NumberKind.Decimal
    = Throw StrictOctalEscape.
Proof.
  refine (proj1 (legacy_octal asciiOnly (startOf "0755") Context.Strict
                   NumberKind.Decimal (lit "755") [] _ _ _ _ _ _ _) _);
    try reflexivity; [discriminate | split; reflexivity].
Defined.

(** ** The text that [scanDecimalDigitsOrSeparator] returns *)

Lemma withoutSeparators_digits s :
  forallb isDigitOrSeparator s = true → forallb isDigit (withoutSeparators s) = true.
Proof.
  induction s as [|c s IH]; [done|]. intros H. simpl in H.
  apply andb_true_iff in H as [Hc Hs].
  simpl. destruct (c =? 95) eqn:Hne; simpl; [by apply IH|].
  rewrite (IH Hs), andb_true_r. unfold isDigitOrSeparator in Hc.
  by rewrite Hne, orb_false_r in Hc.
Qed.

Lemma scanDigitsLoop_text fuel : ∀ p char a start ret p' a' start' ret',
  scanDigitsLoop fuel p char a start ret = Return (p', a', start', ret') →
  char = source p !! index p → (start ≤ index p)%nat →
  (start' ≤ index p')%nat ∧
  ret' ++ substring (source p) start' (index p') =
    (ret ++ substring (source p) start (index p))
    ++ withoutSeparators (substring (source p) (index p) (index p')) ∧
  forallb isDigitOrSeparator (substring (source p) (index p) (index p')) = true ∧
  (index p' = index p → a' = a) ∧
  ((index p < index p')%nat →
   a' = bool_decide (source p !! (index p' - 1)%nat = Some 95)).
Proof.
  induction fuel as [|fuel IH];
    intros p char a start ret p' a' start' ret' H Hc Hst; simpl in H.
  - destruct (classify _ _); [done|]. injection H as <- <- <- <-.
    rewrite substring_nil. simpl. rewrite app_nil_r.
    split_and!; try done. lia.
  - destruct (classify _ _) as [c|] eqn:Hcl.
    2:{ injection H as <- <- <- <-.
        rewrite substring_nil. simpl. rewrite app_nil_r.
        split_and!; try done. lia. }
    apply classify_Some in Hcl as [-> Hcl]. symmetry in Hc.
    assert (Hlt : (index p < index p')%nat)
      by (destruct (c =? Chars.Underscore); [destruct (decide _); [done|]|];
          apply scanDigitsLoop_frame in H as [_ _ _ _ _ Hi']; simpl in Hi'; lia).
    assert (Hlast : ∀ b : bool,
              (index (nextCP p).1 = index p' → b = bool_decide (c = 95)) →
              ((index (nextCP p).1 < index p')%nat →
               a' = bool_decide (source p !! (index p' - 1)%nat = Some 95)) →
              (index p' = index (nextCP p).1 → a' = b) →
              a' = bool_decide (source p !! (index p' - 1)%nat = Some 95)).
    { intros b Hb H1 H2. simpl in *.
      destruct (decide (index p' = S (index p))) as [E|E].
      - rewrite (H2 E), (Hb (eq_sym E)), E.
        replace (S (index p) - 1)%nat with (index p) by lia. rewrite Hc.
        apply bool_decide_ext. split; [by intros -> | by intros [= ->]].
      - apply H1. lia. }
    rewrite (substring_cons _ _ _ _ Hc Hlt).
    destruct (c =? Chars.Underscore) eqn:Hu.
    + destruct (decide _) as [|Hne]; [done|]. apply Z.eqb_eq in Hu. subst c.
      apply IH in H as (Hst' & Htext & Hall & Hsame & Hend); [| done | simpl; lia].
      simpl in *. rewrite substring_nil, app_nil_r in Htext.
      split_and!; [done | | by rewrite Hall | lia |].
      * by rewrite Htext.
      * intros _. apply (Hlast true); simpl; try done.
    + apply IH in H as (Hst' & Htext & Hall & Hsame & Hend); [| done | simpl; lia].
      simpl in *. rewrite (substring_snoc _ _ _ c) in Htext by done.
      pose proof (hasFlag_lor_Underscore _ _ Hcl Hu) as (c0 & [= <-] & Hdc).
      rewrite CharTypes_Decimal in Hdc.
      split_and!; [done | | | lia |].
      * rewrite Htext. change Chars.Underscore with 95 in Hu. simpl. rewrite Hu. simpl.
        by rewrite <- !app_assoc.
      * unfold isDigitOrSeparator at 1. by rewrite Hdc, Hall.
      * intros _. apply (Hlast false); simpl; try done.
        intros _. symmetry. apply bool_decide_eq_false. by apply Z.eqb_neq.
Qed.

Lemma advance_S p n : advance p (S n) = advance (nextCP p).1 n.
Proof. unfold advance. by rewrite Nat.iter_succ_r. Qed.

Lemma advance_index p n : index (advance p n) = (index p + n)%nat.
Proof.
  revert p. induction n as [|n IH]; intros p; [unfold advance; simpl; lia|].
  rewrite advance_S, IH. simpl. lia.
Qed.

Lemma advance_source p n : source (advance p n) = source p.
Proof.
  revert p. induction n as [|n IH]; intros p; [done|]. by rewrite advance_S, IH.
Qed.

Lemma advance_nextCP_ p n :
  nextCP_ (advance p (S n)) = source p !! (index p + S n)%nat.
Proof.
  revert p. induction n as [|n IH]; intros p.
  - simpl. unfold charCodeAt. f_equal. lia.
  - rewrite advance_S, IH. simpl. f_equal. lia.
Qed.

Lemma classify_digitOrSeparator c :
  isDigitOrSeparator c = true →
  classify (Some c) (Z.lor CharFlags.Decimal CharFlags.Underscore) = Some c.
Proof.
  intros H. unfold classify.
  rewrite test_lor, CharTypes_Decimal, CharTypes_Underscore.
  unfold isDigitOrSeparator in H. by rewrite H.
Qed.

Lemma not_separator_next (rest : jsstring) :
  classify (rest !! 0%nat) (Z.lor CharFlags.Decimal CharFlags.Underscore) = None →
  rest !! 0%nat ≠ Some 95.
Proof. intros H E. rewrite E in H. by vm_compute in H. Qed.

Lemma doubled_cons a b r :
  doubled (a :: b :: r) = (a =? 95) && (b =? 95) || doubled (b :: r).
Proof. reflexivity. Qed.

Lemma scanDigitsLoop_run : ∀ run p a start ret fuel rest,
  drop (index p) (source p) = run ++ rest →
  forallb isDigitOrSeparator run = true →
  classify (rest !! 0%nat) (Z.lor CharFlags.Decimal CharFlags.Underscore) = None →
  (length run < fuel)%nat → (start ≤ index p)%nat →
  (doubled run = true →
   scanDigitsLoop fuel p (source p !! index p) a start ret
     = Throw ContinuousNumericSeparator) ∧
  (doubled run = false →
   ∃ start' ret',
     scanDigitsLoop fuel p (source p !! index p) a start ret
       = Return (advance p (length run),
                 if run is [] then a else trailing run,
                 start', ret') ∧
     ret' ++ substring (source p) start' (index p + length run) =
       (ret ++ substring (source p) start (index p)) ++ withoutSeparators run).
Proof.
  induction run as [|c run IH]; intros p a start ret fuel rest Hsrc Hall Hrest Hfuel Hst.
  - split; [done|]. intros _. simpl in *. rewrite (lookup_drop_0 _ _ _ Hsrc).
    exists start, ret. rewrite Nat.add_0_r, app_nil_r.
    destruct fuel; simpl; by rewrite Hrest.
  - destruct fuel as [|fuel]; [simpl in Hfuel; lia|].
    pose proof (lookup_drop_0 _ _ _ Hsrc) as Hc. simpl in Hc.
    pose proof (drop_step _ _ _ _ Hsrc) as Hsrc'.
    pose proof (lookup_drop_0 _ _ _ Hsrc') as Hc'.
    simpl in Hfuel, Hall. apply andb_true_iff in Hall as [Hd Hall].
    cbn [scanDigitsLoop]. rewrite Hc, (classify_digitOrSeparator _ Hd).
    change Chars.Underscore with 95.
    cbn [length].
    replace (index p + S (length run))%nat with (S (index p) + length run)%nat by lia.
    rewrite advance_S.
    destruct (c =? 95) eqn:Hu.
    + apply Z.eqb_eq in Hu. subst c. unfold nextCP, charCodeAt. cbn [fst snd].
      cbn [source index set_cursor].
      destruct run as [|b run'].
      * simpl in Hc'. rewrite Hc'. destruct (decide _) as [E|_];
          [by apply not_separator_next in Hrest|].
        split; [done|]. intros _.
        destruct (IH (set_cursor p (S (index p)) (S (column p)) (rest !! 0%nat))
                    true (S (index p)) (ret ++ substring (source p) start (index p))
                    fuel rest) as [_ IH2]; [done.. | simpl; lia | done |].
        destruct (IH2 eq_refl) as (start' & ret' & Hrun & Htext).
        cbn [source index set_cursor length] in Hrun, Htext. rewrite Hc' in Hrun.
        rewrite Hrun. exists start', ret'. split; [done|]. cbn [length].
        rewrite Htext, substring_nil, app_nil_r. done.
      * simpl in Hc'. rewrite Hc', doubled_cons. change (95 =? 95) with true.
        destruct (b =? 95) eqn:Hb; cbn [andb orb].
        -- apply Z.eqb_eq in Hb. subst b. destruct (decide _) as [_|E]; [|done].
           split; [done|]. done.
        -- destruct (decide _) as [[= E]|_]; [by rewrite E in Hb|].
           destruct (IH (set_cursor p (S (index p)) (S (column p)) (Some b))
                       true (S (index p)) (ret ++ substring (source p) start (index p))
                       fuel rest) as [IH1 IH2]; [done.. | simpl in *; lia | done |].
           cbn [source index set_cursor] in IH1, IH2. rewrite Hc' in IH1, IH2.
           split; [exact IH1|]. intros Hdbl.
           destruct (IH2 Hdbl) as (start' & ret' & Hrun & Htext).
           rewrite Hrun. exists start', ret'. split; [done|].
           rewrite Htext, substring_nil, app_nil_r. done.
    + assert (Hdig : isDigit c = true)
        by (unfold isDigitOrSeparator in Hd; by rewrite Hu, orb_false_r in Hd).
      unfold nextCP, charCodeAt. cbn [fst snd].
      assert (Hdbl : doubled (c :: run) = doubled run).
      { destruct run; [done|]. by rewrite doubled_cons, Hu. }
      rewrite Hdbl.
      destruct (IH (set_cursor p (S (index p)) (S (column p)) (source p !! S (index p)))
                  false start ret fuel rest) as [IH1 IH2]; [done.. | lia | simpl; lia |].
      cbn [source index set_cursor] in IH1, IH2.
      split; [exact IH1|]. intros Hno.
      destruct (IH2 Hno) as (start' & ret' & Hrun & Htext).
      rewrite Hrun. exists start', ret'. split.
      * do 3 f_equal. destruct run; [simpl; by rewrite Hu | done].
      * rewrite Htext, (substring_snoc _ _ _ c) by done.
        unfold withoutSeparators. simpl. rewrite Hu. simpl. by rewrite <- !app_assoc.
Qed.

(** X1: the text that [scanDecimalDigitsOrSeparator] returns is the source
    text it went over with every [_] taken out; it consists of decimal
    digits, the code units gone over are digits and [_] only, the last of
    them is not a [_], and the scan stops on a code unit that is neither a
    digit nor a [_]. *)
Theorem scanDecimalDigitsOrSeparator_text fuel p char p' s :
  scanDecimalDigitsOrSeparator fuel p char = Return (p', s) → at_ p char →
  s = withoutSeparators (substring (source p) (index p) (index p')) ∧
  forallb isDigit s = true ∧
  forallb isDigitOrSeparator (substring (source p) (index p) (index p')) = true ∧
  (index p ≤ index p')%nat ∧
  ((index p < index p')%nat → source p !! (index p' - 1)%nat ≠ Some 95) ∧
  ¬ hasFlag (Z.lor CharFlags.Decimal CharFlags.Underscore) (source p !! index p').
Proof.
  intros H Hat. unfold scanDecimalDigitsOrSeparator in H.
  inv_bind H as [[[q a'] start'] ret'] Hloop.
  destruct a'; [done|]. injection H as <- <-.
  pose proof (scanDigitsLoop_frame _ _ _ _ _ _ _ _ _ _ Hloop) as [Hsrc _ _ _ _ Hi].
  pose proof (scanDigitsLoop_spec _ _ _ _ _ _ _ _ _ _ (index p) Hloop Hat (le_n _))
    as ([Hn Hn'] & Hstop & _).
  destruct Hat as [_ Hc].
  apply scanDigitsLoop_text in Hloop as (_ & Htext & Hall & _ & Hend); [|done..].
  rewrite substring_nil in Htext. simpl in Htext. rewrite Hsrc.
  split_and!; try done.
  - rewrite Htext. by apply withoutSeparators_digits.
  - intros Hlt E. specialize (Hend Hlt). symmetry in Hend.
    by apply bool_decide_eq_false in Hend.
  - by rewrite <- Hsrc, <- Hn'.
Qed.

(** [scanDecimalDigitsOrSeparator] on a run of digits and [_]. *)
Lemma scanDecimalDigitsOrSeparator_run p run rest fuel :
  drop (index p) (source p) = run ++ rest →
  forallb isDigitOrSeparator run = true →
  classify (rest !! 0%nat) (Z.lor CharFlags.Decimal CharFlags.Underscore) = None →
  (length run < fuel)%nat →
  scanDecimalDigitsOrSeparator fuel p (source p !! index p) =
    if doubled run then Throw ContinuousNumericSeparator
    else if trailing run then Throw TrailingNumericSeparator
    else Return (advance p (length run), withoutSeparators run).
Proof.
  intros Hsrc Hall Hrest Hfuel. unfold scanDecimalDigitsOrSeparator.
  destruct (scanDigitsLoop_run run p false (index p) [] fuel rest)
    as [Hthrow Hrun]; [done..|].
  destruct (doubled run); [by rewrite Hthrow|].
  destruct (Hrun eq_refl) as (start' & ret' & -> & Htext).
  cbn [mbind outcome_bind].
  assert (Ht : (if run is [] then false else trailing run) = trailing run)
    by (by destruct run).
  rewrite Ht. destruct (trailing run); [done|].
  rewrite advance_source, advance_index, Htext, substring_nil. done.
Qed.

(** X2: what [scanDecimalDigitsOrSeparator] does on a run of digits and
    [_] that ends before a code unit of another kind: two [_] in a row
    throw ContinuousNumericSeparator; otherwise a [_] at the end throws
    TrailingNumericSeparator; otherwise it returns the run without its
    separators, in a state that differs from the one before in the cursor
    only: [index] is past the run and [nextCP] is the code unit after it.
    A [_] at the start of the run is accepted. *)
Theorem scanDecimalDigitsOrSeparator_outcome p run rest fuel :
  drop (index p) (source p) = run ++ rest →
  forallb isDigitOrSeparator run = true →
  classify (rest !! 0%nat) (Z.lor CharFlags.Decimal CharFlags.Underscore) = None →
  (length run < fuel)%nat →
  ∃ p',
    scanDecimalDigitsOrSeparator fuel p (source p !! index p) =
      (if doubled run then Throw ContinuousNumericSeparator
       else if trailing run then Throw TrailingNumericSeparator
       else Return (p', withoutSeparators run)) ∧
    index p' = (index p + length run)%nat ∧
    (run ≠ [] → nextCP_ p' = rest !! 0%nat) ∧
    source p' = source p ∧ end_ p' = end_ p ∧ tokenIndex p' = tokenIndex p ∧
    tokenValue p' = tokenValue p ∧ tokenRaw p' = tokenRaw p ∧ flags p' = flags p.
Proof.
  intros Hsrc Hall Hrest Hfuel. exists (advance p (length run)).
  split; [by apply (scanDecimalDigitsOrSeparator_run p run rest)|].
  split; [apply advance_index|]. split.
  - intros Hne. destruct run as [|c run]; [done|]. cbn [length].
    rewrite advance_nextCP_. transitivity (drop (index p) (source p) !! S (length run)).
    + symmetry. apply lookup_drop.
    + rewrite Hsrc. change (S (length run)) with (length (c :: run)).
      rewrite lookup_app_r by lia. f_equal. lia.
  - split; [apply advance_source|].
    assert (Hframe : ∀ n q,
              end_ (advance q n) = end_ q ∧ tokenIndex (advance q n) = tokenIndex q ∧
              tokenValue (advance q n) = tokenValue q ∧
              tokenRaw (advance q n) = tokenRaw q ∧ flags (advance q n) = flags q).
    { induction n as [|n IH]; intros q; [done|].
      rewrite advance_S. destruct (IH (nextCP q).1) as (-> & -> & -> & -> & ->). done. }
    apply Hframe.
Qed.

(** [scanDecimalDigitsOrSeparator_text] at [1_0]. *)
Lemma scanDecimalDigitsOrSeparator_text_witness :
  lit "10" = withoutSeparators
               (substring (source (startOf "1_0")) (index (startOf "1_0"))
                  (index (advance (startOf "1_0") 3))).
Proof.
  refine (proj1 (scanDecimalDigitsOrSeparator_text 4 (startOf "1_0") (Some 49)
                   (advance (startOf "1_0") 3) (lit "10") _ _)).
  - vm_compute. reflexivity.
  - split; reflexivity.
Defined.

(** [scanDecimalDigitsOrSeparator_outcome] at [_1__0]. *)
Lemma scanDecimalDigitsOrSeparator_outcome_witness :
  ∃ p',
    scanDecimalDigitsOrSeparator 6 (startOf "_1__0") (source (startOf "_1__0") !! 0%nat)
      = (if doubled (lit "_1__0") then Throw ContinuousNumericSeparator
         else if trailing (lit "_1__0") then Throw TrailingNumericSeparator
         else Return (p', withoutSeparators (lit "_1__0"))) ∧
    index p' = (index (startOf "_1__0") + length (lit "_1__0"))%nat.
Proof.
  destruct (scanDecimalDigitsOrSeparator_outcome (startOf "_1__0") (lit "_1__0") [] 6)
    as (p' & H & Hi & _).
  - reflexivity.
  - reflexivity.
  - reflexivity.
  - vm_compute. lia.
  - exists p'. split; [exact H | exact Hi].
Defined.

(** ** Decimal literals *)

Lemma validBody_run : ∀ body a,
  validBody isDigit a body = true →
  forallb isDigitOrSeparator body = true ∧ doubled body = false ∧
  (body ≠ [] → trailing body = false) ∧
  (a = false → ∃ c body', body = c :: body' ∧ isDigit c = true).
Proof.
  induction body as [|c body IH]; intros a H; simpl in H.
  - split_and!; try done. by intros ->.
  - destruct (c =? 95) eqn:Hu.
    + apply andb_true_iff in H as [-> H].
      destruct (IH _ H) as (Hall & Hdbl & Htr & Hhd).
      destruct (Hhd eq_refl) as (b & body' & -> & Hb).
      split_and!; try done.
      * simpl. unfold isDigitOrSeparator at 1. by rewrite Hu, orb_true_r.
      * rewrite doubled_cons, Hdbl, orb_false_r.
        apply andb_false_iff. right. apply Z.eqb_neq. intros ->. done.
      * intros _. by apply Htr.
    + apply andb_true_iff in H as [Hc H].
      destruct (IH _ H) as (Hall & Hdbl & Htr & _).
      split_and!.
      * simpl. unfold isDigitOrSeparator at 1. by rewrite Hc.
      * destruct body; [done|]. by rewrite doubled_cons, Hu.
      * intros _. destruct body as [|b body]; [simpl; done|]. by apply Htr.
      * intros _. eauto.
Qed.

Lemma lookup_after (src : jsstring) i run rest :
  drop i src = run ++ rest → src !! (i + length run)%nat = rest !! 0%nat.
Proof.
  intros H. transitivity (drop i src !! length run); [symmetry; apply lookup_drop|].
  rewrite H, lookup_app_r by lia. f_equal. lia.
Qed.

Lemma afterZero_branches char :
  afterZero char →
  classify char CharFlags.Octal = None ∧
  classify char CharFlags.ImplicitOctalDigits = None ∧ char ≠ Some Chars.Underscore.
Proof.
  intros (_ & _ & _ & H). apply classify_None in H. rewrite hasFlag_lor in H.
  split_and!.
  - apply classify_None. intros ?%Octal_Decimal. tauto.
  - apply classify_None. intros (c & -> & Hc). apply H. left. exists c. split; [done|].
    rewrite CharTypes_ImplicitOctalDigits in Hc. rewrite CharTypes_Decimal.
    unfold isDigit. apply andb_true_iff. split; apply Z.leb_le; bool_lia.
  - intros ->. apply H. right. by apply hasFlag_Underscore.
Qed.

Lemma digitsValue_withoutSeparators_zero : digitsValue (withoutSeparators [48]) = digitsValue [].
Proof. reflexivity. Qed.

Lemma drop_after (src : jsstring) i a b :
  drop i src = a ++ b → drop (i + length a) src = b.
Proof. intros H. by rewrite <- drop_drop, H, drop_app_length. Qed.

Lemma takeDigits_app ds r :
  forallb isDigit ds = true →
  (if r is c :: _ then isDigit c else false) = false →
  takeDigits (ds ++ r) = (ds, r).
Proof.
  intros Hds Hr. induction ds as [|c ds IH]; simpl in *.
  - destruct r as [|c r]; [done|]. simpl. by rewrite Hr.
  - apply andb_true_iff in Hds as [Hc Hds]. by rewrite Hc, (IH Hds).
Qed.

Lemma digitsValue_app a f : digitsValue (a ++ f) = foldl (λ a c, 10 * a + (c - 48)) (digitsValue a) f.
Proof. unfold digitsValue. by rewrite foldl_app. Qed.

Lemma stringToNumber_fraction ds fs :
  forallb isDigit ds = true → ds ≠ [] → forallb isDigit fs = true →
  stringToNumber (ds ++ 46 :: fs) =
    decimalToNumber (digitsValue (ds ++ fs)) (- Z.of_nat (length fs)).
Proof.
  intros Hds Hne Hfs. unfold stringToNumber.
  destruct ds as [|d ds]; [done|]. pose proof Hds as [Hd _]%andb_true_iff.
  destruct (decide _) as [|_]; [done|].
  destruct (decide _) as [E|_].
  { change infinityText with (73 :: lit "nfinity") in E. simpl in E.
    injection E as -> _. done. }
  unfold parseDecimalPrefix. rewrite (takeDigits_app _ _ Hds) by done.
  rewrite (takeDigits_all _ Hfs). done.
Qed.

Section DecimalLiterals.
Variable unicodeIDStart : Z → bool.

(** The integer part of a decimal literal: the step over a leading [0]
    (lines 31-115) does nothing or passes a lone [0], and the digits that
    [scanDecimalDigitsOrSeparator] then returns (line 144) have the value of
    the part. *)
Lemma scanInteger fuel p ctx body rest :
  drop (index p) (source p) = body ++ rest →
  nextCP_ p = source p !! index p →
  integerPart body (rest !! 0%nat) →
  classify (rest !! 0%nat) (Z.lor CharFlags.Decimal CharFlags.Underscore) = None →
  (length body < fuel)%nat →
  ∃ p0 char0 p1 text,
    (if decide (nextCP_ p = Some Chars.Zero)
     then scanLeadingZero fuel p ctx NumberKind.Decimal (Fin 0) false false
     else Return (p, nextCP_ p, Fin 0, NumberKind.Decimal, false, false))
    = Return (p0, char0, Fin 0, NumberKind.Decimal, false, false) ∧
    scanDecimalDigitsOrSeparator fuel p0 char0 = Return (p1, text) ∧
    p1 = advance p (length body) ∧
    nextCP_ p1 = rest !! 0%nat ∧
    forallb isDigit text = true ∧
    digitsValue text = digitsValue (withoutSeparators body).
Proof.
  intros Hsrc Hn [Hvalid Hzero] Hrest Hfuel.
  destruct (validBody_run _ _ Hvalid) as (Hall & Hdbl & Htr & Hhd).
  destruct (Hhd eq_refl) as (c0 & body' & -> & Hc0). specialize (Htr ltac:(done)).
  pose proof (lookup_drop_0 _ _ _ Hsrc) as Hc. simpl in Hc. rewrite Hc in Hn.
  pose proof (lookup_after _ _ _ _ Hsrc) as Hnext.
  rewrite Hn.
  destruct Hzero as [Hnz | [[= -> ->] Hafter]].
  - destruct (decide _) as [[= ->]|_]; [done|].
    exists p, (Some c0), (advance p (length (c0 :: body'))),
      (withoutSeparators (c0 :: body')).
    split; [done|]. split.
    { rewrite <- Hc.
      rewrite (scanDecimalDigitsOrSeparator_run p (c0 :: body') rest fuel) by done.
      by rewrite Hdbl, Htr. }
    split; [done|]. cbn [length]. rewrite advance_nextCP_. cbn [length] in Hnext.
    split; [done|]. split; [by apply withoutSeparators_digits | done].
  - destruct (decide _) as [_|]; [|done].
    destruct (afterZero_branches _ Hafter) as (Ho & Hi & Hu).
    destruct Hafter as (Hx & Hob & Hb & _).
    cbn [length] in Hnext. replace (index p + 1)%nat with (S (index p)) in Hnext by lia.
    exists (advance p 1), (rest !! 0%nat), (advance p 1), [].
    split.
    { unfold scanLeadingZero, nextCP, charCodeAt. cbn [fst snd index source set_cursor].
      rewrite Hnext, Hx, Hob, Hb, Ho, Hi.
      destruct (decide _) as [|_]; [done|].
      change (advance p 1)
        with (set_cursor p (S (index p)) (S (column p)) (source p !! S (index p))).
      by rewrite Hnext. }
    split.
    { pose proof (scanDecimalDigitsOrSeparator_run (advance p 1) [] rest fuel)
        as Hrun.
      rewrite advance_source, advance_index in Hrun.
      replace (index p + 1)%nat with (S (index p)) in Hrun by lia.
      rewrite Hnext in Hrun. apply Hrun; [|done|done|simpl; lia].
      by apply (drop_step _ _ 48). }
    split; [done|]. split; [|done].
    rewrite advance_nextCP_. by replace (index p + 1)%nat with (S (index p)) by lia.
Qed.

Lemma fuel_covers (p : ParserState) body rest :
  drop (index p) (source p) = body ++ rest →
  (length body < length (source p) + 2)%nat.
Proof.
  intros H. apply (f_equal length) in H. rewrite length_drop, length_app in H. lia.
Qed.

Lemma endsNumeral_stop rest :
  endsNumeral unicodeIDStart rest →
  classify (rest !! 0%nat) (Z.lor CharFlags.Decimal CharFlags.Underscore) = None.
Proof. intros [Hid Hdec]. apply (plain_char_classify unicodeIDStart); auto. Qed.

(** X3: a decimal integer literal (digits with single [_] between them, no
    leading [0] unless it is [0] alone), ended by the end of the input or
    by a code unit that is neither an identifier start, a digit nor a
    period, scans to a NumericLiteral whose value is the double nearest to
    the value of its digits, the separators left out. *)
Theorem decimal_integer_value p ctx body rest :
  drop (index p) (source p) = body ++ rest →
  nextCP_ p = source p !! index p →
  integerPart body (rest !! 0%nat) →
  endsNumeral unicodeIDStart rest → rest !! 0%nat ≠ Some Chars.Period →
  ∃ p', scanNumber unicodeIDStart p ctx NumberKind.Decimal
          = Return (p', NumericLiteral) ∧
        tokenValue p' = ANum (Whole (roundInt (digitsValue (withoutSeparators body)))) ∧
        index p' = (index p + length body)%nat.
Proof.
  intros Hsrc Hn Hint Hends Hdot.
  destruct (scanInteger (length (source p) + 2) p ctx body rest Hsrc Hn Hint
              (endsNumeral_stop _ Hends) (fuel_covers _ _ _ Hsrc))
    as (p0 & char0 & p1 & text & Hzero & Hrun & -> & Hnext & Hds & Hval).
  unfold scanNumber, scanNumberFuel, scanMantissa.
  change (test NumberKind.Decimal NumberKind.Float) with false. cbv iota.
  rewrite Hzero. cbn [mbind outcome_bind]. unfold scanDecimalPart.
  change (test NumberKind.Decimal NumberKind.DecimalNumberKind) with true.
  cbn [mbind outcome_bind]. unfold scanDecimalTail. rewrite Hrun.
  cbn [mbind outcome_bind]. rewrite Hnext.
  destruct (decide (rest !! 0%nat = Some Chars.Period)) as [|_]; [done|].
  cbn [mbind outcome_bind]. destruct Hends as [Hid Hdec]. unfold jsstring in *.
  destruct (suffix_finish_plain unicodeIDStart (length (source p) + 2)
              (advance p (length body)) ctx NumberKind.Decimal _
              (addString (AccNum (Fin 0)) text) Hid Hdec) as (p' & -> & Hfin).
  exists p'. split; [done|].
  apply finishNumber_inv in Hfin as (_ & -> & _ & _ & _ & _ & _ & _ & _ & ->).
  rewrite advance_index. split; [|done].
  change (ANum (stringToNumber (48 :: text)) =
          ANum (Whole (roundInt (digitsValue (withoutSeparators body))))).
  rewrite stringToNumber_digits by (done || (simpl; by rewrite Hds)).
  by rewrite digitsValue_zero, Hval.
Qed.

Lemma parseInt_digits ds :
  forallb isDigit ds = true → ds ≠ [] →
  parseInt ds = Whole (roundInt (digitsValue ds)).
Proof.
  intros Hds Hne. unfold parseInt. rewrite (takeDigits_all _ Hds). by destruct ds.
Qed.

(** X4: a decimal integer literal followed by the suffix [n] scans to a
    BigIntLiteral whose [tokenValue] is a Number, the double nearest to the
    value of the digits: above 2^53 the value of the literal is rounded. *)
Theorem decimal_bigint_value p ctx body rest :
  drop (index p) (source p) = body ++ Chars.LowerN :: rest →
  nextCP_ p = source p !! index p →
  integerPart body (Some Chars.LowerN) →
  endsNumeral unicodeIDStart rest →
  ∃ p', scanNumber unicodeIDStart p ctx NumberKind.Decimal
          = Return (p', BigIntLiteral) ∧
        tokenValue p' = ANum (Whole (roundInt (digitsValue (withoutSeparators body)))) ∧
        index p' = (index p + length body + 1)%nat.
Proof.
  intros Hsrc Hn Hint Hends.
  destruct (scanInteger (length (source p) + 2) p ctx body (Chars.LowerN :: rest)
              Hsrc Hn Hint eq_refl (fuel_covers _ _ _ Hsrc))
    as (p0 & char0 & p1 & text & Hzero & Hrun & -> & Hnext & Hds & Hval).
  unfold scanNumber, scanNumberFuel, scanMantissa.
  change (test NumberKind.Decimal NumberKind.Float) with false. cbv iota.
  rewrite Hzero. cbn [mbind outcome_bind]. unfold scanDecimalPart.
  change (test NumberKind.Decimal NumberKind.DecimalNumberKind) with true.
  cbn [mbind outcome_bind]. unfold scanDecimalTail. rewrite Hrun.
  cbn [mbind outcome_bind]. rewrite Hnext. simpl (_ !! 0%nat).
  destruct (decide (Some Chars.LowerN = Some Chars.Period)) as [|_]; [done|].
  cbn [mbind outcome_bind].
  unfold scanSuffixAndFinish, scanSuffix. simpl (_ !! 0%nat).
  rewrite bool_decide_eq_true_2 by done.
  change (test NumberKind.Decimal NumberKind.ValidBigIntKind) with true.
  cbn [andb]. unfold nextCP, charCodeAt. cbn [mbind outcome_bind].
  rewrite advance_index, advance_source.
  pose proof (lookup_after (source p) (index p) (body ++ [Chars.LowerN]) rest) as Hafter.
  rewrite <- app_assoc, length_app in Hafter. specialize (Hafter Hsrc).
  cbn [length] in Hafter.
  replace (S (index p + length body)) with (index p + (length body + 1))%nat by lia.
  rewrite Hafter. destruct Hends as [Hid Hdec]. unfold jsstring in *.
  unfold finishNumber. rewrite Hid, Hdec, andb_false_r. cbn [orb].
  eexists. split; [done|]. cbn [tokenValue index set_tokenValue set_tokenRaw set_cursor].
  split; [|lia].
  change (toString (addString (AccNum (Fin 0)) text)) with (48 :: text).
  rewrite parseInt_digits by (done || (simpl; by rewrite Hds)).
  by rewrite digitsValue_zero, Hval.
Qed.

(** X5: a decimal literal with a fraction, [body . frac], ended by the end
    of the input or by a code unit that is neither an identifier start nor
    a digit, scans to a NumericLiteral whose value is the Number for the
    decimal [digits * 10^-k], where [digits] are the digits of both parts
    and [k] is the number of fraction digits, the separators left out. *)
Theorem decimal_fraction_value p ctx body frac rest :
  drop (index p) (source p) = body ++ Chars.Period :: frac ++ rest →
  nextCP_ p = source p !! index p →
  integerPart body (Some Chars.Period) → fractionPart frac →
  endsNumeral unicodeIDStart rest →
  ∃ p', scanNumber unicodeIDStart p ctx NumberKind.Decimal
          = Return (p', NumericLiteral) ∧
        tokenValue p' =
          ANum (decimalToNumber
                  (digitsValue (withoutSeparators body ++ withoutSeparators frac))
                  (- Z.of_nat (length (withoutSeparators frac)))) ∧
        index p' = (index p + length body + 1 + length frac)%nat.
Proof.
  intros Hsrc Hn Hint Hfrac Hends.
  destruct (scanInteger (length (source p) + 2) p ctx body
              (Chars.Period :: frac ++ rest) Hsrc Hn Hint eq_refl
              (fuel_covers _ _ _ Hsrc))
    as (p0 & char0 & p1 & text & Hzero & Hrun & -> & Hnext & Hds & Hval).
  simpl in Hnext.
  pose proof (drop_after _ _ _ _ Hsrc) as Hsrc1.
  pose proof (drop_step _ _ _ _ Hsrc1) as Hsrc2.
  pose proof (lookup_drop_0 _ _ _ Hsrc2) as Hc2.
  assert (Hfr : forallb isDigitOrSeparator frac = true ∧ doubled frac = false ∧
                trailing frac = false ∧ (frac ++ rest) !! 0%nat ≠ Some 95).
  { destruct Hfrac as [-> | Hv].
    - split_and!; try done. simpl. intros E. destruct Hends as [Hid _].
      unfold jsstring in *. by rewrite E in Hid.
    - destruct (validBody_run _ _ Hv) as (? & ? & Htr & Hhd).
      destruct (Hhd eq_refl) as (c & frac' & -> & Hc).
      split_and!; try done; [by apply Htr|]. simpl. by intros [= ->]. }
  destruct Hfr as (Hall & Hdbl & Htr & Hnu).
  unfold scanNumber, scanNumberFuel, scanMantissa.
  change (test NumberKind.Decimal NumberKind.Float) with false. cbv iota.
  rewrite Hzero. cbn [mbind outcome_bind]. unfold scanDecimalPart.
  change (test NumberKind.Decimal NumberKind.DecimalNumberKind) with true.
  cbn [mbind outcome_bind]. unfold scanDecimalTail. rewrite Hrun.
  cbn [mbind outcome_bind]. rewrite Hnext.
  destruct (decide (Some Chars.Period = Some Chars.Period)) as [_|]; [|done].
  unfold nextCP, charCodeAt. rewrite advance_index, advance_source.
  rewrite Hc2.
  destruct (decide ((frac ++ rest) !! 0%nat = Some Chars.Underscore)) as [|_]; [done|].
  cbn [nextCP_ set_cursor].
  set (p2 := set_cursor _ _ _ _).
  pose proof (scanDecimalDigitsOrSeparator_run p2 frac rest
                (length (source p) + 2)) as Hrun2.
  rewrite Hdbl, Htr in Hrun2. subst p2.
  cbn [source index set_cursor] in Hrun2. rewrite advance_source, Hc2 in Hrun2.
  rewrite Hrun2; [|done|done|by apply endsNumeral_stop|].
  2:{ pose proof (f_equal length Hsrc2) as Hl.
      rewrite length_drop, length_app in Hl. lia. }
  cbn [mbind outcome_bind].
  set (p3 := advance _ (length frac)).
  assert (Hn3 : nextCP_ p3 = rest !! 0%nat).
  { subst p3. destruct frac as [|c frac'].
    - simpl. unfold advance. simpl. by rewrite app_nil_l in Hc2.
    - cbn [length]. rewrite advance_nextCP_. cbn [source index set_cursor].
      rewrite advance_source. apply (lookup_after _ _ (c :: frac')). done. }
  rewrite Hn3. destruct Hends as [Hid Hdec]. unfold jsstring in *.
  destruct (suffix_finish_plain unicodeIDStart (length (source p) + 2)
              p3 ctx NumberKind.Float _
              (addString (addString (AccNum (Fin 0)) text)
                 (lit "." ++ withoutSeparators frac)) Hid Hdec) as (p' & -> & Hfin).
  exists p'. split; [done|].
  apply finishNumber_inv in Hfin as (_ & -> & _ & _ & _ & _ & _ & _ & _ & ->).
  split.
  - change (ANum (stringToNumber ((48 :: text) ++ 46 :: withoutSeparators frac)) =
            ANum (decimalToNumber
                    (digitsValue (withoutSeparators body ++ withoutSeparators frac))
                    (- Z.of_nat (length (withoutSeparators frac))))).
    rewrite stringToNumber_fraction;
      [| simpl; by rewrite Hds | done | by apply withoutSeparators_digits].
    by rewrite !digitsValue_app, digitsValue_zero, Hval.
  - subst p3. rewrite advance_index. cbn [index set_cursor]. lia.
Qed.

End DecimalLiterals.

(** [decimal_integer_value] at [1_000]. *)
Lemma decimal_integer_value_witness :
  ∃ p', scanNumber asciiOnly (startOf "1_000") Context.None NumberKind.Decimal
          = Return (p', NumericLiteral) ∧
        tokenValue p' =
          ANum (Whole (roundInt (digitsValue (withoutSeparators (lit "1_000"))))) ∧
        index p' = (index (startOf "1_000") + length (lit "1_000"))%nat.
Proof.
  apply (decimal_integer_value asciiOnly (startOf "1_000") Context.None
           (lit "1_000") []).
  - reflexivity.
  - reflexivity.
  - split; [reflexivity | left; discriminate].
  - split; reflexivity.
  - discriminate.
Defined.

(** [decimal_bigint_value] at [12n]. *)
Lemma decimal_bigint_value_witness :
  ∃ p', scanNumber asciiOnly (startOf "12n") Context.None NumberKind.Decimal
          = Return (p', BigIntLiteral) ∧
        tokenValue p' =
          ANum (Whole (roundInt (digitsValue (withoutSeparators (lit "12"))))) ∧
        index p' = (index (startOf "12n") + length (lit "12") + 1)%nat.
Proof.
  apply (decimal_bigint_value asciiOnly (startOf "12n") Context.None (lit "12") []).
  - reflexivity.
  - reflexivity.
  - split; [reflexivity | left; discriminate].
  - split; reflexivity.
Defined.

(** [decimal_fraction_value] at [1.5]. *)
Lemma decimal_fraction_value_witness :
  ∃ p', scanNumber asciiOnly (startOf "1.5") Context.None NumberKind.Decimal
          = Return (p', NumericLiteral) ∧
        tokenValue p' =
          ANum (decimalToNumber
                  (digitsValue (withoutSeparators (lit "1") ++ withoutSeparators (lit "5")))
                  (- Z.of_nat (length (withoutSeparators (lit "5"))))) ∧
        index p' = (index (startOf "1.5") + length (lit "1") + 1 + length (lit "5"))%nat.
Proof.
  apply (decimal_fraction_value asciiOnly (startOf "1.5") Context.None
           (lit "1") (lit "5") []).
  - reflexivity.
  - reflexivity.
  - split; [reflexivity | left; discriminate].
  - right. reflexivity.
  - split; reflexivity.
Defined.

(** ** The exponent part *)

Lemma advance_add p a b : advance (advance p a) b = advance p (a + b).
Proof.
  revert p. induction a as [|a IH]; intros p; [done|].
  by rewrite Nat.add_succ_l, !advance_S, IH.
Qed.

Lemma advance_frame p n :
  end_ (advance p n) = end_ p ∧ tokenIndex (advance p n) = tokenIndex p ∧
  tokenValue (advance p n) = tokenValue p ∧ tokenRaw (advance p n) = tokenRaw p ∧
  flags (advance p n) = flags p.
Proof.
  revert p. induction n as [|n IH]; intros p; [done|].
  rewrite advance_S. destruct (IH (nextCP p).1) as (-> & -> & -> & -> & ->). done.
Qed.

Lemma exponent_marker e : Z.lor e 32 = 101 → e = 69 ∨ e = 101.
Proof. intros H. destruct (lor_32 e); lia. Qed.

(** Lines 166-181 on an exponent part [e sign ex]. *)
Lemma scanSuffix_exponent fuel p kind e sign ex rest v :
  drop (index p) (source p) = e :: sign ++ ex ++ rest →
  Z.lor e 32 = 101 → isSign sign → validBody isDigit false ex = true →
  classify (rest !! 0%nat) (Z.lor CharFlags.Decimal CharFlags.Underscore) = None →
  (length ex < fuel)%nat →
  scanSuffix fuel p kind (Some e) v =
    Return (advance p (1 + length sign + length ex), rest !! 0%nat,
            addString v (e :: sign ++ withoutSeparators ex), false).
Proof.
  intros Hsrc He Hsign Hex Hrest Hfuel.
  destruct (validBody_run _ _ Hex) as (Hall & Hdbl & Htr & Hhd).
  destruct (Hhd eq_refl) as (x0 & ex' & -> & Hx0). specialize (Htr ltac:(done)).
  unfold scanSuffix.
  assert (Hn : bool_decide (Some e = Some Chars.LowerN) = false).
  { apply bool_decide_eq_false. intros [= ->]. by vm_compute in He. }
  rewrite Hn. cbn [andb lower]. rewrite He. change (101 =? Chars.LowerE) with true.
  cbv iota.
  assert (Hcont : ∀ k,
    drop (index p + k) (source p) = (x0 :: ex') ++ rest →
    substring (source p) (index p) (index p + k) = e :: sign →
    (if classify (Some x0) CharFlags.Decimal is Some _
     then
       '(parser, s) ← scanDecimalDigitsOrSeparator fuel (advance p k) (Some x0);
       Return (parser, nextCP_ parser,
               addString v (substring (source parser) (index p) (index (advance p k)) ++ s),
               false)
     else Throw MissingExponent)
    = Return (advance p (k + length (x0 :: ex')), rest !! 0%nat,
              addString v (e :: sign ++ withoutSeparators (x0 :: ex')), false)).
  { intros k Hk Hsub. unfold classify. rewrite CharTypes_Decimal, Hx0.
    pose proof (scanDecimalDigitsOrSeparator_run (advance p k) (x0 :: ex') rest fuel)
      as Hrun.
    rewrite advance_source, advance_index, Hdbl, Htr in Hrun.
    rewrite (lookup_drop_0 _ _ _ Hk) in Hrun. simpl (_ !! 0%nat) in Hrun.
    assert (Hnext : nextCP_ (advance p (k + length (x0 :: ex'))) = rest !! 0%nat).
    { cbn [length]. rewrite Nat.add_succ_r, advance_nextCP_.
      rewrite <- (lookup_after _ _ _ _ Hk). cbn [length]. f_equal. lia. }
    rewrite Hrun by done. cbn [mbind outcome_bind].
    by rewrite advance_add, Hnext, advance_source, advance_index, Hsub. }
  pose proof (drop_step _ _ _ _ Hsrc) as Hsrc1.
  pose proof (lookup_drop_0 _ _ _ Hsrc1) as Hc1.
  assert (Ha1 : advance p 1 = set_cursor p (S (index p)) (S (column p))
                                (source p !! S (index p))) by done.
  assert (Ha2 : advance p 2 = set_cursor (advance p 1) (S (S (index p)))
                                (S (S (column p))) (source p !! S (S (index p)))) by done.
  unfold nextCP at 1, charCodeAt. rewrite <- Ha1.
  destruct Hsign as [-> | [-> | ->]]; simpl (_ !! 0%nat) in Hc1; rewrite Hc1.
  - assert (Hnx : classify (Some x0) CharFlags.Exponent = None).
    { unfold classify. rewrite CharTypes_Exponent.
      apply isDigit_spec in Hx0.
      assert ((x0 =? 43) || (x0 =? 45) = false) as ->; [|done].
      apply orb_false_iff. split; apply Z.eqb_neq; lia. }
    rewrite Hnx. cbv iota zeta.
    apply (Hcont 1%nat).
    + by replace (index p + 1)%nat with (S (index p)) by lia.
    + apply (substring_token _ _ [e] ((x0 :: ex') ++ rest)); [done | simpl; lia].
  - pose proof (drop_step _ _ _ _ Hsrc1) as Hsrc2.
    pose proof (lookup_drop_0 _ _ _ Hsrc2) as Hc2. simpl (_ !! 0%nat) in Hc2.
    change (classify (Some 43) CharFlags.Exponent) with (Some 43). cbv iota.
    unfold nextCP, charCodeAt. rewrite advance_index, advance_source.
    replace (index p + 1)%nat with (S (index p)) by lia.
    replace (column (advance p 1)) with (S (column p)) by done.
    rewrite <- Ha2, Hc2. cbv iota zeta.
    apply (Hcont 2%nat).
    + by replace (index p + 2)%nat with (S (S (index p))) by lia.
    + apply (substring_token _ _ [e; 43] ((x0 :: ex') ++ rest)); [done | simpl; lia].
  - pose proof (drop_step _ _ _ _ Hsrc1) as Hsrc2.
    pose proof (lookup_drop_0 _ _ _ Hsrc2) as Hc2. simpl (_ !! 0%nat) in Hc2.
    change (classify (Some 45) CharFlags.Exponent) with (Some 45). cbv iota.
    unfold nextCP, charCodeAt. rewrite advance_index, advance_source.
    replace (index p + 1)%nat with (S (index p)) by lia.
    replace (column (advance p 1)) with (S (column p)) by done.
    rewrite <- Ha2, Hc2. cbv iota zeta.
    apply (Hcont 2%nat).
    + by replace (index p + 2)%nat with (S (S (index p))) by lia.
    + apply (substring_token _ _ [e; 45] ((x0 :: ex') ++ rest)); [done | simpl; lia].
Qed.

Lemma stringToNumber_exponent ds e sign xs :
  forallb isDigit ds = true → ds ≠ [] → Z.lor e 32 = 101 → isSign sign →
  forallb isDigit xs = true → xs ≠ [] →
  stringToNumber (ds ++ e :: sign ++ xs) =
    decimalToNumber (digitsValue ds) (exponentValue sign xs).
Proof.
  intros Hds Hne He Hsign Hxs Hnx. unfold stringToNumber.
  destruct ds as [|d ds]; [done|]. pose proof Hds as [Hd _]%andb_true_iff.
  destruct (decide _) as [|_]; [done|].
  destruct (decide _) as [E|_].
  { change infinityText with (73 :: lit "nfinity") in E. simpl in E.
    injection E as -> _. done. }
  unfold parseDecimalPrefix.
  assert (He' : isDigit e = false)
    by (destruct (exponent_marker e He) as [-> | ->]; done).
  rewrite (takeDigits_app _ _ Hds) by done.
  assert (Hx0 : ∃ x0 xs', xs = x0 :: xs' ∧ isDigit x0 = true).
  { destruct xs as [|x0 xs']; [done|]. apply andb_true_iff in Hxs as [? _]. eauto. }
  destruct Hx0 as (x0 & xs' & -> & Hx0). pose proof Hx0 as Hx0'%isDigit_spec.
  unfold exponentValue.
  destruct (exponent_marker e He) as [-> | ->];
    destruct Hsign as [-> | [-> | ->]]; cbn [app].
  all: assert (Hcases : x0 = 48 ∨ x0 = 49 ∨ x0 = 50 ∨ x0 = 51 ∨ x0 = 52 ∨ x0 = 53 ∨
                        x0 = 54 ∨ x0 = 55 ∨ x0 = 56 ∨ x0 = 57) by lia.
  all: destruct Hcases as [->|[->|[->|[->|[->|[->|[->|[->|[->| ->]]]]]]]]].
  all: cbn -[digitsValue decimalToNumber takeDigits Z.lor];
       change (Z.lor 69 32 =? 101) with true; change (Z.lor 101 32 =? 101) with true;
       cbv iota; rewrite (takeDigits_all _ Hxs);
       cbn -[digitsValue decimalToNumber]; rewrite app_nil_r.
  all: f_equal; case_decide; simplify_eq; simpl Z.of_nat; lia.
Qed.

Section ExponentLiterals.
Variable unicodeIDStart : Z → bool.

(** X6: a decimal integer literal with an exponent part, [body e sign ex],
    ended by the end of the input or by a code unit that is neither an
    identifier start nor a digit, scans to a NumericLiteral whose value is
    the Number for [digits * 10^exponent], the separators left out. *)
Theorem decimal_exponent_value p ctx body e sign ex rest :
  drop (index p) (source p) = body ++ e :: sign ++ ex ++ rest →
  nextCP_ p = source p !! index p →
  integerPart body (Some e) →
  Z.lor e 32 = 101 → isSign sign → validBody isDigit false ex = true →
  endsNumeral unicodeIDStart rest →
  ∃ p', scanNumber unicodeIDStart p ctx NumberKind.Decimal
          = Return (p', NumericLiteral) ∧
        tokenValue p' =
          ANum (decimalToNumber (digitsValue (withoutSeparators body))
                  (exponentValue sign (withoutSeparators ex))) ∧
        index p' = (index p + length body + 1 + length sign + length ex)%nat.
Proof.
  intros Hsrc Hn Hint He Hsign Hex Hends.
  assert (Hstop : classify (Some e) (Z.lor CharFlags.Decimal CharFlags.Underscore) = None)
    by (destruct (exponent_marker e He) as [-> | ->]; done).
  destruct (scanInteger (length (source p) + 2) p ctx body
              (e :: sign ++ ex ++ rest) Hsrc Hn Hint Hstop (fuel_covers _ _ _ Hsrc))
    as (p0 & char0 & p1 & text & Hzero & Hrun & -> & Hnext & Hds & Hval).
  simpl (_ !! 0%nat) in Hnext.
  pose proof (drop_after _ _ _ _ Hsrc) as Hsrc1.
  unfold scanNumber, scanNumberFuel, scanMantissa.
  change (test NumberKind.Decimal NumberKind.Float) with false. cbv iota.
  rewrite Hzero. clear Hzero. cbn [mbind outcome_bind]. unfold scanDecimalPart.
  change (test NumberKind.Decimal NumberKind.DecimalNumberKind) with true.
  cbn [mbind outcome_bind]. unfold scanDecimalTail. rewrite Hrun.
  cbn [mbind outcome_bind]. rewrite Hnext.
  destruct (decide (Some e = Some Chars.Period)) as [[= ->]|_]; [done|].
  cbn [mbind outcome_bind]. unfold scanSuffixAndFinish.
  rewrite (scanSuffix_exponent _ _ _ e sign ex rest);
    [| by rewrite advance_index, advance_source | done | done | done
     | by apply (endsNumeral_stop unicodeIDStart) |].
  2:{ pose proof (f_equal length Hsrc1) as Hl.
      rewrite length_drop in Hl. simpl in Hl. rewrite !length_app in Hl. lia. }
  cbn [mbind outcome_bind]. destruct Hends as [Hid Hdec]. unfold jsstring in *.
  unfold finishNumber. rewrite Hid, Hdec, andb_false_r. cbn [orb].
  eexists. split; [done|].
  assert (Hi : ∀ q v, index (if test ctx Context.OptionsRaw
                             then set_tokenRaw (set_tokenValue q v)
                                    (slice (source (set_tokenValue q v))
                                       (tokenIndex (set_tokenValue q v))
                                       (index (set_tokenValue q v)))
                             else set_tokenValue q v) = index q
                     ∧ tokenValue (if test ctx Context.OptionsRaw
                             then set_tokenRaw (set_tokenValue q v)
                                    (slice (source (set_tokenValue q v))
                                       (tokenIndex (set_tokenValue q v))
                                       (index (set_tokenValue q v)))
                             else set_tokenValue q v) = v)
    by (intros; by destruct (test ctx Context.OptionsRaw)).
  destruct (validBody_run _ _ Hex) as (Hall & _ & _ & Hhd).
  destruct (Hhd eq_refl) as (x0 & ex' & Hexeq & Hx0).
  split.
  - rewrite (proj2 (Hi _ _)).
    change (ANum (stringToNumber ((48 :: text) ++ e :: sign ++ withoutSeparators ex)) =
            ANum (decimalToNumber (digitsValue (withoutSeparators body))
                    (exponentValue sign (withoutSeparators ex)))).
    rewrite stringToNumber_exponent;
      [| simpl; by rewrite Hds | done | done | done
       | by apply withoutSeparators_digits |].
    + by rewrite digitsValue_zero, Hval.
    + subst ex. unfold withoutSeparators. simpl.
      assert ((x0 =? 95) = false) as -> by (apply Z.eqb_neq; intros ->; done). done.
  - rewrite (proj1 (Hi _ _)), advance_index, advance_index. lia.
Qed.

End ExponentLiterals.

(** [decimal_exponent_value] at [1e+5]. *)
Lemma decimal_exponent_value_witness :
  ∃ p', scanNumber asciiOnly (startOf "1e+5") Context.None NumberKind.Decimal
          = Return (p', NumericLiteral) ∧
        tokenValue p' =
          ANum (decimalToNumber (digitsValue (withoutSeparators (lit "1")))
                  (exponentValue (lit "+") (withoutSeparators (lit "5")))) ∧
        index p' = (index (startOf "1e+5") + length (lit "1") + 1 + length (lit "+")
                    + length (lit "5"))%nat.
Proof.
  apply (decimal_exponent_value asciiOnly (startOf "1e+5") Context.None
           (lit "1") 101 (lit "+") (lit "5") []).
  - reflexivity.
  - reflexivity.
  - split; [reflexivity | left; discriminate].
  - reflexivity.
  - right; left; reflexivity.
  - reflexivity.
  - split; reflexivity.
Defined.

(** ** Radix literals with a suffix *)

Lemma digitsAux_spec fuel : ∀ z tl,
  0 ≤ z < 10 ^ Z.of_nat (S fuel) →
  ∃ ds, digitsAux (S fuel) z tl = ds ++ tl ∧ forallb isDigit ds = true ∧ ds ≠ [] ∧
        digitsValue ds = z.
Proof.
  assert (Hone : ∀ z tl, 0 ≤ z < 10 →
            ∃ ds, (48 + z) :: tl = ds ++ tl ∧ forallb isDigit ds = true ∧ ds ≠ [] ∧
                  digitsValue ds = z).
  { intros z tl Hz. exists [48 + z]. split_and!; try done.
    - simpl. rewrite andb_true_r. apply isDigit_spec. lia.
    - unfold digitsValue. simpl. lia. }
  induction fuel as [|fuel IH]; intros z tl Hz.
  - change (10 ^ Z.of_nat 1) with 10 in Hz. cbn [digitsAux].
    assert ((z <? 10) = true) as -> by (apply Z.ltb_lt; lia). by apply Hone.
  - cbn [digitsAux]. fold (digitsAux (S fuel)). destruct (z <? 10) eqn:Hlt.
    + apply Z.ltb_lt in Hlt. apply Hone. lia.
    + apply Z.ltb_ge in Hlt.
      rewrite Nat2Z.inj_succ, Z.pow_succ_r in Hz by lia.
      destruct (IH (z / 10) ((48 + z mod 10) :: tl)) as (ds & Hrun & Hds & Hne & Hv).
      { split; [apply Z.div_pos; lia | apply Z.div_lt_upper_bound; lia]. }
      exists (ds ++ [48 + z mod 10]). split_and!.
      * rewrite <- app_assoc. exact Hrun.
      * rewrite forallb_app, Hds. simpl. rewrite andb_true_r. apply isDigit_spec.
        pose proof (Z.mod_pos_bound z 10). lia.
      * by destruct ds.
      * rewrite digitsValue_snoc, Hv. pose proof (Z.div_mod z 10). lia.
Qed.

(** [String(v)] of a whole Number below 10^21 is its decimal digits, and
    they read back as [v]. *)
Lemma decimalDigits_spec z :
  0 ≤ z →
  forallb isDigit (decimalDigits z) = true ∧ decimalDigits z ≠ [] ∧
  digitsValue (decimalDigits z) = z.
Proof.
  intros Hz. unfold decimalDigits.
  destruct (digitsAux_spec (Z.to_nat (Z.log2 z)) z []) as (ds & -> & Hds & Hne & Hv).
  { split; [done|]. rewrite Nat2Z.inj_succ, Z2Nat.id by apply Z.log2_nonneg.
    destruct (decide (z = 0)) as [->|]; [done|].
    pose proof (Z.log2_spec z ltac:(lia)) as [_ Hlt].
    eapply Z.lt_le_trans; [exact Hlt|].
    apply Z.pow_le_mono_l. pose proof (Z.log2_nonneg z). lia. }
  by rewrite app_nil_r.
Qed.

Lemma parseInt_numberToString v :
  0 ≤ v < 9007199254740992 → parseInt (numberToString (Fin v)) = Whole (Fin v).
Proof.
  intros Hv. unfold numberToString.
  assert ((v <? 10 ^ 21) = true) as -> by (apply Z.ltb_lt; lia).
  destruct (decimalDigits_spec v) as (Hds & Hne & Hval); [lia|].
  rewrite parseInt_digits, Hval by done. by rewrite roundInt_small by lia.
Qed.

Lemma radixStop_classify radix flag char :
  radix = 16 ∧ flag = CharFlags.Hex ∨ radix = 8 ∧ flag = CharFlags.Octal ∨
  radix = 2 ∧ flag = CharFlags.Binary →
  radixStop radix char →
  classify char (Z.lor flag CharFlags.Underscore) = None.
Proof.
  intros Hcase Hstop. destruct char as [c|]; [|done].
  destruct (Hstop c eq_refl) as [Hd Hu]. unfold classify.
  rewrite test_lor, CharTypes_Underscore.
  assert ((c =? 95) = false) as -> by (by apply Z.eqb_neq).
  rewrite orb_false_r.
  destruct Hcase as [[-> ->]|[[-> ->]|[-> ->]]]; unfold isDigitOf in Hd; simpl in Hd.
  - by rewrite CharTypes_Hex, Hd.
  - by rewrite CharTypes_Octal, Hd.
  - by rewrite CharTypes_Binary, Hd.
Qed.

(** Lines 32-94 on a radix prefix and its digits, stopped by any code unit
    that is not a digit of the radix. *)
Lemma scanLeadingZero_radix_stop fuel p ctx kind x body rest radix st :
  drop (index p) (source p) = 48 :: x :: body ++ rest →
  radixOfPrefix x = Some radix →
  validBody (isDigitOf radix) false body = true →
  radixStop radix (rest !! 0%nat) →
  mathValue radix body < 9007199254740992 →
  (length body < fuel)%nat →
  ∃ p1 K,
    scanLeadingZero fuel p ctx kind (Fin 0) st false
      = Return (p1, rest !! 0%nat, Fin (mathValue radix body), K, st, true) ∧
    index p1 = (index p + 2 + length body)%nat ∧ sameToken p p1 ∧
    (radix = 16 ∧ K = NumberKind.Hex ∨ radix = 8 ∧ K = NumberKind.Octal ∨
     radix = 2 ∧ K = NumberKind.Binary).
Proof.
  intros Hsrc Hx Hv Hstop Hb Hfuel.
  assert (Hmain : ∃ p1 K,
    scanLeadingZero fuel p ctx kind (Fin 0) st false
      = Return (p1, rest !! 0%nat, Fin (mathValue radix body), K, st, true) ∧
    index p1 = (index p + 2 + length body)%nat ∧
    (radix = 16 ∧ K = NumberKind.Hex ∨ radix = 8 ∧ K = NumberKind.Octal ∨
     radix = 2 ∧ K = NumberKind.Binary)).
  2:{ destruct Hmain as (p1 & K & Hrun & Hi & HK). exists p1, K.
      split_and!; try done. by eapply scanLeadingZero_frame. }
  pose proof (drop_step _ _ _ _ Hsrc) as Hsrc1.
  pose proof (drop_step _ _ _ _ Hsrc1) as Hsrc2.
  pose proof (lookup_drop_0 _ _ _ Hsrc1) as Hc1. simpl in Hc1.
  unfold scanLeadingZero. unfold nextCP at 1. cbn [fst snd index source].
  unfold charCodeAt at 1 2 3 4 5 6 7. rewrite Hc1. cbn [lower].
  apply radixOfPrefix_spec in Hx.
  assert (Hradix : radix = 16 ∨ radix = 8 ∨ radix = 2)
    by (destruct Hx as [[_ ->]|[[_ ->]|[_ ->]]]; auto).
  destruct (radix_classes radix Hradix) as (flag & toDigit & Hcase & Hdig).
  assert (Hr : 0 < radix) by lia.
  assert (Hex : classify (rest !! 0%nat) (Z.lor flag CharFlags.Underscore) = None).
  { apply (radixStop_classify radix); [|done].
    destruct Hcase as [(? & ? & _)|[(? & ? & _)|(? & ? & _)]]; auto. }
  edestruct (scanRadix_run flag radix toDigit (isDigitOf radix)
               (set_cursor p (S (index p)) (S (column p)) (Some x)) body rest fuel)
    as (p1 & Hrun & Hi); [done.. |].
  simpl in Hi.
  destruct Hx as [[Hl ->]|[[Hl ->]|[Hl ->]]]; rewrite Hl;
    destruct Hcase as [(? & -> & ->)|[(? & -> & ->)|(? & -> & ->)]]; try lia;
    cbn [Z.eqb Pos.eqb Chars.LowerX Chars.LowerO Chars.LowerB];
    rewrite Hrun; simpl; exists p1; eexists;
    (split_and!; [done | lia | eauto]).
Qed.

Lemma mathValue_nonneg radix body :
  radix = 16 ∨ radix = 8 ∨ radix = 2 →
  validBody (isDigitOf radix) false body = true → 0 ≤ mathValue radix body.
Proof.
  intros Hr Hv. unfold mathValue.
  apply (foldl_mathStep_ge radix (isDigitOf radix)) with (a := false); try done; [lia|].
  intros c Hc. by apply isDigitOf_spec in Hc as [_ ?].
Qed.

Lemma finish_index_value ctx q v :
  index (if test ctx Context.OptionsRaw
         then set_tokenRaw (set_tokenValue q v)
                (slice (source (set_tokenValue q v)) (tokenIndex (set_tokenValue q v))
                   (index (set_tokenValue q v)))
         else set_tokenValue q v) = index q ∧
  tokenValue (if test ctx Context.OptionsRaw
              then set_tokenRaw (set_tokenValue q v)
                     (slice (source (set_tokenValue q v)) (tokenIndex (set_tokenValue q v))
                        (index (set_tokenValue q v)))
              else set_tokenValue q v) = v.
Proof. by destruct (test ctx Context.OptionsRaw). Qed.

Section RadixSuffix.
Variable unicodeIDStart : Z → bool.

(** X7: an octal or binary literal with a prefix ([0o], [0b]), of a value
    below 2^53, that is followed by an exponent part scans to a
    NumericLiteral whose [tokenValue] is a String, not a Number: the decimal
    digits of the value of the literal followed by the text of the exponent
    part. *)
Theorem radix_exponent_text p ctx kind x body e sign ex rest radix :
  drop (index p) (source p) = 48 :: x :: body ++ e :: sign ++ ex ++ rest →
  nextCP_ p = Some 48 →
  test kind NumberKind.Float = false →
  radixOfPrefix x = Some radix → radix ≠ 16 →
  validBody (isDigitOf radix) false body = true →
  mathValue radix body < 9007199254740992 →
  Z.lor e 32 = 101 → isSign sign → validBody isDigit false ex = true →
  endsNumeral unicodeIDStart rest →
  ∃ p', scanNumber unicodeIDStart p ctx kind = Return (p', NumericLiteral) ∧
        tokenValue p' =
          AStr (numberToString (Fin (mathValue radix body))
                ++ e :: sign ++ withoutSeparators ex) ∧
        index p' = (index p + 2 + length body + 1 + length sign + length ex)%nat.
Proof.
  intros Hsrc Hn Hfloat Hx H16 Hv Hb He Hsign Hex Hends.
  assert (Hfuel : (length body < length (source p) + 2)%nat).
  { apply (f_equal length) in Hsrc. rewrite length_drop in Hsrc. simpl in Hsrc.
    rewrite length_app in Hsrc. lia. }
  assert (Hstop : radixStop radix ((e :: sign ++ ex ++ rest) !! 0%nat)).
  { intros c [= <-]. apply radixOfPrefix_spec in Hx.
    destruct (exponent_marker e He) as [-> | ->];
      destruct Hx as [[_ ->]|[[_ ->]|[_ ->]]]; done. }
  destruct (scanLeadingZero_radix_stop (length (source p) + 2) p ctx kind x body
              (e :: sign ++ ex ++ rest) radix false Hsrc Hx Hv Hstop Hb Hfuel)
    as (p1 & K & Hrun & Hi & [Hs1 He1 Ht1 _ _ _] & HK).
  simpl (_ !! 0%nat) in Hrun.
  assert (HK' : K = NumberKind.Octal ∨ K = NumberKind.Binary)
    by (destruct HK as [[? _]|[[_ ->]|[_ ->]]]; [done | auto | auto]).
  pose proof (drop_after _ _ (48 :: x :: body) _ Hsrc) as Hsrc1.
  assert (Hidx : (index p + length (48%Z :: x :: body))%nat = index p1)
    by (simpl; lia).
  rewrite Hidx in Hsrc1.
  rewrite <- Hs1 in Hsrc1.
  unfold scanNumber, scanNumberFuel, scanMantissa.
  rewrite Hfloat, Hn. destruct (decide (Some 48 = Some Chars.Zero)) as [_|]; [|done].
  rewrite Hrun. cbn [mbind outcome_bind].
  assert (Hk : test K NumberKind.DecimalNumberKind = false)
    by (destruct HK' as [->| ->]; reflexivity).
  unfold scanDecimalPart. rewrite Hk. cbn [mbind outcome_bind].
  unfold scanSuffixAndFinish.
  rewrite (scanSuffix_exponent _ _ _ e sign ex rest);
    [| done | done | done | done | by apply (endsNumeral_stop unicodeIDStart) |].
  2:{ pose proof (f_equal length Hsrc1) as Hl.
      rewrite length_drop, Hs1 in Hl. simpl in Hl. rewrite !length_app in Hl. lia. }
  cbn [mbind outcome_bind]. destruct Hends as [Hid Hdec]. unfold jsstring in *.
  unfold finishNumber. rewrite Hid, Hdec, andb_false_r. cbn [orb].
  eexists. split; [done|].
  destruct (finish_index_value ctx (advance p1 (1 + length sign + length ex))
              (if test K (Z.lor NumberKind.ImplicitOctal
                            (Z.lor NumberKind.Binary
                               (Z.lor NumberKind.Hex NumberKind.Octal)))
               then any_of_acc (addString (AccNum (Fin (mathValue radix body)))
                                  (e :: sign ++ withoutSeparators ex))
               else if test K NumberKind.DecimalWithLeadingZero
               then ANum (parseFloat
                            (substring (source (advance p1 (1 + length sign + length ex)))
                               (tokenIndex (advance p1 (1 + length sign + length ex)))
                               (index (advance p1 (1 + length sign + length ex)))))
               else ANum (toNumber (addString (AccNum (Fin (mathValue radix body)))
                                      (e :: sign ++ withoutSeparators ex)))))
    as [Hfi Hval].
  rewrite Hfi, Hval, advance_index. split; [|lia].
  by destruct HK' as [->| ->].
Qed.

(** X8: a literal with a radix prefix and the suffix [n], of a value below
    2^53, scans to a BigIntLiteral whose [tokenValue] is the Number with
    the value of the digits in the radix: the digits are accumulated as a
    Number, turned into decimal text and read back by [parseInt]. *)
Theorem radix_bigint_value p ctx kind x body rest radix :
  drop (index p) (source p) = 48 :: x :: body ++ Chars.LowerN :: rest →
  nextCP_ p = Some 48 →
  test kind NumberKind.Float = false →
  radixOfPrefix x = Some radix →
  validBody (isDigitOf radix) false body = true →
  mathValue radix body < 9007199254740992 →
  endsNumeral unicodeIDStart rest →
  ∃ p', scanNumber unicodeIDStart p ctx kind = Return (p', BigIntLiteral) ∧
        tokenValue p' = num (mathValue radix body) ∧
        index p' = (index p + 2 + length body + 1)%nat.
Proof.
  intros Hsrc Hn Hfloat Hx Hv Hb Hends.
  assert (Hfuel : (length body < length (source p) + 2)%nat).
  { apply (f_equal length) in Hsrc. rewrite length_drop in Hsrc. simpl in Hsrc.
    rewrite length_app in Hsrc. lia. }
  assert (Hradix : radix = 16 ∨ radix = 8 ∨ radix = 2).
  { apply radixOfPrefix_spec in Hx. destruct Hx as [[_ ->]|[[_ ->]|[_ ->]]]; auto. }
  assert (Hstop : radixStop radix ((Chars.LowerN :: rest) !! 0%nat)).
  { intros c [= <-]. destruct Hradix as [->|[->| ->]]; done. }
  destruct (scanLeadingZero_radix_stop (length (source p) + 2) p ctx kind x body
              (Chars.LowerN :: rest) radix false Hsrc Hx Hv Hstop Hb Hfuel)
    as (p1 & K & Hrun & Hi & [Hs1 He1 Ht1 _ _ _] & HK).
  simpl (_ !! 0%nat) in Hrun.
  assert (HK' : K = NumberKind.Hex ∨ K = NumberKind.Octal ∨ K = NumberKind.Binary)
    by (destruct HK as [[_ ->]|[[_ ->]|[_ ->]]]; auto).
  pose proof (drop_after _ _ (48 :: x :: body) _ Hsrc) as Hsrc1.
  assert (Hidx : (index p + length (48%Z :: x :: body))%nat = index p1)
    by (simpl; lia).
  rewrite Hidx in Hsrc1.
  pose proof (drop_step _ _ _ _ Hsrc1) as Hsrc2.
  pose proof (lookup_drop_0 _ _ _ Hsrc2) as Hc2. rewrite <- Hs1 in Hc2.
  unfold scanNumber, scanNumberFuel, scanMantissa.
  rewrite Hfloat, Hn. destruct (decide (Some 48 = Some Chars.Zero)) as [_|]; [|done].
  rewrite Hrun. cbn [mbind outcome_bind].
  assert (Hk : test K NumberKind.DecimalNumberKind = false)
    by (destruct HK' as [->|[->| ->]]; reflexivity).
  assert (Hbig : test K NumberKind.ValidBigIntKind = true)
    by (destruct HK' as [->|[->| ->]]; reflexivity).
  unfold scanDecimalPart. rewrite Hk. cbn [mbind outcome_bind].
  unfold scanSuffixAndFinish, scanSuffix.
  rewrite bool_decide_eq_true_2, Hbig by done. cbn [andb].
  unfold nextCP, charCodeAt. rewrite Hc2. cbn [mbind outcome_bind].
  destruct Hends as [Hid Hdec]. unfold jsstring in *.
  unfold finishNumber. rewrite Hid, Hdec, andb_false_r. cbn [orb].
  eexists. split; [done|].
  cbn [tokenValue index set_tokenValue set_tokenRaw set_cursor]. split; [|lia].
  change (toString (AccNum (Fin (mathValue radix body))))
    with (numberToString (Fin (mathValue radix body))).
  rewrite parseInt_numberToString; [done|].
  split; [by apply mathValue_nonneg | done].
Qed.

(** X9: a radix prefix ([0x], [0o] or [0b], in either case) that is not
    followed by a digit of its radix nor by a [_] makes [scanNumber] throw
    MissingHexDigits, for the octal and the binary prefix as well. *)
Theorem radix_needs_digit p ctx kind x rest radix :
  drop (index p) (source p) = 48 :: x :: rest →
  nextCP_ p = Some 48 →
  test kind NumberKind.Float = false →
  radixOfPrefix x = Some radix →
  radixStop radix (rest !! 0%nat) →
  scanNumber unicodeIDStart p ctx kind = Throw MissingHexDigits.
Proof.
  intros Hsrc Hn Hfloat Hx Hstop.
  pose proof (drop_step _ _ _ _ Hsrc) as Hsrc1.
  pose proof (drop_step _ _ _ _ Hsrc1) as Hsrc2.
  pose proof (lookup_drop_0 _ _ _ Hsrc1) as Hc1. simpl in Hc1.
  pose proof (lookup_drop_0 _ _ _ Hsrc2) as Hc2.
  unfold scanNumber, scanNumberFuel, scanMantissa.
  rewrite Hfloat, Hn. destruct (decide (Some 48 = Some Chars.Zero)) as [_|]; [|done].
  unfold scanLeadingZero. unfold nextCP at 1. cbn [fst snd index source].
  unfold charCodeAt at 1 2 3 4 5 6 7. rewrite Hc1. cbn [lower].
  apply radixOfPrefix_spec in Hx.
  assert (Hloop : ∀ flag toDigit r,
            classify (rest !! 0%nat) (Z.lor flag CharFlags.Underscore) = None →
            scanRadix (length (source p) + 2) flag r toDigit
              (set_cursor p (S (index p)) (S (column p)) (Some x)) (Fin 0) 0 false
            = Throw MissingHexDigits).
  { intros flag toDigit r Hcl. unfold scanRadix, nextCP, charCodeAt.
    cbn [fst snd index source set_cursor]. rewrite Hc2.
    replace (length (source p) + 2)%nat with (S (length (source p) + 1)) by lia.
    cbn [scanRadixDigits]. by rewrite Hcl. }
  destruct Hx as [[Hl ->]|[[Hl ->]|[Hl ->]]]; rewrite Hl;
    cbn [Z.eqb Pos.eqb Chars.LowerX Chars.LowerO Chars.LowerB];
    rewrite Hloop; try done.
  - apply (radixStop_classify 16); auto.
  - apply (radixStop_classify 8); auto.
  - apply (radixStop_classify 2); auto.
Qed.

End RadixSuffix.

(** [radix_exponent_text] at [0b1e5]. *)
Lemma radix_exponent_text_witness :
  ∃ p', scanNumber asciiOnly (startOf "0b1e5") Context.None NumberKind.Decimal
          = Return (p', NumericLiteral) ∧
        tokenValue p' =
          AStr (numberToString (Fin (mathValue 2 (lit "1")))
                ++ 101 :: [] ++ withoutSeparators (lit "5")) ∧
        index p' = (index (startOf "0b1e5") + 2 + length (lit "1") + 1
                    + length (@nil Z) + length (lit "5"))%nat.
Proof.
  apply (radix_exponent_text asciiOnly (startOf "0b1e5") Context.None
           NumberKind.Decimal 98 (lit "1") 101 [] (lit "5") [] 2).
  - reflexivity.
  - reflexivity.
  - reflexivity.
  - reflexivity.
  - lia.
  - reflexivity.
  - reflexivity.
  - reflexivity.
  - left; reflexivity.
  - reflexivity.
  - split; reflexivity.
Defined.

(** [radix_bigint_value] at [0x1Fn]. *)
Lemma radix_bigint_value_witness :
  ∃ p', scanNumber asciiOnly (startOf "0x1Fn") Context.None NumberKind.Decimal
          = Return (p', BigIntLiteral) ∧
        tokenValue p' = num (mathValue 16 (lit "1F")) ∧
        index p' = (index (startOf "0x1Fn") + 2 + length (lit "1F") + 1)%nat.
Proof.
  apply (radix_bigint_value asciiOnly (startOf "0x1Fn") Context.None
           NumberKind.Decimal 120 (lit "1F") [] 16).
  - reflexivity.
  - reflexivity.
  - reflexivity.
  - reflexivity.
  - reflexivity.
  - reflexivity.
  - split; reflexivity.
Defined.

(** [radix_needs_digit] at [0b2]. *)
Lemma radix_needs_digit_witness :
  scanNumber asciiOnly (startOf "0b2") Context.None NumberKind.Decimal
    = Throw MissingHexDigits.
Proof.
  apply (radix_needs_digit asciiOnly (startOf "0b2") Context.None
           NumberKind.Decimal 98 (lit "2") 2).
  - reflexivity.
  - reflexivity.
  - reflexivity.
  - reflexivity.
  - intros c [= <-]. split; [reflexivity | lia].
Defined.

(** ** What a scan does to the parser state *)

Lemma scanDigitsLoop_flags fuel : ∀ p char a start ret p' a' start' ret',
  scanDigitsLoop fuel p char a start ret = Return (p', a', start', ret') →
  flags p' = flags p.
Proof.
  induction fuel as [|fuel IH]; intros p char a start ret p' a' start' ret' H; simpl in H.
  - destruct (classify _ _); [done|]. by injection H as <- <- <- <-.
  - destruct (classify _ _) as [c|]; [|by injection H as <- <- <- <-].
    destruct (c =? Chars.Underscore).
    + destruct (decide _); [done|]. by apply IH in H.
    + by apply IH in H.
Qed.

Lemma scanDecimalDigitsOrSeparator_flags fuel p char p' s :
  scanDecimalDigitsOrSeparator fuel p char = Return (p', s) → flags p' = flags p.
Proof.
  unfold scanDecimalDigitsOrSeparator. intros H. inv_bind H as [[[p1 a1] st1] ret1] H0.
  apply scanDigitsLoop_flags in H0.
  destruct a1; [done|]. by injection H as <- <-.
Qed.

Lemma scanRadixDigits_flags fuel flag radix toDigit :
  ∀ p char v d a p' char' v' d' a',
  scanRadixDigits fuel flag radix toDigit p char v d a = Return (p', char', v', d', a') →
  flags p' = flags p.
Proof.
  induction fuel as [|fuel IH]; intros p char v d a p' char' v' d' a' H; simpl in H.
  - destruct (classify _ _); [done|]. by injection H as <- <- <- <- <-.
  - destruct (classify _ _) as [c|]; [|by injection H as <- <- <- <- <-].
    destruct (c =? Chars.Underscore).
    + destruct (negb a); [done|]. by apply IH in H.
    + by apply IH in H.
Qed.

Lemma scanRadix_flags fuel flag radix toDigit p v d a p' char' v' a' :
  scanRadix fuel flag radix toDigit p v d a = Return (p', char', v', a') →
  flags p' = flags p.
Proof.
  unfold scanRadix. intros H. simpl in H. inv_bind H as [[[[p1 c1] v1] d1] a1] H0.
  apply scanRadixDigits_flags in H0.
  destruct (_ || _); [done|]. by injection H as <- <- <- <-.
Qed.

Lemma scanImplicitOctal_flags fuel : ∀ p char v k s p' char' v' k' s',
  scanImplicitOctal fuel p char v k s = Return (p', char', v', k', s') →
  flags p' = flags p.
Proof.
  induction fuel as [|fuel IH]; intros p char v k s p' char' v' k' s' H; simpl in H.
  - destruct (classify _ _); [done|]. by injection H as <- <- <- <- <-.
  - destruct (classify _ _) as [c|]; [|by injection H as <- <- <- <- <-].
    destruct (test _ _).
    + by injection H as <- <- <- <- <-.
    + by apply IH in H.
Qed.

Lemma scanFastDigits_flags fuel : ∀ p char v d a p' char' v' d' a',
  scanFastDigits fuel p char v d a = Return (p', char', v', d', a') →
  flags p' = flags p.
Proof.
  induction fuel as [|fuel IH]; intros p char v d a p' char' v' d' a' H; simpl in H.
  - destruct (if 0 <=? d then _ else _); [done|]. by injection H as <- <- <- <- <-.
  - destruct (if 0 <=? d then _ else _) as [c|]; [|by injection H as <- <- <- <- <-].
    destruct (c =? Chars.Underscore).
    + destruct (decide _); [done|]. by apply IH in H.
    + by apply IH in H.
Qed.

Lemma scanDecimalTail_flags fuel p k char v p' char' v' k' :
  scanDecimalTail fuel p k char v = Return (p', char', v', k') → flags p' = flags p.
Proof.
  unfold scanDecimalTail. intros H. inv_bind H as [p1 s1] H1.
  apply scanDecimalDigitsOrSeparator_flags in H1.
  destruct (decide _).
  - simpl in H. destruct (decide _); [done|]. inv_bind H as [p2 s2] H2.
    apply scanDecimalDigitsOrSeparator_flags in H2. injection H as <- <- <- <-.
    by rewrite H2.
  - by injection H as <- <- <- <-.
Qed.

Lemma scanSuffix_flags fuel p k char v p' char' v' big :
  scanSuffix fuel p k char v = Return (p', char', v', big) → flags p' = flags p.
Proof.
  unfold scanSuffix. intros H.
  destruct (_ && _).
  { simpl in H. by injection H as <- <- <- <-. }
  destruct (_ =? _); [|by injection H as <- <- <- <-].
  simpl in H. destruct (classify _ CharFlags.Exponent); simpl in H.
  - destruct (classify _ CharFlags.Decimal); [|done].
    inv_bind H as [p2 s2] H2. injection H as <- <- <- <-.
    by apply scanDecimalDigitsOrSeparator_flags in H2.
  - destruct (classify _ CharFlags.Decimal); [|done].
    inv_bind H as [p2 s2] H2. injection H as <- <- <- <-.
    by apply scanDecimalDigitsOrSeparator_flags in H2.
Qed.

Lemma scanLeadingZero_flags fuel p ctx k v s a p' char' v' k' s' a' :
  scanLeadingZero fuel p ctx k v s a = Return (p', char', v', k', s', a') →
  flags p' =
    (if classify (source p !! S (index p)) CharFlags.ImplicitOctalDigits is Some _
     then Flags.Octals else flags p) ∧
  (classify (source p !! S (index p)) CharFlags.ImplicitOctalDigits ≠ None →
   test ctx Context.Strict = false).
Proof.
  unfold scanLeadingZero, nextCP, charCodeAt. cbn [fst snd]. intros H.
  destruct (classify (source p !! S (index p)) CharFlags.ImplicitOctalDigits)
    as [c|] eqn:Himp.
  - apply classify_Some in Himp as [Hc Himp]. rewrite Hc in H.
    rewrite CharTypes_ImplicitOctalDigits in Himp.
    assert (Hc89 : c = 56 ∨ c = 57) by bool_lia.
    assert (Hbr : (lower (Some c) =? Chars.LowerX) = false ∧
                  (lower (Some c) =? Chars.LowerO) = false ∧
                  (lower (Some c) =? Chars.LowerB) = false ∧
                  classify (Some c) CharFlags.Octal = None ∧
                  classify (Some c) CharFlags.ImplicitOctalDigits = Some c)
      by (destruct Hc89 as [-> | ->]; done).
    destruct Hbr as (Hx & Ho & Hb & Hoct & Himp').
    rewrite Hx, Ho, Hb, Hoct in H.
    destruct (test ctx Context.Strict); [done|].
    by injection H as <- <- <- <- <- <-.
  - split; [|done].
    destruct (_ =? Chars.LowerX).
    { inv_bind H as [[[p1 c1] v1] a1] Hr. apply scanRadix_flags in Hr.
      by injection H as <- <- <- <- <- <-. }
    destruct (_ =? Chars.LowerO).
    { inv_bind H as [[[p1 c1] v1] a1] Hr. apply scanRadix_flags in Hr.
      by injection H as <- <- <- <- <- <-. }
    destruct (_ =? Chars.LowerB).
    { inv_bind H as [[[p1 c1] v1] a1] Hr. apply scanRadix_flags in Hr.
      by injection H as <- <- <- <- <- <-. }
    destruct (classify _ CharFlags.Octal).
    { destruct (test ctx _); [done|].
      inv_bind H as [[[[p1 c1] v1] k1] s1] Hr. apply scanImplicitOctal_flags in Hr.
      by injection H as <- <- <- <- <- <-. }
    destruct (decide _); [done|]. by injection H as <- <- <- <- <- <-.
Qed.

Section StateProperties.
Variable unicodeIDStart : Z → bool.

Lemma scanDecimalPart_flags fuel p ctx k char v a p' char' v' k' :
  scanDecimalPart unicodeIDStart fuel p ctx k char v false a
    = Return (inr (p', char', v', k')) → flags p' = flags p.
Proof.
  unfold scanDecimalPart. intros H. destruct (test k _).
  - simpl in H. inv_bind H as [[[p1 c1] v1] k1] H1. injection H as <- <- <- <-.
    by eapply scanDecimalTail_flags.
  - by injection H as <- <- <- <-.
Qed.

(** X10: what a successful scan does to [parser.flags]: a literal that
    starts with [0] followed by [8] or [9] (so outside strict mode) leaves
    it at exactly [Flags.Octals], every other flag bit dropped; any other
    literal leaves it as it was. *)
Theorem flags_after_scan p ctx kind p' tok :
  scanNumber unicodeIDStart p ctx kind = Return (p', tok) →
  flags p' = (if zeroThenNonOctal p kind then Flags.Octals else flags p) ∧
  (zeroThenNonOctal p kind = true → test ctx Context.Strict = false).
Proof.
  unfold scanNumber, scanNumberFuel, scanMantissa, zeroThenNonOctal. intros H.
  inv_bind H as r Hm.
  assert (Hrest : ∀ p1 c1 v1 k1,
            r = inr (p1, c1, v1, k1) → flags p' = flags p1).
  { intros p1 c1 v1 k1 ->. unfold scanSuffixAndFinish in H.
    inv_bind H as [[[p2 c2] v2] big] H2. apply scanSuffix_flags in H2.
    apply finishNumber_inv in H as (_ & _ & _ & _ & -> & _). done. }
  destruct (test kind NumberKind.Float) eqn:Hf; cbn [negb andb].
  - split; [|done]. inv_bind Hm as [p1 s1] H1. destruct (decide _); [done|].
    injection Hm as <-. rewrite (Hrest _ _ _ _ eq_refl).
    by eapply scanDecimalDigitsOrSeparator_flags.
  - inv_bind Hm as [[[[[p1 c1] v1] k1] st1] a1] H1.
    destruct (decide (nextCP_ p = Some Chars.Zero)) as [Hz|Hz].
    + rewrite bool_decide_eq_true_2 by done. cbn [andb].
      pose proof (scanLeadingZero_atStart _ _ _ _ _ _ _ _ _ _ _ _ _ H1 eq_refl) as ->.
      apply scanLeadingZero_flags in H1 as [Hfl Hstrict].
      destruct r as [done|[[[p2 c2] v2] k2]].
      { by apply scanDecimalPart_general in Hm as (? & ? & ? & ? & ? & _). }
      apply scanDecimalPart_flags in Hm. rewrite (Hrest _ _ _ _ eq_refl), Hm, Hfl.
      destruct (classify (source p !! S (index p)) CharFlags.ImplicitOctalDigits);
        split; try done. intros _. by apply Hstrict.
    + rewrite bool_decide_eq_false_2 by done. cbn [andb]. split; [|done].
      injection H1 as <- <- <- <- <- <-.
      destruct r as [done|[[[p2 c2] v2] k2]].
      { by apply scanDecimalPart_general in Hm as (? & ? & ? & ? & ? & _). }
      apply scanDecimalPart_flags in Hm. by rewrite (Hrest _ _ _ _ eq_refl).
Qed.

(** X11: a successful scan leaves [source], [end] and [tokenIndex] as they
    were and never moves the cursor back; when [nextCP] was the code unit
    under the cursor before, it is so afterwards; and entered on a decimal
    digit before [parser.end] the scan consumes at least one code unit. *)
Theorem scanNumber_frame p ctx kind p' tok :
  scanNumber unicodeIDStart p ctx kind = Return (p', tok) →
  source p' = source p ∧ end_ p' = end_ p ∧ tokenIndex p' = tokenIndex p ∧
  (index p ≤ index p')%nat ∧
  (nextCP_ p = source p !! index p →
   nextCP_ p' = source p' !! index p' ∧
   (hasFlag CharFlags.Decimal (nextCP_ p) → (index p < end_ p)%nat →
    (index p < index p')%nat)).
Proof.
  intros H.
  apply scanNumber_general in H as (p2 & char & k & v & big & F & Hfin & Hspec).
  destruct F as [Hs He Ht _ _ Hi].
  assert (Hn : nextCP_ p' = nextCP_ p2).
  { unfold finishNumber in Hfin. destruct (_ || _); [done|].
    destruct big; injection Hfin as <- _; [done|].
    by destruct (test ctx Context.OptionsRaw). }
  apply finishNumber_inv in Hfin
    as (Hs' & Hi' & He' & Ht' & _ & _ & _ & _ & Hdec & _).
  rewrite Hs', Hi', He', Ht', Hs, He, Ht. split_and!; try done.
  intros Hsync. destruct (Hspec Hsync) as [[Hn2 Hc2] _].
  split; [by rewrite Hn, Hn2, Hc2, Hs|].
  intros Hd Hlt. destruct (decide (index p2 = index p)) as [E|]; [|lia].
  exfalso. apply Hdec; [lia|]. by rewrite Hc2, Hs, E, <- Hsync.
Qed.

(** X12: of the context [scanNumber] reads the [Strict] and the
    [OptionsRaw] bit only: two contexts that agree on these two bits give
    the same result, error or token, and the same parser state. *)
Theorem context_bits_read p ctx ctx' kind :
  Z.land ctx (Z.lor Context.Strict Context.OptionsRaw)
    = Z.land ctx' (Z.lor Context.Strict Context.OptionsRaw) →
  scanNumber unicodeIDStart p ctx kind = scanNumber unicodeIDStart p ctx' kind.
Proof.
  intros H.
  assert (Hbit : ∀ m, Z.land (Z.lor Context.Strict Context.OptionsRaw) m = m →
                      test ctx m = test ctx' m).
  { intros m Hm. unfold test. by rewrite <- Hm, !Z.land_assoc, H. }
  apply scanNumber_context; by apply Hbit.
Qed.

(** X13: the [Strict] bit matters only for a literal that starts with [0]
    followed by a decimal digit: for any other input, two contexts that
    agree on [OptionsRaw] give the same result. *)
Theorem strict_only_after_zero p ctx ctx' kind :
  test ctx Context.OptionsRaw = test ctx' Context.OptionsRaw →
  (test kind NumberKind.Float = false → nextCP_ p = Some Chars.Zero →
   classify (source p !! S (index p)) CharFlags.Decimal = None) →
  scanNumber unicodeIDStart p ctx kind = scanNumber unicodeIDStart p ctx' kind.
Proof.
  intros Hr Hzero.
  assert (Hfin : ∀ p k c v b, finishNumber unicodeIDStart p ctx k c v b
                              = finishNumber unicodeIDStart p ctx' k c v b).
  { intros. unfold finishNumber. by rewrite Hr. }
  assert (Hsf : ∀ f p k c v, scanSuffixAndFinish unicodeIDStart f p ctx k c v
                             = scanSuffixAndFinish unicodeIDStart f p ctx' k c v).
  { intros. unfold scanSuffixAndFinish.
    destruct (scanSuffix _ _ _ _ _) as [[[[? ?] ?] ?]| |]; simpl; auto. }
  assert (Hfp : ∀ f p c v a, scanFastPath unicodeIDStart f p ctx c v a
                             = scanFastPath unicodeIDStart f p ctx' c v a).
  { intros. unfold scanFastPath.
    destruct (scanFastDigits _ _ _ _ _ _) as [[[[[? ?] ?] ?] ?]| |]; simpl; auto.
    by rewrite Hr. }
  assert (Hdp : ∀ f p k c v s a, scanDecimalPart unicodeIDStart f p ctx k c v s a
                                 = scanDecimalPart unicodeIDStart f p ctx' k c v s a).
  { intros. unfold scanDecimalPart. by rewrite Hfp. }
  unfold scanNumber, scanNumberFuel, scanMantissa.
  destruct (test kind NumberKind.Float).
  - destruct (scanDecimalDigitsOrSeparator _ _ _) as [[? ?]| |]; simpl; auto.
    destruct (decide _); simpl; auto.
  - assert (Hlz : ∀ f k v s a, nextCP_ p = Some Chars.Zero →
                    scanLeadingZero f p ctx k v s a = scanLeadingZero f p ctx' k v s a).
    { intros f k v s a Hz. specialize (Hzero eq_refl Hz).
      apply classify_None in Hzero.
      unfold scanLeadingZero, nextCP, charCodeAt. cbn [fst snd].
      assert (classify (source p !! S (index p)) CharFlags.Octal = None) as ->
        by (apply classify_None; intros ?%Octal_Decimal; done).
      assert (classify (source p !! S (index p)) CharFlags.ImplicitOctalDigits = None)
        as ->; [|done].
      apply classify_None. intros (c & Hc & Hi). apply Hzero. exists c. split; [done|].
      rewrite CharTypes_ImplicitOctalDigits in Hi. rewrite CharTypes_Decimal.
      unfold isDigit. apply andb_true_iff. split; apply Z.leb_le; bool_lia. }
    destruct (decide (nextCP_ p = Some Chars.Zero)) as [Hz|].
    + rewrite (Hlz _ _ _ _ _ Hz).
      destruct (scanLeadingZero _ _ _ _ _ _ _) as [[[[[[? ?] ?] ?] ?] ?]| |];
        simpl; auto.
      rewrite Hdp. destruct (scanDecimalPart _ _ _ _ _ _ _ _ _) as [[?|[[[? ?] ?] ?]]| |];
        simpl; auto.
    + simpl. rewrite Hdp.
      destruct (scanDecimalPart _ _ _ _ _ _ _ _ _) as [[?|[[[? ?] ?] ?]]| |];
        simpl; auto.
Qed.

End StateProperties.

(** [flags_after_scan] at [08] with other flag bits set before. *)
Lemma flags_after_scan_witness :
  flags (mkParser (lit "08") 2 2 2 None 0 (num 8) [] Flags.Octals) =
  (if zeroThenNonOctal (set_flags (startOf "08") 7) NumberKind.Decimal
   then Flags.Octals else flags (set_flags (startOf "08") 7)).
Proof.
  refine (proj1 (flags_after_scan asciiOnly (set_flags (startOf "08") 7) Context.None
                   NumberKind.Decimal _ NumericLiteral _)).
  vm_compute. reflexivity.
Defined.

(** [scanNumber_frame] at [42]. *)
Lemma scanNumber_frame_witness :
  source (set_tokenValue (parserAt "42" 0 2) (num 42)) = source (startOf "42").
Proof.
  refine (proj1 (scanNumber_frame asciiOnly (startOf "42") Context.None
                   NumberKind.Decimal _ NumericLiteral _)).
  vm_compute. reflexivity.
Defined.

(** [context_bits_read] at the contexts OptionsWebCompat and None. *)
Lemma context_bits_read_witness :
  scanNumber asciiOnly (startOf "0755") Context.OptionsWebCompat NumberKind.Decimal
    = scanNumber asciiOnly (startOf "0755") Context.None NumberKind.Decimal.
Proof.
  apply (context_bits_read asciiOnly (startOf "0755") Context.OptionsWebCompat
           Context.None). reflexivity.
Defined.

(** [strict_only_after_zero] at [0x1F]. *)
Lemma strict_only_after_zero_witness :
  scanNumber asciiOnly (startOf "0x1F") Context.Strict NumberKind.Decimal
    = scanNumber asciiOnly (startOf "0x1F") Context.None NumberKind.Decimal.
Proof.
  apply (strict_only_after_zero asciiOnly (startOf "0x1F") Context.Strict Context.None).
  - reflexivity.
  - reflexivity.
Defined.

(** ** Separators after a leading zero, and the fraction alone *)

Lemma parseFloat_until_separator ds more :
  forallb isDigit ds = true → ds ≠ [] →
  parseFloat (ds ++ 95 :: more) = Whole (roundInt (digitsValue ds)).
Proof.
  intros Hds Hne. unfold parseFloat.
  destruct (decide _) as [E|_].
  { destruct ds as [|c ds]; [done|]. simpl in Hds. apply andb_true_iff in Hds as [Hc _].
    change infinityText with (73 :: lit "nfinity") in E. simpl in E.
    injection E as -> _. done. }
  unfold parseDecimalPrefix. rewrite (takeDigits_app ds (95 :: more) Hds) by done.
  destruct ds as [|c ds]; [done|]. cbn -[digitsValue]. rewrite app_nil_r.
  apply decimalToNumber_int.
Qed.

Lemma stringToNumber_point fs :
  forallb isDigit fs = true → fs ≠ [] →
  stringToNumber (46 :: fs) =
    decimalToNumber (digitsValue fs) (- Z.of_nat (length fs)).
Proof.
  intros Hfs Hne. unfold stringToNumber.
  destruct (decide _) as [|_]; [done|]. destruct (decide _) as [|_]; [done|].
  unfold parseDecimalPrefix. cbn [takeDigits]. change (isDigit 46) with false. cbv iota.
  rewrite (takeDigits_all _ Hfs). destruct fs as [|c fs]; [done|]. done.
Qed.

Section SeparatorsAndFraction.
Variable unicodeIDStart : Z → bool.

Lemma leading_zero_tail_run fuel q ctx c v run rest :
  source q !! index q = Some c →
  drop (index q) (source q) = run ++ rest →
  validBody isDigit false run = true →
  endsNumeral unicodeIDStart rest → rest !! 0%nat ≠ Some Chars.Period →
  (length run < fuel)%nat →
  ∃ q',
    (r ← scanDecimalPart unicodeIDStart fuel q ctx
           NumberKind.DecimalWithLeadingZero (Some c) v false false;
     match r with
     | inl done => Return done
     | inr (parser, char, value, kind) =>
         scanSuffixAndFinish unicodeIDStart fuel parser ctx kind char value
     end) = Return (q', NumericLiteral) ∧
    tokenValue q' =
      ANum (parseFloat (substring (source q) (tokenIndex q) (index q + length run))) ∧
    index q' = (index q + length run)%nat.
Proof.
  intros Hc Hsrc Hvalid Hends Hdot Hfuel.
  destruct (validBody_run _ _ Hvalid) as (Hall & Hdbl & Htr & Hhd).
  destruct (Hhd eq_refl) as (c0 & run' & -> & Hc0). specialize (Htr ltac:(done)).
  pose proof (scanDecimalDigitsOrSeparator_run q (c0 :: run') rest fuel Hsrc Hall
                (endsNumeral_stop unicodeIDStart _ Hends) Hfuel) as Hrun.
  rewrite Hdbl, Htr, Hc in Hrun.
  pose proof (lookup_after _ _ _ _ Hsrc) as Hnext.
  unfold scanDecimalPart.
  change (test NumberKind.DecimalWithLeadingZero NumberKind.DecimalNumberKind) with true.
  cbn [mbind outcome_bind]. unfold scanDecimalTail. rewrite Hrun.
  cbn [mbind outcome_bind]. cbn [length] in *. rewrite advance_nextCP_, Hnext.
  destruct (decide (rest !! 0%nat = Some Chars.Period)) as [|_]; [done|].
  cbn [mbind outcome_bind]. destruct Hends as [Hid Hdec]. unfold jsstring in *.
  destruct (suffix_finish_plain unicodeIDStart fuel (advance q (S (length run'))) ctx
              NumberKind.DecimalWithLeadingZero _
              (addString (AccNum v) (withoutSeparators (c0 :: run'))) Hid Hdec)
    as (q' & -> & Hfin).
  exists q'. split; [done|].
  apply finishNumber_inv in Hfin as (_ & -> & _ & _ & _ & _ & _ & _ & _ & ->).
  rewrite advance_index, advance_source.
  destruct (advance_frame q (S (length run'))) as (_ & Ht & _). rewrite Ht.
  split; [|done]. reflexivity.
Qed.

(** X14: a literal [0] followed by decimal digits of which one is [8] or
    [9], then a [_] and further digits (single [_] between them), scans
    outside strict mode to a NumericLiteral whose value is the value of the
    digits before the first [_] only: the digits after it are consumed, but
    [parseFloat] of the source text stops at the [_]. *)
Theorem leading_zero_separator p ctx ds more rest :
  drop (index p) (source p) = 48 :: ds ++ 95 :: more ++ rest →
  nextCP_ p = Some 48 → tokenIndex p = index p →
  test ctx Context.Strict = false →
  forallb isDigit ds = true → existsb is89 ds = true →
  validBody isDigit false more = true →
  endsNumeral unicodeIDStart rest → rest !! 0%nat ≠ Some Chars.Period →
  ∃ p', scanNumber unicodeIDStart p ctx NumberKind.Decimal
          = Return (p', NumericLiteral) ∧
        tokenValue p' = ANum (Whole (roundInt (digitsValue ds))) ∧
        index p' = (index p + 1 + length ds + 1 + length more)%nat.
Proof.
  intros Hsrc Hn Htok Hstrict Hds H89 Hmore Hends Hdot.
  destruct ds as [|d0 ds']; [done|].
  pose proof (drop_step _ _ _ _ Hsrc) as Hsrc1.
  pose proof (lookup_drop_0 _ _ _ Hsrc1) as Hc1; simpl in Hc1.
  pose proof Hds as [Hd0 _]%andb_true_iff.
  unfold scanNumber, scanNumberFuel, scanMantissa.
  change (test NumberKind.Decimal NumberKind.Float) with false. cbv iota.
  rewrite Hn; destruct (decide _) as [_|]; [|done].
  unfold scanLeadingZero, nextCP, charCodeAt.
  cbn [fst snd index source set_cursor]; rewrite !Hc1; cbn [lower].
  change Chars.LowerX with 120; change Chars.LowerO with 111;
    change Chars.LowerB with 98.
  rewrite !(lower_digit d0) by (done || lia).
  unfold classify; rewrite CharTypes_Octal, CharTypes_ImplicitOctalDigits.
  fold (is89 d0). rewrite Hstrict.
  assert (Hfuel : (length ((d0 :: ds') ++ 95%Z :: more) < length (source p) + 2)%nat).
  { apply (f_equal length) in Hsrc. rewrite length_drop in Hsrc. simpl in *.
    rewrite !length_app in *. simpl in *. rewrite length_app in Hsrc. lia. }
  assert (Htail : ∀ q c v ds2,
            source q = source p → tokenIndex q = tokenIndex p →
            source q !! index q = Some c →
            drop (index q) (source q) = (ds2 ++ 95 :: more) ++ rest →
            forallb isDigit ds2 = true → ds2 ≠ [] →
            (index q + length ds2 = index p + 1 + length (d0 :: ds'))%nat →
            ∃ p',
              (r ← scanDecimalPart unicodeIDStart (length (source p) + 2) q ctx
                     NumberKind.DecimalWithLeadingZero (Some c) v false false;
               match r with
               | inl done => Return done
               | inr (parser, char, value, kind) =>
                   scanSuffixAndFinish unicodeIDStart (length (source p) + 2)
                     parser ctx kind char value
               end) = Return (p', NumericLiteral) ∧
              tokenValue p' = ANum (Whole (roundInt (digitsValue (d0 :: ds')))) ∧
              index p' = (index p + 1 + length (d0 :: ds') + 1 + length more)%nat).
  { intros q c v ds2 Hsq Htq Hcq Hdq Hds2 Hne2 Hiq.
    assert (Hv2 : validBody isDigit false (ds2 ++ 95 :: more) = true).
    { clear -Hds2 Hne2 Hmore. destruct ds2 as [|x ds2]; [done|].
      simpl in Hds2. apply andb_true_iff in Hds2 as [Hx Hds2].
      assert (Hx' : (x =? 95) = false) by (unfold isDigit in Hx; bool_lia).
      cbn [app validBody]. rewrite Hx', Hx. cbn [andb].
      revert Hds2. clear -Hmore. induction ds2 as [|y ds2 IH]; intros Hds2.
      - simpl. exact Hmore.
      - simpl in Hds2. apply andb_true_iff in Hds2 as [Hy Hds2].
        assert (Hy' : (y =? 95) = false) by (unfold isDigit in Hy; bool_lia).
        cbn [app validBody]. rewrite Hy', Hy. cbn [andb]. by apply IH. }
    assert (length (ds2 ++ 95%Z :: more) < length (source p) + 2)%nat.
    { pose proof (f_equal length Hdq) as Hl.
      rewrite length_drop, length_app, Hsq in Hl. lia. }
    destruct (leading_zero_tail_run (length (source p) + 2) q ctx c v
                (ds2 ++ 95 :: more) rest)
      as (p' & Hrun & Hval & Hi); [done.. |].
    exists p'. rewrite length_app in Hi. cbn [length] in Hi. split_and!; [done | | lia].
    rewrite Hval, Hsq, Htq, Htok.
    rewrite (substring_token (source p) (index p)
               ((48 :: d0 :: ds') ++ 95 :: more) rest).
    - rewrite parseFloat_until_separator by done. by rewrite digitsValue_zero.
    - rewrite Hsrc. simpl. by rewrite <- !app_assoc.
    - rewrite !length_app. simpl in *. lia. }
  assert (Hsrc1' : drop (S (index p)) (source p)
                   = (d0 :: ds') ++ (95 :: more ++ rest)) by done.
  destruct (isOctalDigit d0) eqn:Ho.
  - edestruct (scanImplicitOctal_run (d0 :: ds')
                 (set_cursor p (S (index p)) (S (column p)) (Some d0))
                 (Fin 0) NumberKind.ImplicitOctal false
                 (length (source p) + 2) (95 :: more ++ rest))
      as (q & c & v' & ds2 & Hrun & Hc & Hsrc2 & Hds2 & Hne2 & Hi & _);
      [done | done | done | rewrite length_app in Hfuel; lia |].
    cbn [source index set_cursor] in Hrun, Hc, Hsrc2, Hi. rewrite Hc1 in Hrun.
    unfold charCodeAt in Hrun. rewrite Hrun. cbn [mbind outcome_bind].
    pose proof (scanImplicitOctal_frame _ _ _ _ _ _ _ _ _ _ _ Hrun) as [Hs _ Ht _ _ _].
    cbn [source tokenIndex set_cursor] in Hs, Ht.
    apply Htail with ds2; try done; try lia; rewrite ?Hs; try done.
    by rewrite <- app_assoc.
  - assert (is89 d0 = true) as ->.
    { unfold is89, isOctalDigit in *. apply isDigit_spec in Hd0.
      apply andb_true_iff. split; bool_lia; apply Z.leb_le; lia. }
    cbn [mbind outcome_bind].
    match goal with |- context [set_flags ?a ?b] => set (q0 := set_flags a b) end.
    apply (Htail q0 d0 _ (d0 :: ds')); try done; simpl; try lia.
    by rewrite <- app_assoc.
Qed.

(** X15: entered after the period of a literal that starts with it, that
    is with kind Float on the fraction digits (single [_] between them),
    [scanNumber] throws InvalidBigInt when an [n] follows the digits; when
    the end of the input or a code unit that is neither an identifier start
    nor a digit follows, it returns a NumericLiteral whose value is the
    Number for [digits * 10^-k], [k] being the number of digits. *)
Theorem fraction_literal_value p ctx frac rest :
  drop (index p) (source p) = frac ++ rest →
  nextCP_ p = source p !! index p →
  validBody isDigit false frac = true →
  (rest !! 0%nat = Some Chars.LowerN →
   scanNumber unicodeIDStart p ctx NumberKind.Float = Throw InvalidBigInt) ∧
  (endsNumeral unicodeIDStart rest →
   ∃ p', scanNumber unicodeIDStart p ctx NumberKind.Float
           = Return (p', NumericLiteral) ∧
         tokenValue p' =
           ANum (decimalToNumber (digitsValue (withoutSeparators frac))
                   (- Z.of_nat (length (withoutSeparators frac)))) ∧
         index p' = (index p + length frac)%nat).
Proof.
  intros Hsrc Hn Hvalid.
  destruct (validBody_run _ _ Hvalid) as (Hall & Hdbl & Htr & Hhd).
  destruct (Hhd eq_refl) as (c0 & frac' & -> & Hc0). specialize (Htr ltac:(done)).
  pose proof (lookup_after _ _ _ _ Hsrc) as Hnext.
  pose proof (scanDecimalDigitsOrSeparator_run p (c0 :: frac') rest
                (length (source p) + 2) Hsrc Hall) as Hrun.
  rewrite Hdbl, Htr, <- Hn in Hrun.
  unfold scanNumber, scanNumberFuel, scanMantissa.
  change (test NumberKind.Float NumberKind.Float) with true. cbv iota.
  split.
  - intros Hrest. rewrite Hrun; [| by rewrite Hrest | by eapply fuel_covers].
    cbn [mbind outcome_bind]. cbn [length] in *. rewrite advance_nextCP_, Hnext.
    by destruct (decide (rest !! 0%nat = Some Chars.LowerN)).
  - intros Hends.
    rewrite Hrun; [| by apply (endsNumeral_stop unicodeIDStart) | by eapply fuel_covers].
    cbn [mbind outcome_bind]. cbn [length] in *. rewrite advance_nextCP_, Hnext.
    destruct Hends as [Hid Hdec]. unfold jsstring in *.
    destruct (decide (rest !! 0%nat = Some Chars.LowerN)) as [E|_].
    { by rewrite E in Hid. }
    cbn [mbind outcome_bind].
    destruct (suffix_finish_plain unicodeIDStart (length (source p) + 2)
                (advance p (S (length frac'))) ctx NumberKind.Float _
                (AccStr (lit "." ++ withoutSeparators (c0 :: frac'))) Hid Hdec)
      as (p' & -> & Hfin).
    exists p'. split; [done|].
    apply finishNumber_inv in Hfin as (_ & -> & _ & _ & _ & _ & _ & _ & _ & ->).
    rewrite advance_index. split; [|done].
    change (ANum (stringToNumber (46 :: withoutSeparators (c0 :: frac'))) =
            ANum (decimalToNumber (digitsValue (withoutSeparators (c0 :: frac')))
                    (- Z.of_nat (length (withoutSeparators (c0 :: frac')))))).
    rewrite stringToNumber_point; [done | by apply withoutSeparators_digits |].
    unfold withoutSeparators. simpl.
    assert ((c0 =? 95) = false) as -> by (unfold isDigit in Hc0; bool_lia). done.
Qed.

(** X16: a [_] right after the period of a decimal literal throws
    Unexpected, whatever follows it. *)
Theorem separator_after_period p ctx body rest :
  drop (index p) (source p) = body ++ Chars.Period :: 95 :: rest →
  nextCP_ p = source p !! index p →
  integerPart body (Some Chars.Period) →
  scanNumber unicodeIDStart p ctx NumberKind.Decimal = Throw Unexpected.
Proof.
  intros Hsrc Hn Hint.
  destruct (scanInteger (length (source p) + 2) p ctx body
              (Chars.Period :: 95 :: rest) Hsrc Hn Hint eq_refl
              (fuel_covers _ _ _ Hsrc))
    as (p0 & char0 & p1 & text & Hzero & Hrun & -> & Hnext & Hds & Hval).
  simpl in Hnext.
  pose proof (drop_after _ _ _ _ Hsrc) as Hsrc1.
  pose proof (drop_step _ _ _ _ Hsrc1) as Hsrc2.
  pose proof (lookup_drop_0 _ _ _ Hsrc2) as Hc2.
  unfold scanNumber, scanNumberFuel, scanMantissa.
  change (test NumberKind.Decimal NumberKind.Float) with false. cbv iota.
  rewrite Hzero. cbn [mbind outcome_bind]. unfold scanDecimalPart.
  change (test NumberKind.Decimal NumberKind.DecimalNumberKind) with true.
  cbn [mbind outcome_bind]. unfold scanDecimalTail. rewrite Hrun.
  cbn [mbind outcome_bind]. rewrite Hnext.
  destruct (decide (Some Chars.Period = Some Chars.Period)) as [_|]; [|done].
  unfold nextCP, charCodeAt. rewrite advance_index, advance_source.
  rewrite Hc2. simpl.
  by destruct (decide (Some 95 = Some Chars.Underscore)).
Qed.

End SeparatorsAndFraction.

(** [leading_zero_separator] at [08_1], which scans to 8. *)
Lemma leading_zero_separator_witness :
  ∃ p', scanNumber asciiOnly (startOf "08_1") Context.None NumberKind.Decimal
          = Return (p', NumericLiteral) ∧
        tokenValue p' = ANum (Whole (roundInt (digitsValue (lit "8")))) ∧
        index p' = (index (startOf "08_1") + 1 + length (lit "8") + 1
                    + length (lit "1"))%nat.
Proof.
  apply (leading_zero_separator asciiOnly (startOf "08_1") Context.None
           (lit "8") (lit "1") []).
  - reflexivity.
  - reflexivity.
  - reflexivity.
  - reflexivity.
  - reflexivity.
  - reflexivity.
  - reflexivity.
  - split; reflexivity.
  - discriminate.
Defined.

(** [fraction_literal_value] at [.25], entered after the period. *)
Lemma fraction_literal_value_witness :
  ∃ p', scanNumber asciiOnly (parserAt ".25" 0 1) Context.None NumberKind.Float
          = Return (p', NumericLiteral) ∧
        tokenValue p' =
          ANum (decimalToNumber (digitsValue (withoutSeparators (lit "25")))
                  (- Z.of_nat (length (withoutSeparators (lit "25"))))) ∧
        index p' = (index (parserAt ".25" 0 1) + length (lit "25"))%nat.
Proof.
  refine (proj2 (fraction_literal_value asciiOnly (parserAt ".25" 0 1) Context.None
                   (lit "25") [] _ _ _) _).
  - reflexivity.
  - reflexivity.
  - reflexivity.
  - split; reflexivity.
Defined.

(** [separator_after_period] at [1._5]. *)
Lemma separator_after_period_witness :
  scanNumber asciiOnly (startOf "1._5") Context.None NumberKind.Decimal
    = Throw Unexpected.
Proof.
  apply (separator_after_period asciiOnly (startOf "1._5") Context.None
           (lit "1") (lit "5")).
  - reflexivity.
  - reflexivity.
  - split; [reflexivity | left; discriminate].
Defined.

(** ** Legacy octal literals with an exponent *)

Section LegacyOctalSuffix.
Variable unicodeIDStart : Z → bool.

(** X17: outside strict mode a legacy octal literal ([0] and octal digits,
    of a value below 2^53) that is followed by an exponent part scans to a
    NumericLiteral whose [tokenValue] is a String, not a Number: the decimal
    digits of the octal value followed by the text of the exponent part. *)
Theorem legacy_octal_exponent_text p ctx kind ds e sign ex rest :
  drop (index p) (source p) = 48 :: ds ++ e :: sign ++ ex ++ rest →
  nextCP_ p = Some 48 →
  test kind NumberKind.Float = false →
  test ctx Context.Strict = false →
  ds ≠ [] → forallb isOctalDigit ds = true →
  octalValue ds < 9007199254740992 →
  Z.lor e 32 = 101 → isSign sign → validBody isDigit false ex = true →
  endsNumeral unicodeIDStart rest →
  ∃ p', scanNumber unicodeIDStart p ctx kind = Return (p', NumericLiteral) ∧
        tokenValue p' =
          AStr (numberToString (Fin (octalValue ds))
                ++ e :: sign ++ withoutSeparators ex) ∧
        index p' = (index p + 1 + length ds + 1 + length sign + length ex)%nat.
Proof.
  intros Hsrc Hn Hfloat Hstrict Hne Hds Hlt He Hsign Hex Hends.
  destruct ds as [|d0 ds']; [done|].
  pose proof (drop_step _ _ _ _ Hsrc) as Hsrc1.
  pose proof (lookup_drop_0 _ _ _ Hsrc1) as Hc1; simpl in Hc1.
  pose proof Hds as [Hd0 _]%andb_true_iff.
  assert (Hc07 : 48 ≤ d0 ≤ 55) by (unfold isOctalDigit in Hd0; bool_lia).
  assert (Hdig : isDigit d0 = true)
    by (unfold isDigit; apply andb_true_iff; split; apply Z.leb_le; lia).
  unfold scanNumber, scanNumberFuel, scanMantissa.
  rewrite Hfloat, Hn; destruct (decide _) as [_|]; [|done].
  unfold scanLeadingZero, nextCP, charCodeAt.
  cbn [fst snd index source set_cursor]; rewrite !Hc1; cbn [lower].
  change Chars.LowerX with 120; change Chars.LowerO with 111;
    change Chars.LowerB with 98.
  rewrite !(lower_digit d0) by (done || lia).
  unfold classify; rewrite CharTypes_Octal, Hd0, Hstrict.
  assert (Hfuel : (length (d0 :: ds') < length (source p) + 2)%nat).
  { apply (f_equal length) in Hsrc. rewrite length_drop in Hsrc. simpl in *.
    rewrite length_app in Hsrc. lia. }
  assert (Hstop : classify ((e :: sign ++ ex ++ rest) !! 0%nat) CharFlags.Decimal = None).
  { simpl. by destruct (exponent_marker e He) as [-> | ->]. }
  edestruct (scanImplicitOctal_octal (d0 :: ds')
               (set_cursor p (S (index p)) (S (column p)) (Some d0))
               0 NumberKind.ImplicitOctal false
               (length (source p) + 2) (e :: sign ++ ex ++ rest))
    as (q & Hrun & Hi & Hfl); [done.. | lia | done |].
  cbn [source index flags set_cursor] in Hrun, Hi, Hfl. rewrite Hc1 in Hrun.
  simpl (_ !! 0%nat) in Hrun. rewrite Hrun. cbn [mbind outcome_bind].
  pose proof (scanImplicitOctal_frame _ _ _ _ _ _ _ _ _ _ _ Hrun) as [Hs _ _ _ _ _].
  cbn [source set_cursor] in Hs.
  pose proof (drop_after _ _ (48 :: d0 :: ds') _ Hsrc) as Hsrcq.
  assert (Hidx : (index p + length (48%Z :: d0 :: ds'))%nat = index q)
    by (simpl in *; lia).
  rewrite Hidx, <- Hs in Hsrcq.
  unfold scanDecimalPart.
  change (test NumberKind.ImplicitOctal NumberKind.DecimalNumberKind) with false.
  cbn [mbind outcome_bind]. unfold scanSuffixAndFinish.
  rewrite (scanSuffix_exponent _ _ _ e sign ex rest);
    [| done | done | done | done | by apply (endsNumeral_stop unicodeIDStart) |].
  2:{ pose proof (f_equal length Hsrcq) as Hl.
      rewrite length_drop, Hs in Hl. simpl in Hl. rewrite !length_app in Hl. lia. }
  cbn [mbind outcome_bind]. destruct Hends as [Hid Hdec]. unfold jsstring in *.
  unfold finishNumber. rewrite Hid, Hdec, andb_false_r. cbn [orb].
  eexists. split; [done|].
  match goal with
  | |- tokenValue (if _ then set_tokenRaw (set_tokenValue ?q ?v) _ else _) = _ ∧ _ =>
      destruct (finish_index_value ctx q v) as [Hfi Hval]
  end.
  rewrite Hfi, Hval, advance_index. split; [done|]. simpl in *. lia.
Qed.

End LegacyOctalSuffix.

(** [legacy_octal_exponent_text] at [07e1], whose value is the text [7e1]. *)
Lemma legacy_octal_exponent_text_witness :
  ∃ p', scanNumber asciiOnly (startOf "07e1") Context.None NumberKind.Decimal
          = Return (p', NumericLiteral) ∧
        tokenValue p' =
          AStr (numberToString (Fin (octalValue (lit "7")))
                ++ 101 :: [] ++ withoutSeparators (lit "1")) ∧
        index p' = (index (startOf "07e1") + 1 + length (lit "7") + 1
                    + length (@nil Z) + length (lit "1"))%nat.
Proof.
  apply (legacy_octal_exponent_text asciiOnly (startOf "07e1") Context.None
           NumberKind.Decimal (lit "7") 101 [] (lit "1") []).
  - reflexivity.
  - reflexivity.
  - reflexivity.
  - reflexivity.
  - discriminate.
  - reflexivity.
  - vm_compute. reflexivity.
  - reflexivity.
  - left. reflexivity.
  - reflexivity.
  - split; reflexivity.
Defined.
